(** * PBR battery shipment: the atomic shipment admission controller

    A shallow embedding of the repository:

    - [server/models/Contract.js]: the contract document, its virtuals
      ([thresholdPercentage], [remainingCapacity], [status]) and its instance
      methods ([addNotification], [canShip], [shipBatteries]);
    - [server/services/lockService.js]: the Redis lock ([acquireLock],
      [releaseLock], [extendLock]);
    - [server/routes/contracts.js]: the [$addFields] stage of the
      list-contracts aggregation pipeline and the page it answers with, the
      creation of a contract and the lock route;
    - [server/routes/shipments.js]: the [POST /] handler that approves or blocks
      a shipment;
    - [server/socket/handlers.js]: the rooms of a socket and what the
      handlers emit;
    - [src/pages/Index.tsx]: the colour of a contract's progress bar.

    Numbers.  The counters of a contract ([batteriesShipped], [threshold],
    [deviceCount]) and the quantity of a request are JavaScript numbers that
    the validators restrict to integers; they are modelled as [Z].  Quotients
    and percentages are rationals, in [Q].  The [status] of a contract is
    modelled twice: on the exact percentage ([Contract.status]), and on the
    percentage as JavaScript computes it, rounded to binary64 after each
    operation ([Contract.status64]); the two differ only for quotients
    just under 0.8.  Dates are milliseconds since the epoch, in [Z]. *)

From Stdlib Require Import ZArith QArith Qfield Lia List String Ascii Bool.
From Stdlib Require Import Qround Qminmax Qpower Lqa.
From stdpp Require Import base option list strings gmap pretty.

Set Warnings "-register-all".

Local Open Scope string_scope.
Local Open Scope Z_scope.

(** ** Binary64 arithmetic

    A JavaScript number is an IEEE 754 binary64 value, and every operation
    on numbers rounds its exact result to the nearest such value, ties to
    the one with an even mantissa.  A finite number is modelled by its
    exact value in [Q], and an operation by the exact operation followed by
    [round].  The range of the exponent is not modelled: the quotients and
    percentages of counters below [2^53] stay far inside it. *)

Module Binary64.

(** The nearest integer, ties to the even one. *)
Definition rne (x : Q) : Z :=
  let f := Qfloor x in
  match Qcompare (x - inject_Z f) (1 # 2) with
  | Lt => f
  | Gt => f + 1
  | Eq => if Z.even f then f else f + 1
  end.

(** [floor (log2 q)] for a positive [q]: the binade of [q]. *)
Definition ilog2 (q : Q) : Z :=
  let k := Z.log2 (Qnum q) - Z.log2 (Zpos (Qden q)) in
  if Qle_bool (2 ^ k) q then k else k - 1.

(** A positive number, rounded to 53 significant bits: the mantissa is
    [x / 2^e] for the [e] that brings it into [[2^52, 2^53)]. *)
Definition round_pos (x : Q) : Q :=
  let e := ilog2 x - 52 in (inject_Z (rne (x / 2 ^ e)) * 2 ^ e)%Q.

(** Rounding to the nearest binary64 number. *)
Definition round (x : Q) : Q :=
  match Qcompare x 0 with
  | Eq => 0%Q
  | Gt => round_pos x
  | Lt => (- round_pos (- x))%Q
  end.

End Binary64.

(** ** The contract model ([server/models/Contract.js]) *)

Module Contract.

(** [notificationSchema]. *)
Record Notification := mkNotification {
  email : string;
  message : string;
  type : string;
  timestamp : Z
}.

(** [contractSchema], the fields the admission path reads or writes.
    [contractId] carries a unique index; [_id] is the document identity. *)
Record t := mk {
  _id : Z;
  contractId : string;
  deviceCount : Z;
  batteriesShipped : Z;
  threshold : Z;
  isLocked : bool;
  lastUpdated : Z;
  notificationsSent : list Notification
}.

(** The schema validators: [deviceCount] has [min: 1], [batteriesShipped]
    has [min: 0], [threshold] has [min: 1]. *)
Definition valid (c : t) : Prop :=
  1 <= deviceCount c /\ 0 <= batteriesShipped c /\ 1 <= threshold c.

(** [virtual('thresholdPercentage')]:
    [this.threshold > 0 ? (this.batteriesShipped / this.threshold) * 100 : 0],
    the exact value of the expression.  [thresholdPercentage64] below is
    the number that JavaScript computes for it. *)
Definition thresholdPercentage (c : t) : Q :=
  if 0 <? threshold c
  then ((inject_Z (batteriesShipped c) / inject_Z (threshold c)) * 100)%Q
  else 0%Q.

(** [virtual('remainingCapacity')]:
    [Math.max(0, this.threshold - this.batteriesShipped)]. *)
Definition remainingCapacity (c : t) : Z :=
  Z.max 0 (threshold c - batteriesShipped c).

(** [x >= y] on numbers. *)
Definition geq (x y : Q) : bool := Qle_bool y x.

(** [virtual('status')], on the exact percentage. *)
Definition status (c : t) : string :=
  if isLocked c then "LOCKED"
  else if geq (thresholdPercentage c) 100 then "EXCEEDED"
  else if geq (thresholdPercentage c) 80 then "WARNING"
  else "ACTIVE".

(** The two virtuals as JavaScript computes them: the division rounds, and
    the multiplication by 100 rounds again. *)
Definition thresholdPercentage64 (c : t) : Q :=
  if 0 <? threshold c
  then Binary64.round
         (Binary64.round (inject_Z (batteriesShipped c) / inject_Z (threshold c)) * 100)
  else 0%Q.

Definition status64 (c : t) : string :=
  if isLocked c then "LOCKED"
  else if geq (thresholdPercentage64 c) 100 then "EXCEEDED"
  else if geq (thresholdPercentage64 c) 80 then "WARNING"
  else "ACTIVE".

(** A counter that a JavaScript number holds exactly. *)
Definition exact_number (n : Z) : Prop := - 2 ^ 53 < n < 2 ^ 53.

(** [methods.canShip]. *)
Definition canShip (c : t) (quantity : Z) : bool :=
  if isLocked c then false
  else batteriesShipped c + quantity <=? threshold c.

(** The status as the specification words it: a cascade over the exact
    quotient [batteriesShipped / threshold]. *)
Definition ratio (c : t) : Q :=
  (inject_Z (batteriesShipped c) / inject_Z (threshold c))%Q.

Definition status_by_ratio (c : t) : string :=
  if isLocked c then "LOCKED"
  else if geq (ratio c) 1 then "EXCEEDED"
  else if geq (ratio c) 0.8 then "WARNING"
  else "ACTIVE".

End Contract.

(** ** The list-contracts aggregation ([server/routes/contracts.js])

    The [$addFields] stage is data handed to MongoDB, so it is embedded as
    data: a small language of aggregation expressions with the evaluator the
    stage needs.  [None] is a failed evaluation (MongoDB aborts the pipeline,
    as it does for [$divide] by zero). *)

Module Aggregation.

Inductive Value :=
| VNum (q : Q)
| VBool (b : bool)
| VStr (s : string).

Inductive Expr :=
| Field (name : string)
| Lit (v : Value)
| Divide (a b : Expr)
| Multiply (a b : Expr)
| Eq (a b : Expr)
| Gte (a b : Expr)
| Switch (branches : list (Expr * Expr)) (default : Expr).

(** A document as the pipeline sees it. *)
Definition Doc := string -> option Value.

Definition doc_of (c : Contract.t) : Doc := fun name =>
  if String.eqb name "batteriesShipped" then Some (VNum (inject_Z (Contract.batteriesShipped c)))
  else if String.eqb name "threshold" then Some (VNum (inject_Z (Contract.threshold c)))
  else if String.eqb name "deviceCount" then Some (VNum (inject_Z (Contract.deviceCount c)))
  else if String.eqb name "isLocked" then Some (VBool (Contract.isLocked c))
  else if String.eqb name "contractId" then Some (VStr (Contract.contractId c))
  else None.

Definition value_eqb (x y : Value) : bool :=
  match x, y with
  | VNum p, VNum q => Qeq_bool p q
  | VBool a, VBool b => Bool.eqb a b
  | VStr s, VStr t => String.eqb s t
  | _, _ => false
  end.

(** Evaluation.  [$divide] and [$multiply] take numbers; [$divide] by zero
    fails.  [$gte] is evaluated on numbers, the only operands it meets here.
    [$switch] takes the first branch whose case is [true]. *)
Fixpoint eval (d : Doc) (e : Expr) : option Value :=
  match e with
  | Field name => d name
  | Lit v => Some v
  | Divide a b =>
      match eval d a, eval d b with
      | Some (VNum x), Some (VNum y) =>
          if Qeq_bool y 0 then None else Some (VNum (x / y))
      | _, _ => None
      end
  | Multiply a b =>
      match eval d a, eval d b with
      | Some (VNum x), Some (VNum y) => Some (VNum (x * y))
      | _, _ => None
      end
  | Eq a b =>
      match eval d a, eval d b with
      | Some x, Some y => Some (VBool (value_eqb x y))
      | _, _ => None
      end
  | Gte a b =>
      match eval d a, eval d b with
      | Some (VNum x), Some (VNum y) => Some (VBool (Qle_bool y x))
      | _, _ => None
      end
  | Switch branches default =>
      (fix go (bs : list (Expr * Expr)) : option Value :=
         match bs with
         | [] => eval d default
         | (c, t) :: rest =>
             match eval d c with
             | Some (VBool true) => eval d t
             | Some _ => go rest
             | None => None
             end
         end) branches
  end.

Definition num (z : Z) : Expr := Lit (VNum (inject_Z z)).

(** [{ $multiply: [{ $divide: ['$batteriesShipped', '$threshold'] }, 100] }] *)
Definition thresholdPercentageExpr : Expr :=
  Multiply (Divide (Field "batteriesShipped") (Field "threshold")) (num 100).

(** The [status] field of the [$addFields] stage. *)
Definition statusExpr : Expr :=
  Switch
    [ (Eq (Field "isLocked") (Lit (VBool true)), Lit (VStr "LOCKED"));
      (Gte thresholdPercentageExpr (num 100), Lit (VStr "EXCEEDED"));
      (Gte thresholdPercentageExpr (num 80), Lit (VStr "WARNING")) ]
    (Lit (VStr "ACTIVE")).

(** The stage on one document: both added fields must evaluate. *)
Definition addFields (c : Contract.t) : option (Value * Value) :=
  match eval (doc_of c) thresholdPercentageExpr, eval (doc_of c) statusExpr with
  | Some p, Some s => Some (p, s)
  | _, _ => None
  end.

End Aggregation.

(** ** The Redis client, as far as the lock service drives it

    A key holds a value and the instant at which it expires ([PX]); the
    server keeps the key through that instant and has dropped it at any
    later one.  An expired key is absent to every command.  A command on a
    client whose connection is down throws. *)

Module Redis.

Record t := mk {
  up : bool;
  store : gmap string (string * Z)
}.

(** The value a key holds at time [now], if it has not expired: a key
    is expired once [now] is past [expiresAt]. *)
Definition get (now : Z) (r : t) (key : string) : option string :=
  match store r !! key with
  | Some (v, expiresAt) => if now <=? expiresAt then Some v else None
  | None => None
  end.

(** [SET key value PX px NX]: ['OK'] ([true]) if the key was absent, [null]
    ([false]) otherwise.  [None]: the command threw; the server refuses a
    [px] that is not positive ("invalid expire time") before it looks at the
    key. *)
Definition set_px_nx (now : Z) (r : t) (key value : string) (px : Z)
  : option (bool * t) :=
  if up r then
    if px <=? 0 then None
    else
      match get now r key with
      | Some _ => Some (false, r)
      | None => Some (true, mk (up r) (<[key := (value, now + px)]> (store r)))
      end
  else None.

(** [DEL key]: the number of keys removed. *)
Definition del (now : Z) (r : t) (key : string) : option (Z * t) :=
  if up r then
    Some (match get now r key with Some _ => 1 | None => 0 end,
          mk (up r) (delete key (store r)))
  else None.

(** What the client hands over for an integer reply: the number, or, for
    the commands that node-redis 4 answers with a boolean, [reply === 1]. *)
Inductive Reply :=
| Number (z : Z)
| Boolean (b : bool).

Definition reply (booleans : bool) (z : Z) : Reply :=
  if booleans then Boolean (z =? 1) else Number z.

(** [EXPIRE key seconds]: [1] if the key exists, [0] otherwise; a key
    that is given no time to live ([seconds <= 0]) is deleted.  The
    client is one that answers [EXPIRE] with a boolean ([booleans]) or one
    that answers with the number. *)
Definition expire (booleans : bool) (now : Z) (r : t) (key : string) (seconds : Z)
  : option (Reply * t) :=
  if up r then
    match get now r key with
    | Some v =>
        Some (reply booleans 1,
              if seconds <=? 0 then mk (up r) (delete key (store r))
              else mk (up r) (<[key := (v, now + seconds * 1000)]> (store r)))
    | None => Some (reply booleans 0, r)
    end
  else None.

(** [x === 1] *)
Definition is_one (x : Reply) : bool :=
  match x with
  | Number z => z =? 1
  | Boolean _ => false
  end.

End Redis.

(** ** The lock service ([server/services/lockService.js]) *)

Module LockService.

(** [`${Date.now()}-${Math.random()}`]; [rand] is the rendering of the
    random number. *)
Definition lockValue (now : Z) (rand : string) : string :=
  pretty now ++ "-" ++ rand.

(** [acquireLock(redisClient, lockKey, timeout)]: [result === 'OK'], and
    [false] when the client throws. *)
Definition acquireLock (now : Z) (rand : string) (r : Redis.t)
    (lockKey : string) (timeout : Z) : bool * Redis.t :=
  match Redis.set_px_nx now r lockKey (lockValue now rand) timeout with
  | Some (result, r') => (result, r')
  | None => (false, r)
  end.

(** [releaseLock(redisClient, lockKey)]: [true] after the [DEL], [false]
    when the client throws. *)
Definition releaseLock (now : Z) (r : Redis.t) (lockKey : string)
  : bool * Redis.t :=
  match Redis.del now r lockKey with
  | Some (_, r') => (true, r')
  | None => (false, r)
  end.

(** [extendLock(redisClient, lockKey, timeout)]: the key is given
    [Math.floor(timeout / 1000)] seconds; [result === 1], and [false] when
    the client throws. *)
Definition extendLock (booleans : bool) (now : Z) (r : Redis.t) (lockKey : string)
    (timeout : Z) : bool * Redis.t :=
  match Redis.expire booleans now r lockKey (timeout / 1000) with
  | Some (result, r') => (Redis.is_one result, r')
  | None => (false, r)
  end.

End LockService.

(** ** The shipment model ([shipmentSchema] in [server/routes/shipments.js]) *)

Module Shipment.

Record t := mk {
  shipmentId : string;
  contractId : string;
  contract : Z;
  batteriesShipped : Z;
  timestamp : Z;
  status : string;
  initiatedBy : string;
  userId : Z;
  blockReason : option string;
  notes : option string
}.

End Shipment.

(** ** The ledger: the two MongoDB collections

    The [contracts] collection has a unique index on [contractId] and is
    keyed by it; [shipments] is append-only.  What the application sends to
    the store is an update operation, so a write is data: a transaction
    buffers its writes and the commit replays them on the collections; an
    abort drops them.  A read or a filter inside a transaction sees the
    collections as they are at that moment, with the transaction's own
    writes on top. *)

Module Ledger.

Record t := mk {
  contracts : gmap string Contract.t;
  shipments : list Shipment.t
}.

Inductive Write :=
| SetLocked (key : string) (locked : bool) (now : Z)
    (* [{ $set: { isLocked, lastUpdated } }], a [save()] with [isLocked] modified *)
| IncShipped (key : string) (quantity : Z) (now : Z)
    (* [{ $inc: { batteriesShipped }, $set: { lastUpdated } }] *)
| PushNotification (key : string) (n : Contract.Notification) (now : Z)
    (* [{ $push: { notificationsSent }, $set: { lastUpdated } }] *)
| InsertShipment (s : Shipment.t).

Definition set_locked (locked : bool) (now : Z) (c : Contract.t) : Contract.t :=
  Contract.mk (Contract._id c) (Contract.contractId c) (Contract.deviceCount c)
    (Contract.batteriesShipped c) (Contract.threshold c) locked now
    (Contract.notificationsSent c).

Definition inc_shipped (quantity : Z) (now : Z) (c : Contract.t) : Contract.t :=
  Contract.mk (Contract._id c) (Contract.contractId c) (Contract.deviceCount c)
    (Contract.batteriesShipped c + quantity) (Contract.threshold c)
    (Contract.isLocked c) now (Contract.notificationsSent c).

Definition push_notification (n : Contract.Notification) (now : Z) (c : Contract.t)
  : Contract.t :=
  Contract.mk (Contract._id c) (Contract.contractId c) (Contract.deviceCount c)
    (Contract.batteriesShipped c) (Contract.threshold c) (Contract.isLocked c) now
    (Contract.notificationsSent c ++ [n]).

Definition apply (l : t) (w : Write) : t :=
  match w with
  | SetLocked key locked now =>
      mk (alter (set_locked locked now) key (contracts l)) (shipments l)
  | IncShipped key quantity now =>
      mk (alter (inc_shipped quantity now) key (contracts l)) (shipments l)
  | PushNotification key n now =>
      mk (alter (push_notification n now) key (contracts l)) (shipments l)
  | InsertShipment s =>
      mk (contracts l) (shipments l ++ [s])
  end.

Definition replay (l : t) (ws : list Write) : t := fold_left apply ws l.

(** What a write does to the contract stored under [key]. *)
Definition effect (w : Write) (key : string) : Contract.t -> Contract.t :=
  match w with
  | SetLocked k locked now => if String.eqb k key then set_locked locked now else id
  | IncShipped k quantity now => if String.eqb k key then inc_shipped quantity now else id
  | PushNotification k n now => if String.eqb k key then push_notification n now else id
  | InsertShipment _ => id
  end.

(** [findOne({ contractId })]: the document the index holds under the key,
    whose [contractId] is the one asked for. *)
Definition findOne (l : t) (contractId : string) : option Contract.t :=
  match contracts l !! contractId with
  | Some c => if String.eqb (Contract.contractId c) contractId then Some c else None
  | None => None
  end.

End Ledger.

(** ** What one request runs in: session, stores, and what it leaves behind *)

Module World.

(** The transaction of a [ClientSession]. *)
Inductive Transaction :=
| NoTransaction
| InTransaction (pending : list Ledger.Write)
| Committed
| Aborted.

Inductive Event :=
| StartSession
| StartTransaction
| AcquireLock (lockKey : string) (acquired : bool)
| ReleaseLock (lockKey : string)
| AbortTransaction
| CommitTransaction (writes : list Ledger.Write)
| FindContract (contractId : string)
| SaveContract (contractId : string)
| ShipBatteries (contractId : string) (quantity : Z) (matched : bool)
| SaveShipment (shipmentId : string)
| Populate
| AddNotification (contractId : string)
| SendShipmentNotification (sent : bool)
| ConsoleError (message : string) (error : string)
| Emit (event : string)
| Respond (status : Z)
| EndSession.

(** The JSON body of a response and its HTTP status. *)
Record Response := mkResponse {
  http : Z;
  error : option string;
  code : option string;
  message : option string;
  shipment : option Shipment.t;
  warning : option string
}.

Record t := mk {
  ledger : Ledger.t;
  transaction : Transaction;
  redis : Redis.t;
  trace : list Event;
  response : option Response
}.

Definition with_ledger (l : Ledger.t) (w : t) : t :=
  mk l (transaction w) (redis w) (trace w) (response w).
Definition with_transaction (x : Transaction) (w : t) : t :=
  mk (ledger w) x (redis w) (trace w) (response w).
Definition with_redis (r : Redis.t) (w : t) : t :=
  mk (ledger w) (transaction w) r (trace w) (response w).
Definition with_response (r : Response) (w : t) : t :=
  mk (ledger w) (transaction w) (redis w) (trace w) (Some r).
Definition log (e : Event) (w : t) : t :=
  mk (ledger w) (transaction w) (redis w) (trace w ++ [e]) (response w).

(** What a read inside the session sees: the collections with the
    transaction's own writes applied. *)
Definition view (w : t) : Ledger.t :=
  match transaction w with
  | InTransaction pending => Ledger.replay (ledger w) pending
  | _ => ledger w
  end.

(** Does the event read or write a collection of the ledger? *)
Definition touches_ledger (e : Event) : bool :=
  match e with
  | FindContract _ | SaveContract _ | ShipBatteries _ _ _
  | SaveShipment _ | AddNotification _ | Populate => true
  | _ => false
  end.

(** Recognisers of the events whose order matters. *)
Definition is_StartTransaction (e : Event) : bool :=
  match e with StartTransaction => true | _ => false end.

Definition is_AcquireLock (e : Event) : bool :=
  match e with AcquireLock _ _ => true | _ => false end.

Definition is_CommitTransaction (e : Event) : bool :=
  match e with CommitTransaction _ => true | _ => false end.

Definition is_SaveContract (e : Event) : bool :=
  match e with SaveContract _ => true | _ => false end.

Definition is_PushNotification (x : Ledger.Write) : bool :=
  match x with Ledger.PushNotification _ _ _ => true | _ => false end.

Definition is_AddNotification (e : Event) : bool :=
  match e with AddNotification _ => true | _ => false end.

End World.

(** ** The shipments route ([server/routes/shipments.js])

    The handler is [async] code with [try]/[catch]/[finally], early [return]s
    and [throw]s: it is written in a state monad over [World.t] whose
    computations end in a value, a thrown error or a [return] from the
    handler. *)

Module Shipments.

Import World.

Inductive Outcome (A : Type) :=
| Val (a : A)
| Thrown (error : string)
| Returned.
Arguments Val {A} a.
Arguments Thrown {A} error.
Arguments Returned {A}.

Definition M (A : Type) : Type := World.t -> Outcome A * World.t.

Definition ret {A} (a : A) : M A := fun w => (Val a, w).

Definition bind {A B} (m : M A) (k : A -> M B) : M B := fun w =>
  match m w with
  | (Val a, w') => k a w'
  | (Thrown e, w') => (Thrown e, w')
  | (Returned, w') => (Returned, w')
  end.

(** [throw new Error(message)] *)
Definition throw {A} (message : string) : M A := fun w => (Thrown message, w).

(** [return ...;] out of the handler *)
Definition return_ {A} : M A := fun w => (Returned, w).

(** [try { body } catch (error) { handler }] *)
Definition try_catch {A} (body : M A) (handler : string -> M A) : M A := fun w =>
  match body w with
  | (Thrown e, w') => handler e w'
  | r => r
  end.

(** [try { body } finally { cleanup }]: the cleanup runs on every exit; its
    own throw replaces the outcome of the body. *)
Definition try_finally {A} (body : M A) (cleanup : M unit) : M A := fun w =>
  match body w with
  | (o, w') =>
      match cleanup w' with
      | (Val _, w'') => (o, w'')
      | (Thrown e, w'') => (Thrown e, w'')
      | (Returned, w'') => (Returned, w'')
      end
  end.

Definition modify (f : World.t -> World.t) : M unit := fun w => (Val tt, f w).
Definition event (e : Event) : M unit := modify (log e).

Declare Scope handler_scope.
Delimit Scope handler_scope with handler.
Notation "x <- c ;; k" := (bind c (fun x => k))
  (at level 100, c at next level, k at level 200, right associativity) : handler_scope.
Notation "c ;; k" := (bind c (fun _ => k))
  (at level 100, k at level 200, right associativity) : handler_scope.
Local Open Scope handler_scope.

(** *** The request and what the world decides for it *)

Record User := mkUser {
  username : string;
  email : string;
  userId : Z
}.

(** [req.body], [req.user]: the request as the handler receives it, after
    [authenticateToken] and [requirePermission('create')] let it through. *)
Record Request := mkRequest {
  contractId : string;
  batteriesShipped : Z;
  notes : option string;
  user : User
}.

(** What the handler does not decide: the clock ([Date.now()]), the random
    part of the lock value, the generated [shipmentId], whether the mailer
    throws, and the writes that other requests commit to the ledger between
    this handler's read of the contract and its write. *)
Record Env := mkEnv {
  now : Z;
  rand : string;
  newShipmentId : string;
  emailFails : bool;
  concurrent : list Ledger.Write
}.

(** *** The session ([mongoose.startSession()] and its transaction) *)

Definition startSession : M unit :=
  modify (with_transaction NoTransaction) ;; event StartSession.

Definition startTransaction : M unit := fun w =>
  match transaction w with
  | InTransaction _ => (Thrown "Transaction already in progress", w)
  | _ => (Val tt, log StartTransaction (with_transaction (InTransaction []) w))
  end.

Definition commitTransaction : M unit := fun w =>
  match transaction w with
  | InTransaction pending =>
      (Val tt, log (CommitTransaction pending)
                 (with_transaction Committed
                    (with_ledger (Ledger.replay (ledger w) pending) w)))
  | NoTransaction => (Thrown "No transaction started", w)
  | Committed => (Val tt, log (CommitTransaction []) w)
  | Aborted => (Thrown "Cannot call commitTransaction after calling abortTransaction", w)
  end.

Definition abortTransaction : M unit := fun w =>
  match transaction w with
  | InTransaction _ => (Val tt, log AbortTransaction (with_transaction Aborted w))
  | NoTransaction => (Thrown "No transaction started", w)
  | Committed => (Thrown "Cannot call abortTransaction after calling commitTransaction", w)
  | Aborted => (Thrown "Cannot call abortTransaction twice", w)
  end.

Definition endSession : M unit := event EndSession.

(** A write through the session: buffered while its transaction is open,
    applied at once otherwise. *)
Definition write (x : Ledger.Write) : M unit := fun w =>
  match transaction w with
  | InTransaction pending => (Val tt, with_transaction (InTransaction (pending ++ [x])) w)
  | _ => (Val tt, with_ledger (Ledger.apply (ledger w) x) w)
  end.

(** The other requests' writes land on the collections. *)
Definition other_writers (env : Env) : M unit :=
  modify (fun w => with_ledger (Ledger.replay (ledger w) (concurrent env)) w).

(** *** The collaborators, as the handler calls them *)

(** [acquireLock(redisClient, lockKey, 10000)] *)
Definition acquireLock (env : Env) (lockKey : string) (timeout : Z) : M bool := fun w =>
  let '(acquired, r) :=
    LockService.acquireLock (now env) (rand env) (redis w) lockKey timeout in
  (Val acquired, log (AcquireLock lockKey acquired) (with_redis r w)).

(** [releaseLock(redisClient, lockKey)] *)
Definition releaseLock (env : Env) (lockKey : string) : M unit := fun w =>
  let '(_, r) := LockService.releaseLock (now env) (redis w) lockKey in
  (Val tt, log (ReleaseLock lockKey) (with_redis r w)).

(** [Contract.findOne({ contractId }).session(session)] *)
Definition findOne (contractId : string) : M (option Contract.t) := fun w =>
  (Val (Ledger.findOne (view w) contractId), log (FindContract contractId) w).

(** [contract.save({ session })] after [contract.isLocked = true]; the
    pre-save hook refreshes [lastUpdated]. *)
Definition save_locked (env : Env) (contract : Contract.t) : M unit :=
  event (SaveContract (Contract.contractId contract)) ;;
  write (Ledger.SetLocked (Contract.contractId contract) true (now env)).

(** [methods.shipBatteries] of [Contract.js]: the filter of its
    [findOneAndUpdate]. *)
Definition shipBatteries_filter (this : Contract.t) (quantity : Z) (d : Contract.t) : bool :=
  (Contract._id d =? Contract._id this)
  && negb (Contract.isLocked d)
  && (Contract.batteriesShipped d + quantity <=? Contract.threshold d).

(** [methods.shipBatteries]: the updated document ([new: true]), or [null]
    when no document matches the filter.  The document is reached through
    its [contractId], the key of the collection, and the filter is evaluated
    on what the session sees at that moment. *)
Definition shipBatteries (env : Env) (this : Contract.t) (quantity : Z)
  : M (option Contract.t) := fun w =>
  let key := Contract.contractId this in
  match Ledger.findOne (view w) key with
  | Some d =>
      if shipBatteries_filter this quantity d then
        match write (Ledger.IncShipped key quantity (now env)) w with
        | (_, w') =>
            (Val (Some (Ledger.inc_shipped quantity (now env) d)),
             log (ShipBatteries key quantity true) w')
        end
      else (Val None, log (ShipBatteries key quantity false) w)
  | None => (Val None, log (ShipBatteries key quantity false) w)
  end.

(** A string that [trim] leaves empty: nothing but white space. *)
Definition is_space (a : ascii) : bool :=
  let n := nat_of_ascii a in
  ((9 <=? n) && (n <=? 13) || (n =? 32))%nat.

Fixpoint blank (s : string) : bool :=
  match s with
  | EmptyString => true
  | String a rest => is_space a && blank rest
  end.

(** [methods.addNotification] of [Contract.js]: push, then [this.save()].
    The save validates the document: the [email] of a notification is
    [required] and trimmed, so a blank one is refused and the save
    rejects. *)
Definition addNotification (env : Env) (this : Contract.t)
    (email message type : string) : M unit :=
  event (AddNotification (Contract.contractId this)) ;;
  if blank email then throw "ValidationError"
  else
    write (Ledger.PushNotification (Contract.contractId this)
             (Contract.mkNotification email message type (now env)) (now env)).

(** [shipment.save({ session })] *)
Definition save_shipment (s : Shipment.t) : M unit :=
  event (SaveShipment (Shipment.shipmentId s)) ;;
  write (Ledger.InsertShipment s).

(** What the mailer throws when it throws. *)
Definition mailer_error : string := "sendMail failed".

(** [sendShipmentNotification] of [emailService.js] logs and rethrows what
    the mailer throws. *)
Definition sendShipmentNotification (env : Env) : M unit :=
  if emailFails env then
    event (SendShipmentNotification false) ;;
    event (ConsoleError "Email sending failed:" mailer_error) ;;
    throw mailer_error
  else event (SendShipmentNotification true).

Definition console_error (message error : string) : M unit :=
  event (ConsoleError message error).
Definition emit (name : string) : M unit := event (Emit name).

(** [res.status(http).json(body)] *)
Definition respond (r : Response) : M unit :=
  modify (with_response r) ;; event (Respond (http r)).

Definition error_response (http : Z) (error : string) (code : option string) : Response :=
  mkResponse http (Some error) code None None None.

(** *** The handler of [POST /] *)

(** [isInt({ min: 1 })] on a number that is an integer.  The validator
    tests the digits of [String(value)], and from [10^21] on a number is
    written with an exponent (["1e+21"]), which is no integer to it. *)
Definition isInt_min1 (n : Z) : bool :=
  (1 <=? n) && (n <? 10 ^ 21).

(** [validationResult(req).isEmpty()]: [contractId] is not empty and
    [batteriesShipped] passes [isInt({ min: 1 })]. *)
Definition validation_passes (req : Request) : bool :=
  negb (String.eqb (contractId req) "") && isInt_min1 (batteriesShipped req).

Definition toLowerCase_ascii (a : ascii) : ascii :=
  let n := nat_of_ascii a in
  if ((65 <=? n) && (n <=? 90))%nat then ascii_of_nat (n + 32) else a.

Fixpoint toLowerCase (s : string) : string :=
  match s with
  | EmptyString => EmptyString
  | String a rest => String (toLowerCase_ascii a) (toLowerCase rest)
  end.

(** [`Shipment would exceed threshold (${newTotal}/${contract.threshold})`] *)
Definition blockReason_of (newTotal threshold : Z) : string :=
  "Shipment would exceed threshold (" ++ pretty newTotal ++ "/" ++ pretty threshold ++ ")".

Definition notification_message (contractId : string) : string :=
  "âš  PBR Battery Shipment Limit Reached (Contract: " ++ contractId ++ ")".

(** [`shipment:${contractId}`] *)
Definition lockKey (contractId : string) : string := "shipment:" ++ contractId.

(** [new Shipment({ ... })]; the schema defaults fill [shipmentId] and
    [timestamp]. *)
Definition new_shipment (env : Env) (req : Request) (contract : Contract.t)
    (shipmentStatus : string) (blockReason : option string) : Shipment.t :=
  Shipment.mk (newShipmentId env) (contractId req) (Contract._id contract)
    (batteriesShipped req) (now env) shipmentStatus
    (username (user req)) (userId (user req)) blockReason (notes req).

(** The body of the [201] response. *)
Definition created (shipment : Shipment.t) (shipmentStatus : string) : Response :=
  mkResponse 201 None None
    (Some ("Shipment " ++ toLowerCase shipmentStatus ++ " successfully"))
    (Some shipment)
    (if String.eqb shipmentStatus "BLOCKED"
     then Some "Shipment blocked due to threshold exceeded" else None).

(** The part of the handler that runs with the lock held.  Between the
    [await] of the read and the write that follows, the writes of the other
    requests ([concurrent env]) reach the collections. *)
Definition with_lock (env : Env) (req : Request) (lockKey : string) : M unit :=
  contract <- findOne (contractId req) ;;
  match contract with
  | None => throw "CONTRACT_NOT_FOUND"
  | Some contract =>
      if Contract.isLocked contract then throw "CONTRACT_LOCKED" else
      let newTotal := Contract.batteriesShipped contract + batteriesShipped req in
      let wouldExceed := newTotal >? Contract.threshold contract in
      other_writers env ;;
      decided <-
        (if wouldExceed then
           let contract := Ledger.set_locked true (now env) contract in
           save_locked env contract ;;
           ret ("BLOCKED",
                Some (blockReason_of newTotal (Contract.threshold contract)),
                contract)
         else
           updatedContract <- shipBatteries env contract (batteriesShipped req) ;;
           match updatedContract with
           | None => throw "ATOMIC_UPDATE_FAILED"
           | Some _ => ret ("APPROVED", None, contract)
           end) ;;
      let '(shipmentStatus, blockReason, contract) := decided in
      let shipment := new_shipment env req contract shipmentStatus blockReason in
      save_shipment shipment ;;
      commitTransaction ;;
      releaseLock env lockKey ;;
      event Populate ;;
      (if String.eqb shipmentStatus "BLOCKED" then
         addNotification env contract (email (user req))
           (notification_message (contractId req)) "THRESHOLD_EXCEEDED" ;;
         try_catch (sendShipmentNotification env)
           (fun emailError => console_error "Email notification failed:" emailError)
       else ret tt) ;;
      emit "shipment:created" ;;
      (if String.eqb shipmentStatus "BLOCKED"
       then emit "contract:threshold_exceeded" else ret tt) ;;
      respond (created shipment shipmentStatus)
  end.

(** [router.post('/', requirePermission('create'), [...], async (req, res) => ...)] *)
Definition post (env : Env) (req : Request) : M unit :=
  startSession ;;
  try_finally
    (try_catch
       (if negb (validation_passes req) then
          respond (error_response 400 "Validation failed" None) ;; return_
        else
          startTransaction ;;
          let lockKey := lockKey (contractId req) in
          lockAcquired <- acquireLock env lockKey 10000 ;;
          if negb lockAcquired then
            abortTransaction ;;
            respond (error_response 423
                       "Another shipment is being processed for this contract. Please try again."
                       (Some "CONCURRENT_SHIPMENT")) ;;
            return_
          else
            try_finally (with_lock env req lockKey) (releaseLock env lockKey))
       (fun error =>
          abortTransaction ;;
          console_error "Create shipment error:" error ;;
          if String.eqb error "CONTRACT_NOT_FOUND" then
            respond (error_response 404 "Contract not found" (Some "CONTRACT_NOT_FOUND")) ;;
            return_
          else if String.eqb error "CONTRACT_LOCKED" then
            respond (error_response 423
                       "Contract is locked. No further shipments allowed."
                       (Some "CONTRACT_LOCKED")) ;;
            return_
          else
            respond (error_response 500 "Failed to create shipment" (Some "CREATE_ERROR"))))
    endSession.

(** *** Running requests *)

(** One request against the stores: what it leaves in them, its response
    and what it did. *)
Definition handle (env : Env) (req : Request) (l : Ledger.t) (r : Redis.t) : World.t :=
  snd (post env req (World.mk l NoTransaction r [] None)).

(** Requests handled one after the other, each with its response. *)
Fixpoint run (reqs : list (Env * Request)) (l : Ledger.t) (r : Redis.t)
  : Ledger.t * Redis.t * list (Request * option Response) :=
  match reqs with
  | [] => (l, r, [])
  | (env, req) :: rest =>
      let w := handle env req l r in
      let '(l', r', out) := run rest (ledger w) (redis w) in
      (l', r', (req, response w) :: out)
  end.

(** *** The branches of the handler

    The conditions the handler tests, in the order it tests them, name the
    branch a request takes: rejected by validation, turned away because the
    lock is held, contract not found, contract locked, conditional update
    without a match, blocked, approved; and blocked without an answer, when
    the notification cannot be saved after the commit and the [catch]
    fails in its turn on [abortTransaction]. *)

Inductive Path :=
| Rejected
| Contended
| NotFound
| Locked (c : Contract.t)
| Conflict (c : Contract.t)
| Blocked (c : Contract.t)
| Approved (c d : Contract.t)
| Unanswered (c : Contract.t).

Definition path (env : Env) (req : Request) (l : Ledger.t) (r : Redis.t) : Path :=
  if negb (validation_passes req) then Rejected
  else if negb (fst (LockService.acquireLock (now env) (rand env) r
                       (lockKey (contractId req)) 10000)) then Contended
  else
    match Ledger.findOne l (contractId req) with
    | None => NotFound
    | Some c =>
        if Contract.isLocked c then Locked c
        else if Contract.batteriesShipped c + batteriesShipped req >? Contract.threshold c
        then if blank (email (user req)) then Unanswered c else Blocked c
        else
          match Ledger.findOne (Ledger.replay l (concurrent env)) (contractId req) with
          | Some d =>
              if shipBatteries_filter c (batteriesShipped req) d
              then Approved c d else Conflict c
          | None => Conflict c
          end
    end.

(** The lock store once the handler has taken the lock, and once it has
    released it. *)
Definition taken (env : Env) (req : Request) (r : Redis.t) : Redis.t :=
  snd (LockService.acquireLock (now env) (rand env) r (lockKey (contractId req)) 10000).

Definition released (env : Env) (req : Request) (r : Redis.t) : Redis.t :=
  snd (LockService.releaseLock (now env) r (lockKey (contractId req))).

(** What the mailer leaves in the trace. *)
Definition mail_events (env : Env) : list Event :=
  if emailFails env
  then [SendShipmentNotification false;
        ConsoleError "Email sending failed:" mailer_error;
        ConsoleError "Email notification failed:" mailer_error]
  else [SendShipmentNotification true].

(** [String.prototype.includes] *)
Fixpoint includes (s sub : string) : bool :=
  if String.prefix sub s then true
  else match s with
       | EmptyString => false
       | String _ rest => includes rest sub
       end.

(** Does [a] occur in the trace, with no [b] at or before its first
    occurrence? *)
Fixpoint precedes (a b : Event -> bool) (tr : list Event) : bool :=
  match tr with
  | [] => false
  | e :: rest => if b e then false else if a e then true else precedes a b rest
  end.

(** The machine-readable code, the HTTP status and the block reason of a
    response, when there is one. *)
Definition code_of (resp : option Response) : option string :=
  match resp with
  | Some r => code r
  | None => None
  end.

Definition http_of (resp : option Response) : option Z :=
  match resp with
  | Some r => Some (http r)
  | None => None
  end.

Definition blockReason_in (resp : option Response) : option string :=
  match resp with
  | Some r =>
      match shipment r with
      | Some s => Shipment.blockReason s
      | None => None
      end
  | None => None
  end.

(** The status of the shipment a response carries. *)
Definition outcome (resp : option Response) : option string :=
  match resp with
  | Some r => Shipment.status <$> shipment r
  | None => None
  end.

Definition approved (resp : option Response) : bool :=
  match outcome resp with
  | Some s => String.eqb s "APPROVED"
  | None => false
  end.

(** The quantities of the approved requests for one contract, summed. *)
Fixpoint approved_total (key : string) (out : list (Request * option Response)) : Z :=
  match out with
  | [] => 0
  | (req, resp) :: rest =>
      (if String.eqb (contractId req) key && approved resp
       then batteriesShipped req else 0) + approved_total key rest
  end.

End Shipments.

(** ** Sample data

    The contracts of the demonstration data, a user, and the requests and
    circumstances the examples below run. *)

Module Sample.

Import Shipments.

Definition pbr1 : Contract.t :=
  Contract.mk 1 "PBR-2024-001" 100 85 120 false 0 [].
Definition pbr2 : Contract.t :=
  Contract.mk 2 "PBR-2024-002" 50 55 60 false 0 [].
Definition pbr3 : Contract.t :=
  Contract.mk 3 "PBR-2024-003" 75 90 90 true 0 [].

Definition ledger : Ledger.t :=
  Ledger.mk (<["PBR-2024-001" := pbr1]>
             (<["PBR-2024-002" := pbr2]>
              (<["PBR-2024-003" := pbr3]> ∅))) [].

Definition alice : User := mkUser "alice" "alice@example.com" 11.

(** Redis up and empty; Redis holding the lock of the second contract
    until [t = 15000]. *)
Definition idle : Redis.t := Redis.mk true ∅.
Definition busy : Redis.t :=
  Redis.mk true {[ "shipment:PBR-2024-002" := ("5000-0.731", 15000) ]}.

(** The clock reads 6000; the mailer works or throws; nobody else writes. *)
Definition calm : Env := mkEnv 6000 "0.25" "SHP-LX3K9-A1B2C" false [].
Definition no_mail : Env := mkEnv 6000 "0.25" "SHP-LX3K9-A1B2C" true [].

(** An administrator locks the second contract ([PATCH /:contractId/lock]
    takes no Redis lock) while the handler sits between its read and its
    write. *)
Definition locked_meanwhile : Env :=
  mkEnv 6000 "0.25" "SHP-LX3K9-A1B2C" false
    [Ledger.SetLocked "PBR-2024-002" true 5999;
     Ledger.PushNotification "PBR-2024-002"
       (Contract.mkNotification "root@example.com"
          "Contract manually locked by root" "CONTRACT_LOCKED" 5999) 5999].

Definition ship (contractId : string) (quantity : Z) : Request :=
  mkRequest contractId quantity None alice.

(** Two holders of one lock.  The first takes it at [t = 0] for ten seconds
    and is still at work when it expires; the second takes it at
    [t = 10001]. *)
Definition contended_key : string := "shipment:PBR-2024-001".
Definition first_holder : bool * Redis.t :=
  LockService.acquireLock 0 "0.11" idle contended_key 10000.
Definition second_holder : bool * Redis.t :=
  LockService.acquireLock 10001 "0.22" (snd first_holder) contended_key 10000.
(** The first holder finishes at [t = 10002] and releases. *)
Definition late_release : bool * Redis.t :=
  LockService.releaseLock 10002 (snd second_holder) contended_key.

(** A day of requests: two shipments on the first contract that fit, a
    shipment elsewhere, one that does not fit, one after the lock, and one
    that validation rejects. *)
Definition day : list (Env * Request) :=
  [ (calm, ship "PBR-2024-001" 10);
    (calm, ship "PBR-2024-001" 20);
    (calm, ship "PBR-2024-002" 5);
    (no_mail, ship "PBR-2024-001" 10);
    (calm, ship "PBR-2024-001" 1);
    (calm, ship "PBR-2024-001" 0) ].

End Sample.

(** ** The contracts route ([server/routes/contracts.js])

    [POST /] creates a contract, [PATCH /:contractId/lock] sets or toggles
    its lock, [GET /] lists a page of contracts.  The routes run outside any
    transaction: their writes reach the collections at once.  Of a contract
    they write [clientName], [priority], [createdBy] and [lastModifiedBy]
    too, fields that [Contract.t] does not carry. *)

Module Contracts.

(** What a route of this file answers: the HTTP status, the [code] of an
    error, the [message], the contract in the body, and what it emitted on
    the socket server. *)
Record Reply := mkReply {
  http : Z;
  code : option string;
  message : option string;
  contract : option Contract.t;
  emitted : list string
}.

(** [req.body] of [POST /].  [None] is a field that is absent or is not an
    integer. *)
Record CreateBody := mkCreateBody {
  contractId : string;
  deviceCount : option Z;
  threshold : option Z;
  priority : option string
}.

(** The character class [[A-Z0-9-]]. *)
Definition contractId_char (a : ascii) : bool :=
  let n := nat_of_ascii a in
  (((65 <=? n) && (n <=? 90)) || ((48 <=? n) && (n <=? 57)) || (n =? 45))%nat.

Fixpoint every_char (p : ascii -> bool) (s : string) : bool :=
  match s with
  | EmptyString => true
  | String a rest => p a && every_char p rest
  end.

(** [/^[A-Z0-9-]+$/.test(s)] *)
Definition matches_contractId (s : string) : bool :=
  negb (String.eqb s "") && every_char contractId_char s.

(** [isInt({ min: 1 })] on a field that may be missing. *)
Definition isInt_min1 (v : option Z) : bool :=
  match v with
  | Some n => Shipments.isInt_min1 n
  | None => false
  end.

(** [validationResult(req).isEmpty()] for [POST /]. *)
Definition create_valid (b : CreateBody) : bool :=
  negb (String.eqb (contractId b) "")
  && matches_contractId (contractId b)
  && isInt_min1 (deviceCount b)
  && isInt_min1 (threshold b).

(** What the schema still checks when the contract is saved, of the fields
    that the validators of the route let through unchecked: [priority] is
    one of the values of its [enum], or is left to its default. *)
Definition priority_enum : list string := ["LOW"; "MEDIUM"; "HIGH"; "CRITICAL"].

Definition schema_valid (b : CreateBody) : bool :=
  match priority b with
  | Some p => existsb (String.eqb p) priority_enum
  | None => true
  end.

(** [threshold || Math.floor(deviceCount * 1.2)] (0 is falsy). *)
Definition threshold_or_default (threshold deviceCount : Z) : Z :=
  if threshold =? 0 then Qfloor (inject_Z deviceCount * 1.2) else threshold.

(** [new Contract({ ... })] with the defaults of the schema:
    [batteriesShipped] 0, [isLocked] false, no notification. *)
Definition new_contract (now newId : Z) (contractId : string)
    (deviceCount threshold : Z) : Contract.t :=
  Contract.mk newId contractId deviceCount 0
    (threshold_or_default threshold deviceCount) false now [].

(** [router.post('/')]: [save()] throws when the schema rejects the
    document, and the insert fails on the unique index when the key is
    taken; the [catch] answers 500 to both. *)
Definition create (now newId : Z) (b : CreateBody) (l : Ledger.t) : Ledger.t * Reply :=
  if negb (create_valid b) then (l, mkReply 400 None None None [])
  else
    match Ledger.findOne l (contractId b) with
    | Some _ => (l, mkReply 409 (Some "CONTRACT_EXISTS") None None [])
    | None =>
        let contract :=
          new_contract now newId (contractId b)
            (default 0 (deviceCount b)) (default 0 (threshold b)) in
        if negb (schema_valid b)
        then (l, mkReply 500 (Some "CREATE_ERROR") None None [])
        else
          match Ledger.contracts l !! contractId b with
          | Some _ => (l, mkReply 500 (Some "CREATE_ERROR") None None [])
          | None =>
              (Ledger.mk (<[contractId b := contract]> (Ledger.contracts l))
                 (Ledger.shipments l),
               mkReply 201 None (Some "Contract created successfully")
                 (Some contract) ["contract:created"])
          end
    end.

(** [req.body] of [PATCH /:contractId/lock]; [isLocked] is [None] when the
    body leaves it [undefined]. *)
Record LockBody := mkLockBody {
  isLocked : option bool;
  reason : option string
}.

(** The message of the notification: the reason is appended when it is
    truthy. *)
Definition lock_message (locked : bool) (username : string) (reason : option string)
  : string :=
  if locked then
    "Contract manually locked by " ++ username
    ++ match reason with
       | Some why => if String.eqb why "" then "" else ": " ++ why
       | None => ""
       end
  else "Contract unlocked by " ++ username.

Definition lock_type (locked : bool) : string :=
  if locked then "CONTRACT_LOCKED" else "CONTRACT_UNLOCKED".

(** [router.patch('/:contractId/lock')]: [addNotification] saves the new
    [isLocked] together with the notification; the [save()] after it finds
    nothing to write but [lastUpdated]. *)
Definition toggleLock (now : Z) (user : Shipments.User) (contractId : string)
    (b : LockBody) (l : Ledger.t) : Ledger.t * Reply :=
  match Ledger.findOne l contractId with
  | None => (l, mkReply 404 (Some "CONTRACT_NOT_FOUND") None None [])
  | Some contract =>
      let locked :=
        match isLocked b with
        | Some v => v
        | None => negb (Contract.isLocked contract)
        end in
      let n :=
        Contract.mkNotification (Shipments.email user)
          (lock_message locked (Shipments.username user) (reason b))
          (lock_type locked) now in
      let key := Contract.contractId contract in
      (Ledger.apply (Ledger.apply l (Ledger.SetLocked key locked now))
         (Ledger.PushNotification key n now),
       mkReply 200 None
         (Some ("Contract " ++ (if locked then "locked" else "unlocked") ++ " successfully"))
         (Some (Ledger.push_notification n now (Ledger.set_locked locked now contract)))
         ["contract:lock_changed"])
  end.

(** *** The page of [GET /] *)

(** [parseInt(x) || d]: [NaN] ([None]) and 0 are falsy. *)
Definition or_default (x : option Z) (d : Z) : Z :=
  match x with
  | Some n => if n =? 0 then d else n
  | None => d
  end.

(** [Math.ceil(total / limit)] *)
Definition ceil_div (total limit : Z) : Z :=
  Qceiling (inject_Z total / inject_Z limit).

Record Pagination := mkPagination {
  page : Z;
  limit : Z;
  total : Z;
  pages : Z;
  hasNext : bool;
  hasPrev : bool
}.

(** The [$skip] and [$limit] stages on the documents that [$match],
    [$addFields] and [$sort] hand over.  MongoDB refuses a negative [$skip]
    and a [$limit] that is not positive ([None]). *)
Definition window {A} (docs : list A) (page limit : Z) : option (list A) :=
  let skip := (page - 1) * limit in
  if (skip <? 0) || (limit <=? 0) then None
  else Some (take (Z.to_nat limit) (drop (Z.to_nat skip) docs)).

(** [router.get('/')], from the sorted documents on: the page and the
    [pagination] object, or the 500 of the [catch]. *)
Definition list_page {A} (docs : list A) (query_page query_limit : option Z)
  : option (list A * Pagination) :=
  let page := or_default query_page 1 in
  let limit := or_default query_limit 10 in
  let total := Z.of_nat (length docs) in
  match window docs page limit with
  | None => None
  | Some contracts =>
      Some (contracts,
            mkPagination page limit total (ceil_div total limit)
              (page <? ceil_div total limit) (page >? 1))
  end.

(** The documents that [GET /?page=p] answers with, nothing when the route
    fails. *)
Definition page_docs {A} (docs : list A) (query_limit : option Z) (p : Z) : list A :=
  match list_page docs (Some p) query_limit with
  | Some (contracts, _) => contracts
  | None => []
  end.

(** *** Operations on the ledger, one after the other *)

Inductive Op :=
| Create (now newId : Z) (b : CreateBody)
| Ship (env : Shipments.Env) (req : Shipments.Request)
| Lock (now : Z) (user : Shipments.User) (contractId : string) (b : LockBody).

Definition step (s : Ledger.t * Redis.t) (op : Op) : Ledger.t * Redis.t :=
  match op with
  | Create now newId b => (fst (create now newId b (fst s)), snd s)
  | Ship env req =>
      let w := Shipments.handle env req (fst s) (snd s) in
      (World.ledger w, World.redis w)
  | Lock now user contractId b => (fst (toggleLock now user contractId b (fst s)), snd s)
  end.

Definition steps (ops : list Op) (s : Ledger.t * Redis.t) : Ledger.t * Redis.t :=
  fold_left step ops s.

(** A shipment request is serialised when nobody writes between its read
    and its write. *)
Definition serialised (op : Op) : Prop :=
  match op with
  | Ship env _ => Shipments.concurrent env = []
  | _ => True
  end.

(** Every contract of the ledger passes the schema validators and is
    within its threshold. *)
Definition within_threshold (l : Ledger.t) : Prop :=
  forall key c,
    Ledger.findOne l key = Some c ->
    Contract.valid c /\ Contract.batteriesShipped c <= Contract.threshold c.

(** The batteries of the shipments that the log holds as APPROVED for a
    contract. *)
Fixpoint approved_batteries (key : string) (log : list Shipment.t) : Z :=
  match log with
  | [] => 0
  | s :: rest =>
      (if String.eqb (Shipment.contractId s) key
          && String.eqb (Shipment.status s) "APPROVED"
       then Shipment.batteriesShipped s else 0)
      + approved_batteries key rest
  end.

(** The books balance: the counter of each contract is what the log holds
    as approved for it, and the log holds nothing as approved for a contract
    that cannot be found. *)
Definition balanced (l : Ledger.t) : Prop :=
  forall key,
    approved_batteries key (Ledger.shipments l)
    = match Ledger.findOne l key with
      | Some c => Contract.batteriesShipped c
      | None => 0
      end.

End Contracts.

(** ** The socket handlers ([server/socket/handlers.js])

    A connected socket, after the authentication middleware has filled in
    who it is, and the rooms that the handlers put it in or take it out of.
    A message is an event that the client sends; the handler answers with
    events of its own, to the sender ([socket.emit]) or to the other sockets
    of a room ([socket.to(room).emit]). *)

Module Socket.

Record t := mk {
  userId : string;
  userRole : string;
  username : string;
  rooms : gset string
}.

Inductive Target :=
| Sender
| Room (room : string).

Record Emitted := mkEmitted {
  target : Target;
  event : string;
  code : option string
}.

(** What the client sends.  An argument that is [undefined] or [null] is
    [None]. *)
Inductive Message :=
| JoinContract (contractId : option string)
| LeaveContract (contractId : option string)
| ShipmentRequest (contractId : option string) (batteriesShipped : option Z)
| MonitorContracts
| MonitorShipments
| AdminAction
| Ping.

(** A string in a condition: the empty string is falsy. *)
Definition truthy (x : option string) : bool :=
  match x with
  | Some s => negb (String.eqb s "")
  | None => false
  end.

Definition join (room : string) (s : t) : t :=
  mk (userId s) (userRole s) (username s) ({[ room ]} ∪ rooms s).

Definition leave (room : string) (s : t) : t :=
  mk (userId s) (userRole s) (username s) (rooms s ∖ {[ room ]}).

(** [io.on('connection')]: the personal room, the room of the role, and
    the admin room for an admin. *)
Definition connection (userId userRole username : string) : t :=
  let s := join ("user:" ++ userId) (mk userId userRole username ∅) in
  let s := join ("role:" ++ userRole) s in
  if String.eqb userRole "admin" then join "admin" s else s.

(** [!contractId || !batteriesShipped || batteriesShipped <= 0] *)
Definition invalid_shipment_data (contractId : option string)
    (batteriesShipped : option Z) : bool :=
  negb (truthy contractId)
  || match batteriesShipped with
     | Some n => (n =? 0) || (n <=? 0)
     | None => true
     end.

(** One handler call: the socket after it, and what was emitted. *)
Definition on (s : t) (m : Message) : t * list Emitted :=
  match m with
  | JoinContract contractId =>
      if truthy contractId
      then (join ("contract:" ++ default "" contractId) s, [])
      else (s, [])
  | LeaveContract contractId =>
      if truthy contractId
      then (leave ("contract:" ++ default "" contractId) s, [])
      else (s, [])
  | ShipmentRequest contractId batteriesShipped =>
      if invalid_shipment_data contractId batteriesShipped
      then (s, [mkEmitted Sender "shipment:error" (Some "INVALID_DATA")])
      else (s, [mkEmitted (Room ("contract:" ++ default "" contractId))
                  "shipment:processing" None])
  | MonitorContracts => (join "contract:monitor" s, [])
  | MonitorShipments => (join "shipment:monitor" s, [])
  | AdminAction =>
      if negb (String.eqb (userRole s) "admin")
      then (s, [mkEmitted Sender "error" (Some "PERMISSION_DENIED")])
      else (s, [mkEmitted (Room "admin") "admin:action_performed" None])
  | Ping => (s, [mkEmitted Sender "pong" None])
  end.

(** The messages of a client, handled in the order they arrive. *)
Fixpoint run (s : t) (ms : list Message) : t * list Emitted :=
  match ms with
  | [] => (s, [])
  | m :: rest =>
      let (s1, out1) := on s m in
      let (s2, out2) := run s1 rest in
      (s2, (out1 ++ out2)%list)
  end.

(** The rooms that tell who a socket is: the admin room, the room of its
    role and its personal room. *)
Definition own_rooms (s : t) : Prop :=
  ("admin" ∈ rooms s <-> userRole s = "admin")
  /\ (forall role, "role:" ++ role ∈ rooms s <-> role = userRole s)
  /\ (forall user, "user:" ++ user ∈ rooms s <-> user = userId s).

End Socket.

(** ** The dashboard ([src/pages/Index.tsx])

    The progress bar of a contract.  The dashboard divides without a guard,
    so the quotient can be infinite or not a number. *)

Module Dashboard.

Inductive Num :=
| Finite (q : Q)
| PosInfinity
| NegInfinity
| NaN.

(** [shipped / threshold] on integers. *)
Definition div (shipped threshold : Z) : Num :=
  if threshold =? 0 then
    if shipped =? 0 then NaN
    else if 0 <? shipped then PosInfinity else NegInfinity
  else Finite (inject_Z shipped / inject_Z threshold)%Q.

(** [x * 100] *)
Definition times100 (x : Num) : Num :=
  match x with
  | Finite q => Finite (q * 100)%Q
  | other => other
  end.

(** [Math.min(x, 100)] *)
Definition min100 (x : Num) : Num :=
  match x with
  | Finite q => Finite (Qmin q 100)
  | PosInfinity => Finite 100
  | NegInfinity => NegInfinity
  | NaN => NaN
  end.

(** [x >= k]; a comparison with [NaN] is false. *)
Definition geq (x : Num) (k : Q) : bool :=
  match x with
  | Finite q => Qle_bool k q
  | PosInfinity => true
  | NegInfinity => false
  | NaN => false
  end.

Definition getProgressPercentage (shipped threshold : Z) : Num :=
  min100 (times100 (div shipped threshold)).

Definition getProgressColor (percentage : Num) : string :=
  if geq percentage 100 then "bg-red-500"
  else if geq percentage 80 then "bg-yellow-500"
  else "bg-green-500".


End Dashboard.

(** ** More sample data *)

Module Scenario.

Import Shipments.

(** A later clock reading for a second request. *)
Definition later : Env := mkEnv 7000 "0.75" "SHP-LX3KA-C3D4E" false [].

(** Requests that all name the locked third contract or are turned away. *)
Definition knocking : list (Env * Request) :=
  [ (Sample.calm, Sample.ship "PBR-2024-003" 1);
    (Sample.calm, Sample.ship "PBR-2024-003" 90);
    (later, Sample.ship "PBR-2024-002" 2);
    (later, Sample.ship "PBR-2024-003" 0) ].

(** The life of a ledger that starts empty: two contracts are created, a
    third creation is refused, shipments are approved and blocked, an
    administrator unlocks, and more is shipped. *)
Definition bob : User := mkUser "bob" "bob@example.com" 12.

(** A user whose account holds no email. *)
Definition carol : User := mkUser "carol" "" 13.

(** The circumstances of a request at time [t] whose shipment gets the id
    [id]: the mailer throws, nobody else writes. *)
Definition at_ (t : Z) (id : string) : Env := mkEnv t "0.5" id true [].

Definition history : list Contracts.Op :=
  [ Contracts.Create 10 1 (Contracts.mkCreateBody "PBR-2025-A" (Some 10) (Some 12) None);
    Contracts.Create 20 2 (Contracts.mkCreateBody "PBR-2025-B" (Some 5) (Some 6) (Some "HIGH"));
    Contracts.Create 30 3 (Contracts.mkCreateBody "pbr-2025-c" (Some 5) (Some 6) None);
    Contracts.Ship (at_ 1000 "SHP-A1") (mkRequest "PBR-2025-A" 7 None Sample.alice);
    Contracts.Ship (at_ 2000 "SHP-A2") (mkRequest "PBR-2025-A" 6 None bob);
    Contracts.Ship (at_ 3000 "SHP-B1") (mkRequest "PBR-2025-B" 6 None bob);
    Contracts.Lock 8000 bob "PBR-2025-A" (Contracts.mkLockBody (Some false) None);
    Contracts.Ship (at_ 9000 "SHP-A3") (mkRequest "PBR-2025-A" 5 None Sample.alice) ].

Definition empty_ledger : Ledger.t := Ledger.mk ∅ [].

End Scenario.

(* ================================================================== *)
(** * Theorems *)

(** ** Rounding to binary64 *)

Section Rounding.

Import Binary64.

Lemma rne_bounds x : Qfloor x <= rne x <= Qfloor x + 1.
Proof.
  unfold rne. destruct (Qcompare _ _); [destruct (Z.even _)| |]; lia.
Qed.

Lemma rne_mono x y : (x <= y)%Q -> rne x <= rne y.
Proof.
  intros Hxy. pose proof (Qfloor_resp_le x y Hxy) as Hf.
  pose proof (rne_bounds x). pose proof (rne_bounds y).
  destruct (Z.eq_dec (Qfloor x) (Qfloor y)) as [E|E]; [|lia].
  unfold rne in *. rewrite E in *.
  destruct (Qcompare_spec (x - inject_Z (Qfloor y)) (1 # 2)) as [Hx|Hx|Hx],
           (Qcompare_spec (y - inject_Z (Qfloor y)) (1 # 2)) as [Hy|Hy|Hy];
    try destruct (Z.even (Qfloor y)); try lia; exfalso; lra.
Qed.

Lemma rne_Z n : rne (inject_Z n) = n.
Proof.
  unfold rne. rewrite Qfloor_Z.
  destruct (Qcompare_spec (inject_Z n - inject_Z n) (1 # 2)) as [H|H|H];
    [exfalso; lra|reflexivity|exfalso; lra].
Qed.

Lemma pow2_pos e : (0 < 2 ^ e)%Q.
Proof. apply Qpower_0_lt. reflexivity. Qed.

Lemma pow2_plus x y : (2 ^ (x + y) == 2 ^ x * 2 ^ y)%Q.
Proof. apply Qpower_plus. discriminate. Qed.

Lemma pow2_succ x : (2 ^ (x + 1) == 2 * 2 ^ x)%Q.
Proof. rewrite pow2_plus. change (2 ^ 1)%Q with 2%Q. ring. Qed.

Lemma pow2_Z a : 0 <= a -> (inject_Z (2 ^ a) == 2 ^ a)%Q.
Proof. intros H. rewrite Zpower_Qpower by exact H. reflexivity. Qed.

Lemma ilog2_spec q : (0 < q)%Q -> (2 ^ ilog2 q <= q /\ q < 2 ^ (ilog2 q + 1))%Q.
Proof.
  intros Hq. destruct q as [n d].
  assert (Hn : 0 < n) by (unfold Qlt in Hq; cbn in Hq; lia).
  unfold ilog2. cbn [Qnum Qden].
  set (a := Z.log2 n). set (b := Z.log2 (Zpos d)).
  pose proof (Z.log2_spec n Hn) as [Ha1 Ha2]. fold a in Ha1, Ha2.
  pose proof (Z.log2_spec (Zpos d) ltac:(lia)) as [Hb1 Hb2]. fold b in Hb1, Hb2.
  pose proof (Z.log2_nonneg n) as Ha0. fold a in Ha0.
  pose proof (Z.log2_nonneg (Zpos d)) as Hb0. fold b in Hb0.
  assert (QA1 : (2 ^ a <= inject_Z n)%Q) by (rewrite <- pow2_Z by lia; rewrite <- Zle_Qle; lia).
  assert (QA2 : (inject_Z n < 2 * 2 ^ a)%Q).
  { rewrite <- pow2_succ, <- pow2_Z by lia. rewrite <- Zlt_Qlt. replace (a + 1) with (Z.succ a) by lia. exact Ha2. }
  assert (QB1 : (2 ^ b <= inject_Z (Zpos d))%Q) by (rewrite <- pow2_Z by lia; rewrite <- Zle_Qle; lia).
  assert (QB2 : (inject_Z (Zpos d) < 2 * 2 ^ b)%Q).
  { rewrite <- pow2_succ, <- pow2_Z by lia. rewrite <- Zlt_Qlt. replace (b + 1) with (Z.succ b) by lia. exact Hb2. }
  assert (EK : (2 ^ (a - b) * 2 ^ b == 2 ^ a)%Q).
  { rewrite <- pow2_plus. replace (a - b + b) with a by lia. reflexivity. }
  pose proof (pow2_pos (a - b)) as HK. pose proof (pow2_pos b) as HB.
  assert (EQ : ((n # d) * inject_Z (Zpos d) == inject_Z n)%Q).
  { unfold Qeq, Qmult, inject_Z. cbn. lia. }
  assert (HD : (0 < inject_Z (Zpos d))%Q) by (rewrite <- (Zlt_Qlt 0); lia).
  set (K := (2 ^ (a - b))%Q) in *. set (B := (2 ^ b)%Q) in *. set (A := (2 ^ a)%Q) in *.
  set (D := inject_Z (Zpos d)) in *. set (N := inject_Z n) in *. set (q := n # d) in *.
  assert (U : (q < 2 * K)%Q).
  { apply Qnot_le_lt. intros C.
    assert ((2 * K * D <= q * D)%Q) by (apply Qmult_le_compat_r; [exact C|lra]).
    assert ((K * B <= K * D)%Q) by (apply Qmult_le_l; [exact HK|exact QB1]).
    lra. }
  assert (L : (K * (1 # 2) < q)%Q).
  { apply Qnot_le_lt. intros C.
    assert ((q * D <= K * (1 # 2) * D)%Q) by (apply Qmult_le_compat_r; [exact C|lra]).
    assert ((K * D < K * (2 * B))%Q) by (apply Qmult_lt_l; [exact HK|exact QB2]).
    lra. }
  destruct (Qle_bool K q) eqn:T.
  - apply Qle_bool_iff in T. split; [exact T|]. rewrite pow2_succ. exact U.
  - assert (T' : (q < K)%Q).
    { apply Qnot_le_lt. intros C. apply Qle_bool_iff in C. congruence. }
    replace (a - b - 1 + 1) with (a - b) by lia. fold K. split; [|exact T'].
    assert (E1 : (2 ^ (a - b - 1) * 2 == K)%Q).
    { unfold K. replace (a - b) with (a - b - 1 + 1) at 2 by lia. rewrite pow2_succ. ring. }
    lra.
Qed.

Lemma scaled_bounds x :
  (0 < x)%Q ->
  (inject_Z (2 ^ 52) <= x / 2 ^ (ilog2 x - 52) /\ x / 2 ^ (ilog2 x - 52) <= inject_Z (2 ^ 53))%Q.
Proof.
  intros Hx. destruct (ilog2_spec x Hx) as [L U].
  pose proof (pow2_pos (ilog2 x - 52)) as He.
  assert (E1 : (2 ^ ilog2 x == inject_Z (2 ^ 52) * 2 ^ (ilog2 x - 52))%Q).
  { rewrite pow2_Z by lia. rewrite <- pow2_plus.
    replace (52 + (ilog2 x - 52)) with (ilog2 x) by lia. reflexivity. }
  assert (E2 : (2 ^ (ilog2 x + 1) == inject_Z (2 ^ 53) * 2 ^ (ilog2 x - 52))%Q).
  { rewrite pow2_Z by lia. rewrite <- pow2_plus.
    replace (53 + (ilog2 x - 52)) with (ilog2 x + 1) by lia. reflexivity. }
  split.
  - apply Qle_shift_div_l; [exact He|]. rewrite <- E1. exact L.
  - apply Qle_shift_div_r; [exact He|]. rewrite <- E2. apply Qlt_le_weak. exact U.
Qed.

Lemma round_pos_bounds x :
  (0 < x)%Q -> (2 ^ ilog2 x <= round_pos x /\ round_pos x <= 2 ^ (ilog2 x + 1))%Q.
Proof.
  intros Hx. destruct (scaled_bounds x Hx) as [L U].
  pose proof (pow2_pos (ilog2 x - 52)) as He.
  apply rne_mono in L. apply rne_mono in U. rewrite rne_Z in L, U.
  unfold round_pos. cbv zeta.
  assert (E1 : (2 ^ ilog2 x == inject_Z (2 ^ 52) * 2 ^ (ilog2 x - 52))%Q).
  { rewrite pow2_Z by lia. rewrite <- pow2_plus.
    replace (52 + (ilog2 x - 52)) with (ilog2 x) by lia. reflexivity. }
  assert (E2 : (2 ^ (ilog2 x + 1) == inject_Z (2 ^ 53) * 2 ^ (ilog2 x - 52))%Q).
  { rewrite pow2_Z by lia. rewrite <- pow2_plus.
    replace (53 + (ilog2 x - 52)) with (ilog2 x + 1) by lia. reflexivity. }
  rewrite E1, E2. split; apply Qmult_le_compat_r; try (apply Qlt_le_weak; exact He);
    rewrite <- Zle_Qle; assumption.
Qed.

Lemma ilog2_mono x y : (0 < x)%Q -> (x <= y)%Q -> ilog2 x <= ilog2 y.
Proof.
  intros Hx Hxy. assert (Hy : (0 < y)%Q) by lra.
  destruct (ilog2_spec x Hx) as [Lx _]. destruct (ilog2_spec y Hy) as [_ Uy].
  destruct (Z_le_gt_dec (ilog2 x) (ilog2 y)) as [|G]; [assumption|exfalso].
  assert (P : (2 ^ (ilog2 y + 1) <= 2 ^ ilog2 x)%Q)
    by (apply Qpower_le_compat_l; [lia|discriminate]).
  lra.
Qed.

Lemma round_pos_mono x y : (0 < x)%Q -> (x <= y)%Q -> (round_pos x <= round_pos y)%Q.
Proof.
  intros Hx Hxy. assert (Hy : (0 < y)%Q) by lra.
  pose proof (ilog2_mono x y Hx Hxy) as Hl.
  destruct (Z.eq_dec (ilog2 x) (ilog2 y)) as [E|E].
  - unfold round_pos. cbv zeta. rewrite E.
    pose proof (pow2_pos (ilog2 y - 52)) as He.
    apply Qmult_le_compat_r; [|apply Qlt_le_weak; exact He].
    rewrite <- Zle_Qle. apply rne_mono.
    apply Qle_shift_div_l; [exact He|].
    assert (Ed : (x / 2 ^ (ilog2 y - 52) * 2 ^ (ilog2 y - 52) == x)%Q)
      by (field; intros C; rewrite C in He; discriminate).
    rewrite Ed. exact Hxy.
  - destruct (round_pos_bounds x Hx) as [_ U]. destruct (round_pos_bounds y Hy) as [L _].
    assert (P : (2 ^ (ilog2 x + 1) <= 2 ^ ilog2 y)%Q)
      by (apply Qpower_le_compat_l; [lia|discriminate]).
    lra.
Qed.

Lemma round_nonneg y : (0 <= y)%Q -> (0 <= round y)%Q.
Proof.
  intros Hy. unfold round.
  destruct (Qcompare_spec y 0) as [E|E|E]; [lra|lra|].
  destruct (round_pos_bounds y E) as [L _]. pose proof (pow2_pos (ilog2 y)). lra.
Qed.

Lemma round_mono x y : (0 <= x)%Q -> (x <= y)%Q -> (round x <= round y)%Q.
Proof.
  intros Hx Hxy. unfold round at 1.
  destruct (Qcompare_spec x 0) as [E|E|E]; [apply round_nonneg; lra|lra|].
  unfold round. destruct (Qcompare_spec y 0) as [F|F|F]; [lra|lra|].
  apply round_pos_mono; assumption.
Qed.

End Rounding.

(** ** The derived status *)

Section Status.

Import Contract.

Lemma percentage_geq (c : Contract.t) (k : Z) :
  0 < threshold c ->
  geq (thresholdPercentage c) (inject_Z k)
  = (k * threshold c <=? 100 * batteriesShipped c).
Proof.
  intros Hth. unfold geq, thresholdPercentage.
  destruct (Z.ltb_spec 0 (threshold c)) as [_|]; [|lia].
  apply eq_true_iff_eq. rewrite Qle_bool_iff, Z.leb_le.
  assert (Hq : (0 < inject_Z (threshold c))%Q)
    by (rewrite <- (Zlt_Qlt 0); exact Hth).
  assert (Hne : ~ (inject_Z (threshold c) == 0)%Q)
    by (intros E; rewrite E in Hq; discriminate).
  assert (Heq : (inject_Z (batteriesShipped c) / inject_Z (threshold c) * 100
                 == inject_Z (100 * batteriesShipped c) / inject_Z (threshold c))%Q).
  { rewrite inject_Z_mult. field. exact Hne. }
  rewrite Heq.
  rewrite <- (Qmult_le_r _ _ (inject_Z (threshold c)) Hq).
  assert (Hc : (inject_Z (100 * batteriesShipped c) / inject_Z (threshold c)
                * inject_Z (threshold c) == inject_Z (100 * batteriesShipped c))%Q)
    by (field; exact Hne).
  rewrite Hc, <- inject_Z_mult, <- Zle_Qle. reflexivity.
Qed.

Lemma ratio_geq (c : Contract.t) (k m : Z) :
  0 < threshold c -> 0 < m ->
  geq (ratio c) (inject_Z k / inject_Z m)
  = (k * threshold c <=? m * batteriesShipped c).
Proof.
  intros Hth Hm. unfold geq, ratio.
  apply eq_true_iff_eq. rewrite Qle_bool_iff, Z.leb_le.
  assert (Hq : (0 < inject_Z (threshold c))%Q)
    by (rewrite <- (Zlt_Qlt 0); exact Hth).
  assert (Hqm : (0 < inject_Z m)%Q)
    by (rewrite <- (Zlt_Qlt 0); exact Hm).
  assert (Hne : ~ (inject_Z (threshold c) == 0)%Q)
    by (intros E; rewrite E in Hq; discriminate).
  assert (Hnm : ~ (inject_Z m == 0)%Q)
    by (intros E; rewrite E in Hqm; discriminate).
  rewrite <- (Qmult_le_r _ _ (inject_Z (threshold c)) Hq).
  rewrite <- (Qmult_le_r _ _ (inject_Z m) Hqm).
  assert (Hl : (inject_Z k / inject_Z m * inject_Z (threshold c) * inject_Z m
                == inject_Z (k * threshold c))%Q)
    by (rewrite inject_Z_mult; field; exact Hnm).
  assert (Hr : (inject_Z (batteriesShipped c) / inject_Z (threshold c)
                * inject_Z (threshold c) * inject_Z m
                == inject_Z (m * batteriesShipped c))%Q)
    by (rewrite inject_Z_mult; field; exact Hne).
  rewrite Hl, Hr, <- Zle_Qle. reflexivity.
Qed.

(** In integers: EXCEEDED from [threshold <= batteriesShipped], WARNING
    from [4 * threshold <= 5 * batteriesShipped]. *)
Lemma status_integers (c : Contract.t) :
  0 < threshold c ->
  status c =
    if isLocked c then "LOCKED"
    else if threshold c <=? batteriesShipped c then "EXCEEDED"
    else if 4 * threshold c <=? 5 * batteriesShipped c then "WARNING"
    else "ACTIVE".
Proof.
  intros Hth. unfold status.
  change 100%Q with (inject_Z 100). change 80%Q with (inject_Z 80).
  rewrite !percentage_geq by exact Hth.
  destruct (isLocked c); [reflexivity|].
  destruct (Z.leb_spec (100 * threshold c) (100 * batteriesShipped c)),
           (Z.leb_spec (threshold c) (batteriesShipped c)); try lia; [reflexivity|].
  destruct (Z.leb_spec (80 * threshold c) (100 * batteriesShipped c)),
           (Z.leb_spec (4 * threshold c) (5 * batteriesShipped c)); try lia; reflexivity.
Qed.

(** On the exact percentage the status is the cascade over the exact
    quotient. *)
Lemma status_of_exact_percentage (c : Contract.t) :
  Contract.valid c ->
  status c = status_by_ratio c.
Proof.
  intros (_ & _ & Hth).
  rewrite status_integers by lia. unfold status_by_ratio.
  change 1%Q with (inject_Z 1 / inject_Z 1)%Q.
  change 0.8%Q with (inject_Z 8 / inject_Z 10)%Q.
  rewrite !ratio_geq by lia.
  destruct (isLocked c); [reflexivity|].
  destruct (Z.leb_spec (1 * threshold c) (1 * batteriesShipped c)),
           (Z.leb_spec (threshold c) (batteriesShipped c)); try lia; [reflexivity|].
  destruct (Z.leb_spec (8 * threshold c) (10 * batteriesShipped c)),
           (Z.leb_spec (4 * threshold c) (5 * batteriesShipped c)); try lia; reflexivity.
Qed.

(** The quotient of the counters against a bound [n / d]. *)
Lemma quotient_le (b t n : Z) (d : positive) :
  0 < t -> b * Zpos d <= n * t -> (inject_Z b / inject_Z t <= n # d)%Q.
Proof.
  intros Ht H. apply Qle_shift_div_r; [rewrite <- (Zlt_Qlt 0); exact Ht|].
  unfold Qle, Qmult, inject_Z. cbn [Qnum Qden]. lia.
Qed.

Lemma quotient_ge (b t n : Z) (d : positive) :
  0 < t -> n * t <= b * Zpos d -> (n # d <= inject_Z b / inject_Z t)%Q.
Proof.
  intros Ht H. apply Qle_shift_div_l; [rewrite <- (Zlt_Qlt 0); exact Ht|].
  unfold Qle, Qmult, inject_Z. cbn [Qnum Qden]. lia.
Qed.

(** Rounding twice keeps the order: the percentage of a larger quotient is
    not smaller. *)
Lemma percentage_mono (x y : Q) :
  (0 <= x)%Q -> (x <= y)%Q ->
  (Binary64.round (Binary64.round x * 100) <= Binary64.round (Binary64.round y * 100))%Q.
Proof.
  intros Hx Hxy.
  pose proof (round_nonneg x Hx) as H0.
  pose proof (round_mono x y Hx Hxy) as H1.
  apply round_mono; lra.
Qed.

(** Rounding does not move the EXCEEDED limit. *)
Lemma percentage64_geq_100 (c : Contract.t) :
  Contract.valid c -> threshold c < 2 ^ 53 ->
  geq (thresholdPercentage64 c) 100 = (threshold c <=? batteriesShipped c).
Proof.
  intros (_ & Hb & Ht) Hlt. unfold geq, thresholdPercentage64.
  destruct (Z.ltb_spec 0 (threshold c)) as [_|]; [|lia].
  assert (H0 : (0 <= inject_Z (batteriesShipped c) / inject_Z (threshold c))%Q).
  { apply (quotient_ge _ _ 0 1); lia. }
  destruct (Z.leb_spec (threshold c) (batteriesShipped c)) as [Hge|Hlo].
  - apply Qle_bool_iff.
    assert (H1 : (1 <= inject_Z (batteriesShipped c) / inject_Z (threshold c))%Q).
    { apply (quotient_ge _ _ 1 1); lia. }
    pose proof (percentage_mono 1 _ ltac:(lra) H1) as H.
    assert (E : (100 <= Binary64.round (Binary64.round 1 * 100))%Q)
      by (apply Qle_bool_iff; vm_compute; reflexivity).
    lra.
  - apply not_true_is_false. intros C. apply Qle_bool_iff in C.
    assert (H1 : (inject_Z (batteriesShipped c) / inject_Z (threshold c)
                  <= 9007199254740991 # 9007199254740992)%Q).
    { apply quotient_le; lia. }
    pose proof (percentage_mono _ _ H0 H1) as H.
    assert (E : (Binary64.round (Binary64.round (9007199254740991 # 9007199254740992) * 100)
                 < 100)%Q)
      by (apply Qlt_alt; vm_compute; reflexivity).
    lra.
Qed.

(** A quotient of 0.8 or more has a percentage of 80 or more. *)
Lemma percentage64_geq_80 (c : Contract.t) :
  Contract.valid c -> 4 * threshold c <= 5 * batteriesShipped c ->
  geq (thresholdPercentage64 c) 80 = true.
Proof.
  intros (_ & Hb & Ht) Hge. unfold geq, thresholdPercentage64.
  destruct (Z.ltb_spec 0 (threshold c)) as [_|]; [|lia].
  apply Qle_bool_iff.
  assert (H1 : (4 # 5 <= inject_Z (batteriesShipped c) / inject_Z (threshold c))%Q).
  { apply quotient_ge; lia. }
  pose proof (percentage_mono (4 # 5) _ ltac:(lra) H1) as H.
  assert (E : (80 <= Binary64.round (Binary64.round (4 # 5) * 100))%Q)
    by (apply Qle_bool_iff; vm_compute; reflexivity).
  lra.
Qed.

(** A quotient of 0.7999999999999998 or less has a percentage under 80. *)
Lemma percentage64_lt_80 (c : Contract.t) :
  Contract.valid c ->
  10 ^ 16 * batteriesShipped c <= 7999999999999998 * threshold c ->
  geq (thresholdPercentage64 c) 80 = false.
Proof.
  intros (_ & Hb & Ht) Hle. unfold geq, thresholdPercentage64.
  destruct (Z.ltb_spec 0 (threshold c)) as [_|]; [|lia].
  apply not_true_is_false. intros C. apply Qle_bool_iff in C.
  assert (H0 : (0 <= inject_Z (batteriesShipped c) / inject_Z (threshold c))%Q).
  { apply (quotient_ge _ _ 0 1); lia. }
  assert (H1 : (inject_Z (batteriesShipped c) / inject_Z (threshold c)
                <= 7999999999999998 # 10000000000000000)%Q).
  { apply quotient_le; [lia|]. change (Zpos 10000000000000000) with (10 ^ 16). lia. }
  pose proof (percentage_mono _ _ H0 H1) as H.
  assert (E : (Binary64.round
                 (Binary64.round (7999999999999998 # 10000000000000000) * 100) < 80)%Q)
    by (apply Qlt_alt; vm_compute; reflexivity).
  lra.
Qed.

(** The two models of the status agree on LOCKED and on EXCEEDED: what is
    proved of these on the exact percentage holds of the percentage that
    JavaScript computes. *)
Lemma status64_agrees_on_EXCEEDED (c : Contract.t) :
  Contract.valid c -> threshold c < 2 ^ 53 ->
  (status64 c = "LOCKED" <-> status c = "LOCKED")
  /\ (status64 c = "EXCEEDED" <-> status c = "EXCEEDED").
Proof.
  intros Hv Ht. pose proof Hv as (_ & _ & Ht1).
  rewrite status_integers by lia. unfold status64.
  rewrite (percentage64_geq_100 c Hv Ht).
  destruct (isLocked c); [split; split; intros; (reflexivity || discriminate)|].
  destruct (threshold c <=? batteriesShipped c);
    [split; split; intros; (reflexivity || discriminate)|].
  destruct (geq (thresholdPercentage64 c) 80),
           (4 * threshold c <=? 5 * batteriesShipped c);
    split; split; intros; discriminate.
Qed.

(** C9, as the code has it.  For a contract that passes the schema
    validators and whose counters are numbers that JavaScript holds
    exactly, the [status] virtual, computed in binary64, is LOCKED if
    [isLocked]; otherwise EXCEEDED exactly if
    [batteriesShipped / threshold >= 1]; otherwise WARNING if the quotient
    is [>= 0.8] and ACTIVE if it is [<= 0.7999999999999998].  This is the
    cascade of the specification for every contract whose quotient is not
    strictly between these two numbers. *)
Theorem status64_follows_ratio (c : Contract.t) :
  Contract.valid c ->
  exact_number (batteriesShipped c) ->
  exact_number (threshold c) ->
  isLocked c = true \/ (0.8 <= ratio c)%Q \/ (ratio c <= 0.7999999999999998)%Q ->
  status64 c = status_by_ratio c.
Proof.
  intros Hv Hb Ht Hout. pose proof Hv as (_ & Hb0 & Ht1).
  rewrite <- (status_of_exact_percentage c Hv), status_integers by lia.
  unfold status64. destruct (isLocked c) eqn:Hl; [reflexivity|].
  rewrite (percentage64_geq_100 c Hv) by (unfold exact_number in Ht; lia).
  destruct (Z.leb_spec (threshold c) (batteriesShipped c)) as [|Hlo]; [reflexivity|].
  destruct Hout as [Hout|[Hout|Hout]]; [discriminate| |].
  - apply Qle_bool_iff in Hout. fold (geq (ratio c) 0.8) in Hout.
    change 0.8%Q with (inject_Z 8 / inject_Z 10)%Q in Hout.
    rewrite ratio_geq in Hout by lia. apply Z.leb_le in Hout.
    rewrite percentage64_geq_80 by (assumption || lia).
    destruct (Z.leb_spec (4 * threshold c) (5 * batteriesShipped c)); [reflexivity|lia].
  - assert (Hz : 10000000000000000 * batteriesShipped c
                 <= 7999999999999998 * threshold c).
    { destruct (Z.le_gt_cases (10000000000000000 * batteriesShipped c)
                  (7999999999999998 * threshold c)) as [|Hgt]; [assumption|exfalso].
      assert (Hq : (7999999999999998 # 10000000000000000 < ratio c)%Q).
      { unfold ratio. apply Qlt_shift_div_l; [rewrite <- (Zlt_Qlt 0); lia|].
        unfold Qlt, Qmult, inject_Z. cbn [Qnum Qden]. lia. }
      change 0.7999999999999998%Q with (7999999999999998 # 10000000000000000) in Hout.
      lra. }
    rewrite percentage64_lt_80 by (assumption || exact Hz).
    destruct (Z.leb_spec (4 * threshold c) (5 * batteriesShipped c)); [lia|reflexivity].
Qed.

Lemma status64_follows_ratio_witness :
  status64 Sample.pbr1 = status_by_ratio Sample.pbr1.
Proof.
  apply (status64_follows_ratio Sample.pbr1).
  - unfold Contract.valid. cbn. lia.
  - unfold exact_number. cbn. lia.
  - unfold exact_number. cbn. lia.
  - right. right. vm_compute. discriminate.
Defined.

(** C9, where the code leaves the specification.  A contract with
    7199999999999999 of 9000000000000000 shipped has a quotient under 0.8,
    so the cascade of the specification says ACTIVE; the percentage that
    JavaScript computes for it rounds up to 80, and the virtual says
    WARNING. *)
Lemma status_rounds_up_to_WARNING :
  let c := Contract.mk 9 "PBR-2024-009" 7500000000000000
             7199999999999999 9000000000000000 false 0 [] in
  Contract.valid c
  /\ exact_number (batteriesShipped c)
  /\ exact_number (threshold c)
  /\ (ratio c < 0.8)%Q
  /\ (thresholdPercentage64 c == 80)%Q
  /\ status64 c = "WARNING"
  /\ status_by_ratio c = "ACTIVE".
Proof.
  cbv zeta. unfold Contract.valid, exact_number.
  cbn [deviceCount batteriesShipped threshold].
  repeat split; try lia; try reflexivity; vm_compute; reflexivity.
Qed.

End Status.

(** ** The aggregation pipeline against the model's virtuals *)

Section Pipeline.

Import Contract Aggregation.

Lemma threshold_not_zero (c : Contract.t) :
  1 <= threshold c -> Qeq_bool (inject_Z (threshold c)) 0 = false.
Proof.
  intros Hth. destruct (Qeq_bool _ _) eqn:E; [|reflexivity].
  apply Qeq_bool_iff in E. unfold Qeq in E. simpl in E. lia.
Qed.

Lemma eval_thresholdPercentage (c : Contract.t) :
  1 <= threshold c ->
  eval (doc_of c) thresholdPercentageExpr = Some (VNum (thresholdPercentage c)).
Proof.
  intros Hth. unfold thresholdPercentage.
  destruct (Z.ltb_spec 0 (threshold c)) as [_|]; [|lia].
  cbn [eval thresholdPercentageExpr num]. unfold doc_of. cbn [String.eqb Ascii.eqb Bool.eqb].
  cbn [eval]. rewrite threshold_not_zero by exact Hth. reflexivity.
Qed.

(** C10.  For a contract with [threshold >= 1], the [status] that the
    list-contracts pipeline computes with its [$switch] is the [status]
    virtual of the model on the same field values. *)
Theorem pipeline_status_is_virtual (c : Contract.t) :
  1 <= threshold c ->
  eval (doc_of c) statusExpr = Some (VStr (status c)).
Proof.
  intros Hth. unfold statusExpr.
  pose proof (eval_thresholdPercentage c Hth) as Hp.
  cbn [eval]. rewrite Hp.
  replace (doc_of c "isLocked") with (Some (VBool (isLocked c))) by reflexivity.
  unfold num. cbn [eval value_eqb]. unfold status, geq.
  destruct (isLocked c); cbn [Bool.eqb]; [reflexivity|].
  change (inject_Z 100) with 100%Q. change (inject_Z 80) with 80%Q.
  destruct (Qle_bool 100 (thresholdPercentage c)); [reflexivity|].
  destruct (Qle_bool 80 (thresholdPercentage c)); reflexivity.
Qed.

Lemma pipeline_status_is_virtual_witness :
  let c := Sample.pbr1 in
  1 <= threshold c /\ eval (doc_of c) statusExpr = Some (VStr "ACTIVE").
Proof.
  split; [cbn; lia|].
  apply (pipeline_status_is_virtual Sample.pbr1).
  cbn; lia.
Defined.

(** With [threshold = 0] the two part ways: the virtual answers, the
    pipeline's [$divide] fails. *)
Example pipeline_fails_on_zero_threshold :
  let c := Contract.mk 1 "PBR-2024-001" 100 0 0 false 0 [] in
  status c = "ACTIVE" /\ addFields c = None.
Proof. split; reflexivity. Qed.

End Pipeline.

(** ** The lock service *)

Section Lock.

Import LockService.

Example lockValue_example : lockValue 1700000000000 "0.42" = "1700000000000-0.42".
Proof. reflexivity. Qed.

Lemma releaseLock_up now r key :
  Redis.up r = true ->
  releaseLock now r key = (true, Redis.mk true (delete key (Redis.store r))).
Proof.
  intros Hup. unfold releaseLock, Redis.del. rewrite Hup. reflexivity.
Qed.

Lemma get_after_delete t r key k :
  Redis.get t (Redis.mk true (delete key (Redis.store r))) k
  = if String.eqb key k then None else Redis.get t r k.
Proof.
  unfold Redis.get. cbn [Redis.store].
  destruct (String.eqb_spec key k) as [->|Hne].
  - rewrite lookup_delete_eq. reflexivity.
  - rewrite lookup_delete_ne by exact Hne. reflexivity.
Qed.

(** C8, as the code has it.  With the lock store reachable, a release
    returns [true] whatever the key holds: a live token, an expired one or
    nothing; a second release returns [true] again and changes nothing.
    The release is by key alone: afterwards the key holds no token at all,
    whoever had set it, and the other keys are as they were. *)
Theorem release_is_idempotent_by_key (now1 now2 : Z) (r : Redis.t) (key : string) :
  Redis.up r = true ->
  let once := releaseLock now1 r key in
  let twice := releaseLock now2 (snd once) key in
  fst once = true
  /\ fst twice = true
  /\ snd twice = snd once
  /\ (forall t, Redis.get t (snd once) key = None)
  /\ (forall t k, k <> key -> Redis.get t (snd once) k = Redis.get t r k).
Proof.
  intros Hup once twice. subst once twice.
  rewrite (releaseLock_up now1 r key Hup). cbn [fst snd].
  rewrite releaseLock_up by reflexivity. cbn [fst snd Redis.store].
  split; [reflexivity|]. split; [reflexivity|].
  split; [rewrite delete_delete_eq; reflexivity|].
  split.
  - intros t. rewrite get_after_delete, String.eqb_refl. reflexivity.
  - intros t k Hne. rewrite get_after_delete.
    destruct (String.eqb_spec key k); [congruence|reflexivity].
Qed.

Lemma release_is_idempotent_by_key_witness :
  let once := releaseLock 16000 Sample.busy "shipment:PBR-2024-002" in
  let twice := releaseLock 16001 (snd once) "shipment:PBR-2024-002" in
  Redis.get 16000 Sample.busy "shipment:PBR-2024-002" = None
  /\ fst once = true
  /\ fst twice = true
  /\ snd twice = snd once.
Proof.
  cbv zeta. split; [reflexivity|].
  pose proof (release_is_idempotent_by_key 16000 16001 Sample.busy
                "shipment:PBR-2024-002" eq_refl) as H.
  cbv zeta in H. destruct H as (H1 & H2 & H3 & _).
  split; [exact H1|]. split; [exact H2|exact H3].
Defined.

(** With the lock store unreachable nothing is thrown either: the release
    answers [false]. *)
Lemma release_unreachable now (store : gmap string (string * Z)) key :
  releaseLock now (Redis.mk false store) key = (false, Redis.mk false store).
Proof. reflexivity. Qed.

(** C8, as the specification words it, fails.  The first holder's lock expires, a
    second holder takes the key, and the first holder's late release removes
    the second holder's token: the key is free again while the second holder
    is at work, and a third caller gets the lock. *)
Lemma late_release_drops_the_next_holder :
  fst Sample.first_holder = true
  /\ Redis.get 10001 (snd Sample.first_holder) Sample.contended_key = None
  /\ fst Sample.second_holder = true
  /\ Redis.get 10002 (snd Sample.second_holder) Sample.contended_key
     = Some (lockValue 10001 "0.22")
  /\ fst Sample.late_release = true
  /\ Redis.get 10002 (snd Sample.late_release) Sample.contended_key = None
  /\ fst (acquireLock 10003 "0.33" (snd Sample.late_release)
            Sample.contended_key 10000) = true.
Proof. repeat split; vm_compute; reflexivity. Qed.

End Lock.

(** ** The shipments handler, branch by branch *)

Section Handler.

Import World Shipments.

Ltac run_handler :=
  cbv beta iota zeta delta
    [handle post with_lock bind ret throw return_ try_catch try_finally modify event
     startSession startTransaction commitTransaction abortTransaction endSession
     write other_writers acquireLock releaseLock findOne save_locked shipBatteries
     addNotification save_shipment sendShipmentNotification console_error emit
     respond view with_ledger with_transaction with_redis with_response log
     ledger transaction redis trace response negb
     String.eqb Ascii.eqb Bool.eqb];
  repeat match goal with
         | |- context [Ledger.replay ?x []] => change (Ledger.replay x []) with x
         end.

Ltac facts :=
  repeat (split; [solve [reflexivity | assumption | lia | exact I]|]).

Lemma acquire_refused_keeps_store now rand r key timeout :
  fst (LockService.acquireLock now rand r key timeout) = false ->
  snd (LockService.acquireLock now rand r key timeout) = r.
Proof.
  unfold LockService.acquireLock, Redis.set_px_nx.
  destruct (Redis.up r); [|reflexivity].
  destruct (timeout <=? 0); [reflexivity|].
  destruct (Redis.get now r key); [reflexivity|discriminate].
Qed.

Lemma set_locked_contractId b t c :
  Contract.contractId (Ledger.set_locked b t c) = Contract.contractId c.
Proof. reflexivity. Qed.

Lemma findOne_contractId l k c :
  Ledger.findOne l k = Some c -> Contract.contractId c = k.
Proof.
  unfold Ledger.findOne. destruct (Ledger.contracts l !! k) as [d|]; [|discriminate].
  destruct (String.eqb_spec (Contract.contractId d) k); [|discriminate].
  intros [= <-]. assumption.
Qed.

Variables (env : Env) (req : Request) (l : Ledger.t) (r : Redis.t).

Let key := lockKey (contractId req).
Let cid := contractId req.
Let q := batteriesShipped req.
Let w0 := World.mk l NoTransaction r [] None.

(** The whole of the handler: for the branch the request takes, the facts
    that select it, and what the handler returns and leaves behind. *)
Lemma post_cases :
  match path env req l r with
  | Rejected =>
      validation_passes req = false /\
      post env req w0 =
        (Returned,
         World.mk l NoTransaction r
           [StartSession; Respond 400; EndSession]
           (Some (error_response 400 "Validation failed" None)))
  | Contended =>
      validation_passes req = true /\
      fst (LockService.acquireLock (now env) (rand env) r key 10000) = false /\
      post env req w0 =
        (Returned,
         World.mk l Aborted r
           [StartSession; StartTransaction; AcquireLock key false;
            AbortTransaction; Respond 423; EndSession]
           (Some (error_response 423
                    "Another shipment is being processed for this contract. Please try again."
                    (Some "CONCURRENT_SHIPMENT"))))
  | NotFound =>
      validation_passes req = true /\
      fst (LockService.acquireLock (now env) (rand env) r key 10000) = true /\
      Ledger.findOne l cid = None /\
      post env req w0 =
        (Returned,
         World.mk l Aborted (released env req (taken env req r))
           [StartSession; StartTransaction; AcquireLock key true;
            FindContract cid; ReleaseLock key; AbortTransaction;
            ConsoleError "Create shipment error:" "CONTRACT_NOT_FOUND";
            Respond 404; EndSession]
           (Some (error_response 404 "Contract not found" (Some "CONTRACT_NOT_FOUND"))))
  | Locked c =>
      validation_passes req = true /\
      fst (LockService.acquireLock (now env) (rand env) r key 10000) = true /\
      Ledger.findOne l cid = Some c /\
      Contract.isLocked c = true /\
      post env req w0 =
        (Returned,
         World.mk l Aborted (released env req (taken env req r))
           [StartSession; StartTransaction; AcquireLock key true;
            FindContract cid; ReleaseLock key; AbortTransaction;
            ConsoleError "Create shipment error:" "CONTRACT_LOCKED";
            Respond 423; EndSession]
           (Some (error_response 423
                    "Contract is locked. No further shipments allowed."
                    (Some "CONTRACT_LOCKED"))))
  | Conflict c =>
      validation_passes req = true /\
      fst (LockService.acquireLock (now env) (rand env) r key 10000) = true /\
      Ledger.findOne l cid = Some c /\
      Contract.isLocked c = false /\
      Contract.batteriesShipped c + q <= Contract.threshold c /\
      match Ledger.findOne (Ledger.replay l (concurrent env)) cid with
      | Some d => shipBatteries_filter c q d = false
      | None => True
      end /\
      post env req w0 =
        (Val tt,
         World.mk (Ledger.replay l (concurrent env)) Aborted
           (released env req (taken env req r))
           [StartSession; StartTransaction; AcquireLock key true;
            FindContract cid; ShipBatteries cid q false; ReleaseLock key;
            AbortTransaction;
            ConsoleError "Create shipment error:" "ATOMIC_UPDATE_FAILED";
            Respond 500; EndSession]
           (Some (error_response 500 "Failed to create shipment" (Some "CREATE_ERROR"))))
  | Blocked c =>
      validation_passes req = true /\
      fst (LockService.acquireLock (now env) (rand env) r key 10000) = true /\
      Ledger.findOne l cid = Some c /\
      Contract.isLocked c = false /\
      Contract.threshold c < Contract.batteriesShipped c + q /\
      blank (email (user req)) = false /\
      let s := new_shipment env req (Ledger.set_locked true (now env) c) "BLOCKED"
                 (Some (blockReason_of (Contract.batteriesShipped c + q)
                          (Contract.threshold c))) in
      post env req w0 =
        (Val tt,
         World.mk
           (Ledger.apply
              (Ledger.replay (Ledger.replay l (concurrent env))
                 [Ledger.SetLocked cid true (now env); Ledger.InsertShipment s])
              (Ledger.PushNotification cid
                 (Contract.mkNotification (email (user req))
                    (notification_message cid) "THRESHOLD_EXCEEDED" (now env))
                 (now env)))
           Committed
           (released env req (released env req (taken env req r)))
           ([StartSession; StartTransaction; AcquireLock key true;
             FindContract cid; SaveContract cid; SaveShipment (newShipmentId env);
             CommitTransaction
               [Ledger.SetLocked cid true (now env); Ledger.InsertShipment s];
             ReleaseLock key; Populate; AddNotification cid]
            ++ mail_events env
            ++ [Emit "shipment:created"; Emit "contract:threshold_exceeded";
                Respond 201; ReleaseLock key; EndSession])
           (Some (created s "BLOCKED")))
  | Approved c d =>
      validation_passes req = true /\
      fst (LockService.acquireLock (now env) (rand env) r key 10000) = true /\
      Ledger.findOne l cid = Some c /\
      Contract.isLocked c = false /\
      Contract.batteriesShipped c + q <= Contract.threshold c /\
      Ledger.findOne (Ledger.replay l (concurrent env)) cid = Some d /\
      shipBatteries_filter c q d = true /\
      let s := new_shipment env req c "APPROVED" None in
      post env req w0 =
        (Val tt,
         World.mk
           (Ledger.replay (Ledger.replay l (concurrent env))
              [Ledger.IncShipped cid q (now env); Ledger.InsertShipment s])
           Committed
           (released env req (released env req (taken env req r)))
           [StartSession; StartTransaction; AcquireLock key true;
            FindContract cid; ShipBatteries cid q true;
            SaveShipment (newShipmentId env);
            CommitTransaction
              [Ledger.IncShipped cid q (now env); Ledger.InsertShipment s];
            ReleaseLock key; Populate;
            Emit "shipment:created"; Respond 201; ReleaseLock key; EndSession]
           (Some (created s "APPROVED")))
  | Unanswered c =>
      validation_passes req = true /\
      fst (LockService.acquireLock (now env) (rand env) r key 10000) = true /\
      Ledger.findOne l cid = Some c /\
      Contract.isLocked c = false /\
      Contract.threshold c < Contract.batteriesShipped c + q /\
      blank (email (user req)) = true /\
      let s := new_shipment env req (Ledger.set_locked true (now env) c) "BLOCKED"
                 (Some (blockReason_of (Contract.batteriesShipped c + q)
                          (Contract.threshold c))) in
      post env req w0 =
        (Thrown "Cannot call abortTransaction after calling commitTransaction",
         World.mk
           (Ledger.replay (Ledger.replay l (concurrent env))
              [Ledger.SetLocked cid true (now env); Ledger.InsertShipment s])
           Committed
           (released env req (released env req (taken env req r)))
           [StartSession; StartTransaction; AcquireLock key true;
            FindContract cid; SaveContract cid; SaveShipment (newShipmentId env);
            CommitTransaction
              [Ledger.SetLocked cid true (now env); Ledger.InsertShipment s];
            ReleaseLock key; Populate; AddNotification cid;
            ReleaseLock key; EndSession]
           None)
  end.
Proof.
  unfold path, taken, released. subst key cid q w0.
  destruct (validation_passes req) eqn:Hv; cbn [negb].
  2:{ facts. run_handler. rewrite Hv. reflexivity. }
  destruct (LockService.acquireLock (now env) (rand env) r (lockKey (contractId req)) 10000)
    as [a r1] eqn:Ha.
  cbn [fst snd]. destruct a; cbn [negb].
  2:{ facts.
      pose proof (acquire_refused_keeps_store (now env) (rand env) r
                    (lockKey (contractId req)) 10000) as Hr.
      rewrite Ha in Hr. cbn [fst snd] in Hr. specialize (Hr eq_refl). subst r1.
      run_handler. rewrite Hv. run_handler. rewrite Ha. reflexivity. }
  destruct (Ledger.findOne l (contractId req)) as [c|] eqn:Hc.
  2:{ facts.
      run_handler. rewrite Hv. run_handler. rewrite Ha. run_handler. rewrite Hc.
      run_handler.
      destruct (LockService.releaseLock (now env) r1 (lockKey (contractId req))).
      reflexivity. }
  pose proof (findOne_contractId _ _ _ Hc) as Hk.
  destruct (Contract.isLocked c) eqn:Hl.
  { facts.
    run_handler. rewrite Hv. run_handler. rewrite Ha. run_handler. rewrite Hc.
    run_handler. rewrite Hl.
    destruct (LockService.releaseLock (now env) r1 (lockKey (contractId req))).
    reflexivity. }
  destruct (Z.gtb_spec (Contract.batteriesShipped c + batteriesShipped req)
              (Contract.threshold c)) as [Hx|Hx].
  { destruct (blank (email (user req))) eqn:Hb.
    - facts.
      run_handler. rewrite Hv. run_handler. rewrite Ha. run_handler. rewrite Hc.
      run_handler. rewrite Hl.
      destruct (Z.gtb_spec (Contract.batteriesShipped c + batteriesShipped req)
                  (Contract.threshold c)); [|lia].
      run_handler. rewrite set_locked_contractId, Hk.
      destruct (LockService.releaseLock (now env) r1 (lockKey (contractId req)))
        as [x1 r2].
      cbn [snd]. run_handler. rewrite Hb. run_handler.
      destruct (LockService.releaseLock (now env) r2 (lockKey (contractId req)));
        reflexivity.
    - facts.
      run_handler. rewrite Hv. run_handler. rewrite Ha. run_handler. rewrite Hc.
      run_handler. rewrite Hl.
      destruct (Z.gtb_spec (Contract.batteriesShipped c + batteriesShipped req)
                  (Contract.threshold c)); [|lia].
      run_handler. rewrite set_locked_contractId, Hk.
      destruct (LockService.releaseLock (now env) r1 (lockKey (contractId req)))
        as [x1 r2].
      cbn [snd]. run_handler. rewrite Hb. run_handler. unfold mail_events.
      destruct (emailFails env); run_handler;
        destruct (LockService.releaseLock (now env) r2 (lockKey (contractId req)));
        reflexivity. }
  destruct (Ledger.findOne (Ledger.replay l (concurrent env)) (contractId req))
    as [d|] eqn:Hd.
  2:{ facts.
      run_handler. rewrite Hv. run_handler. rewrite Ha. run_handler. rewrite Hc.
      run_handler. rewrite Hl.
      destruct (Z.gtb_spec (Contract.batteriesShipped c + batteriesShipped req)
                  (Contract.threshold c)); [lia|].
      run_handler. rewrite Hk.
      rewrite Hd.
      destruct (LockService.releaseLock (now env) r1 (lockKey (contractId req))).
      reflexivity. }
  destruct (shipBatteries_filter c (batteriesShipped req) d) eqn:Hf.
  - facts.
    run_handler. rewrite Hv. run_handler. rewrite Ha. run_handler. rewrite Hc.
    run_handler. rewrite Hl.
    destruct (Z.gtb_spec (Contract.batteriesShipped c + batteriesShipped req)
                (Contract.threshold c)); [lia|].
    run_handler. rewrite Hk.
    rewrite Hd, Hf.
    destruct (LockService.releaseLock (now env) r1 (lockKey (contractId req))) as [x1 r2].
    cbn [snd]. run_handler.
    destruct (LockService.releaseLock (now env) r2 (lockKey (contractId req))).
    reflexivity.
  - facts.
    run_handler. rewrite Hv. run_handler. rewrite Ha. run_handler. rewrite Hc.
    run_handler. rewrite Hl.
    destruct (Z.gtb_spec (Contract.batteriesShipped c + batteriesShipped req)
                (Contract.threshold c)); [lia|].
    run_handler. rewrite Hk.
    rewrite Hd, Hf.
    destruct (LockService.releaseLock (now env) r1 (lockKey (contractId req))).
    reflexivity.
Qed.

End Handler.

(** ** Facts about the stores *)

Section Stores.

Import Shipments.

Lemma isInt_min1_bounds (n : Z) : isInt_min1 n = true -> 1 <= n < 10 ^ 21.
Proof.
  unfold isInt_min1. intros H. apply andb_prop in H. destruct H as [H1 H2].
  apply Z.leb_le in H1. apply Z.ltb_lt in H2. split; assumption.
Qed.

(** A free key on a client that is up is given to whoever asks with a
    positive time to live. *)
Lemma acquire_when_free now rand r key timeout :
  Redis.up r = true -> Redis.get now r key = None ->
  fst (LockService.acquireLock now rand r key timeout) = (0 <? timeout).
Proof.
  intros Hup Hfree. unfold LockService.acquireLock, Redis.set_px_nx.
  rewrite Hup, Hfree.
  destruct (Z.leb_spec timeout 0), (Z.ltb_spec 0 timeout); try reflexivity; lia.
Qed.

Lemma acquire_when_held now rand r key timeout v :
  Redis.get now r key = Some v ->
  fst (LockService.acquireLock now rand r key timeout) = false.
Proof.
  intros Hheld. unfold LockService.acquireLock, Redis.set_px_nx.
  rewrite Hheld. destruct (Redis.up r), (timeout <=? 0); reflexivity.
Qed.

Lemma effect_contractId w key c :
  Contract.contractId (Ledger.effect w key c) = Contract.contractId c.
Proof.
  destruct w; cbn [Ledger.effect]; try reflexivity;
    destruct (String.eqb _ _); reflexivity.
Qed.

Lemma effect_threshold w key c :
  Contract.threshold (Ledger.effect w key c) = Contract.threshold c.
Proof.
  destruct w; cbn [Ledger.effect]; try reflexivity;
    destruct (String.eqb _ _); reflexivity.
Qed.

Lemma effect_batteriesShipped w key c :
  Contract.batteriesShipped (Ledger.effect w key c)
  = Contract.batteriesShipped c
    + match w with
      | Ledger.IncShipped k quantity _ => if String.eqb k key then quantity else 0
      | _ => 0
      end.
Proof.
  destruct w; cbn [Ledger.effect]; try (cbn; lia);
    destruct (String.eqb _ _); cbn; lia.
Qed.

Lemma findOne_alter (f : Contract.t -> Contract.t) k m sh key :
  (forall c, Contract.contractId (f c) = Contract.contractId c) ->
  Ledger.findOne (Ledger.mk (alter f k m) sh) key
  = (if String.eqb k key then f else id) <$> Ledger.findOne (Ledger.mk m sh) key.
Proof.
  intros Hf. unfold Ledger.findOne. cbn [Ledger.contracts].
  destruct (String.eqb_spec k key) as [->|Hne].
  - rewrite lookup_alter_eq. destruct (m !! key) as [c|]; [|reflexivity].
    cbn. rewrite Hf. destruct (String.eqb _ _); reflexivity.
  - rewrite lookup_alter_ne by exact Hne.
    destruct (m !! key) as [c|]; [|reflexivity].
    destruct (String.eqb _ _); reflexivity.
Qed.

(** A write reaches the contract under [key] through [Ledger.effect]. *)
Lemma findOne_apply l w key :
  Ledger.findOne (Ledger.apply l w) key = Ledger.effect w key <$> Ledger.findOne l key.
Proof.
  destruct l as [m sh].
  destruct w; cbn [Ledger.apply Ledger.effect Ledger.contracts Ledger.shipments].
  - apply findOne_alter. reflexivity.
  - apply findOne_alter. reflexivity.
  - apply findOne_alter. reflexivity.
  - unfold Ledger.findOne. cbn [Ledger.contracts].
    destruct (m !! key) as [c|]; [|reflexivity].
    destruct (String.eqb _ _); reflexivity.
Qed.

End Stores.

(** ** Requests turned away: a locked contract, a held lock *)

Section TurnedAway.

Import World Shipments.

(** C3.  For a contract with [isLocked = true], a request that passes
    validation and gets the lock is answered with the [CONTRACT_LOCKED]
    error (HTTP 423); no shipment record is created and the contract,
    [batteriesShipped] included, stays as it was. *)
Theorem locked_contract_refuses (env : Env) (req : Request) (l : Ledger.t)
    (r : Redis.t) (c : Contract.t) :
  validation_passes req = true ->
  Redis.up r = true ->
  Redis.get (now env) r (lockKey (contractId req)) = None ->
  Ledger.findOne l (contractId req) = Some c ->
  Contract.isLocked c = true ->
  let w := handle env req l r in
  code_of (response w) = Some "CONTRACT_LOCKED"
  /\ http_of (response w) = Some 423
  /\ Ledger.shipments (ledger w) = Ledger.shipments l
  /\ Ledger.findOne (ledger w) (contractId req) = Some c
  /\ ledger w = l.
Proof.
  intros Hv Hup Hfree Hc Hl w.
  pose proof (post_cases env req l r) as H.
  assert (P : path env req l r = Locked c).
  { unfold path. rewrite Hv, (acquire_when_free _ _ _ _ _ Hup Hfree), Hc, Hl.
    reflexivity. }
  rewrite P in H. destruct H as (_ & _ & _ & _ & H).
  subst w. unfold handle. rewrite H. cbn.
  repeat split; try reflexivity. exact Hc.
Qed.

Lemma locked_contract_refuses_witness :
  let w := handle Sample.calm (Sample.ship "PBR-2024-003" 5) Sample.ledger Sample.idle in
  code_of (response w) = Some "CONTRACT_LOCKED"
  /\ http_of (response w) = Some 423
  /\ Ledger.shipments (ledger w) = Ledger.shipments Sample.ledger
  /\ Ledger.findOne (ledger w) "PBR-2024-003" = Some Sample.pbr3
  /\ ledger w = Sample.ledger.
Proof.
  apply (locked_contract_refuses Sample.calm (Sample.ship "PBR-2024-003" 5)
           Sample.ledger Sample.idle Sample.pbr3); reflexivity.
Defined.

(** Whatever the request and whoever holds the lock, a locked contract is
    left as it is. *)
Lemma locked_contract_untouched (env : Env) (req : Request) (l : Ledger.t)
    (r : Redis.t) (c : Contract.t) :
  Ledger.findOne l (contractId req) = Some c ->
  Contract.isLocked c = true ->
  ledger (handle env req l r) = l.
Proof.
  intros Hc Hl. unfold handle.
  pose proof (post_cases env req l r) as H.
  destruct (path env req l r) as [| | |c'|c'|c'|c' d|c'];
    cbv zeta in H; decompose [and] H; clear H;
    match goal with Hp : post _ _ _ = _ |- _ => rewrite Hp end;
    try reflexivity; congruence.
Qed.

(** C4, as the code has it.  When the lock of the contract key is held, a
    request that passes validation is answered at once with HTTP 423 and the
    code [CONCURRENT_SHIPMENT]; the transaction it had opened is aborted
    empty, no collection of the ledger is read or written, and the lock
    store is left as it was. *)
Theorem held_lock_turns_request_away (env : Env) (req : Request) (l : Ledger.t)
    (r : Redis.t) (holder : string) :
  validation_passes req = true ->
  Redis.get (now env) r (lockKey (contractId req)) = Some holder ->
  let w := handle env req l r in
  code_of (response w) = Some "CONCURRENT_SHIPMENT"
  /\ http_of (response w) = Some 423
  /\ trace w = [StartSession; StartTransaction;
                AcquireLock (lockKey (contractId req)) false;
                AbortTransaction; Respond 423; EndSession]
  /\ forallb (fun e => negb (touches_ledger e)) (trace w) = true
  /\ ledger w = l
  /\ redis w = r.
Proof.
  intros Hv Hheld w.
  pose proof (post_cases env req l r) as H.
  assert (P : path env req l r = Contended).
  { unfold path. rewrite Hv, (acquire_when_held _ _ _ _ _ _ Hheld). reflexivity. }
  rewrite P in H. destruct H as (_ & _ & H).
  subst w. unfold handle. rewrite H. cbn. repeat split; reflexivity.
Qed.

Lemma held_lock_turns_request_away_witness :
  let w := handle Sample.calm (Sample.ship "PBR-2024-002" 3) Sample.ledger Sample.busy in
  code_of (response w) = Some "CONCURRENT_SHIPMENT"
  /\ http_of (response w) = Some 423
  /\ trace w = [StartSession; StartTransaction;
                AcquireLock "shipment:PBR-2024-002" false;
                AbortTransaction; Respond 423; EndSession]
  /\ forallb (fun e => negb (touches_ledger e)) (trace w) = true
  /\ ledger w = Sample.ledger
  /\ redis w = Sample.busy.
Proof.
  apply (held_lock_turns_request_away Sample.calm (Sample.ship "PBR-2024-002" 3)
           Sample.ledger Sample.busy "5000-0.731"); reflexivity.
Defined.

(** C4, as the specification words it, fails: with the lock held, the code of the
    response is not [CONCURRENT_OPERATION]. *)
Lemma held_lock_code_is_not_CONCURRENT_OPERATION :
  let w := handle Sample.calm (Sample.ship "PBR-2024-002" 3) Sample.ledger Sample.busy in
  Redis.get 6000 Sample.busy "shipment:PBR-2024-002" = Some "5000-0.731"
  /\ code_of (response w) = Some "CONCURRENT_SHIPMENT"
  /\ code_of (response w) <> Some "CONCURRENT_OPERATION".
Proof.
  cbv zeta. split; [reflexivity|].
  assert (E : code_of (response (handle Sample.calm (Sample.ship "PBR-2024-002" 3)
                                   Sample.ledger Sample.busy))
              = Some "CONCURRENT_SHIPMENT") by (vm_compute; reflexivity).
  split; [exact E|]. rewrite E. discriminate.
Qed.

End TurnedAway.

(** ** Blocked and approved admissions *)

Section Admission.

Import World Shipments.

Lemma replay_nil l : Ledger.replay l [] = l.
Proof. reflexivity. Qed.

(** What a blocked admission leaves of the contract, when nobody else
    writes: locked, with the notification, the counters as they were. *)
Lemma blocked_contract (env : Env) (req : Request) (l : Ledger.t) (c : Contract.t)
    (s : Shipment.t) (n : Contract.Notification) :
  Ledger.findOne l (contractId req) = Some c ->
  Ledger.findOne
    (Ledger.apply
       (Ledger.replay l [Ledger.SetLocked (contractId req) true (now env);
                         Ledger.InsertShipment s])
       (Ledger.PushNotification (contractId req) n (now env)))
    (contractId req)
  = Some (Ledger.push_notification n (now env) (Ledger.set_locked true (now env) c)).
Proof.
  intros Hc. cbn [Ledger.replay fold_left].
  rewrite !findOne_apply, Hc. cbn [Ledger.effect]. rewrite String.eqb_refl.
  reflexivity.
Qed.

(** C2.  Contract with [threshold = 60], [batteriesShipped = 55], not
    locked; a request for 10, of a user who has an email, that gets the
    lock, with no other writer: the outcome is BLOCKED, the [blockReason] mentions [65/60], the contract
    becomes locked and [batteriesShipped] remains 55. *)
Theorem scenario_blocked (env : Env) (req : Request) (l : Ledger.t)
    (r : Redis.t) (c : Contract.t) :
  validation_passes req = true ->
  batteriesShipped req = 10 ->
  blank (email (user req)) = false ->
  Redis.up r = true ->
  Redis.get (now env) r (lockKey (contractId req)) = None ->
  concurrent env = [] ->
  Ledger.findOne l (contractId req) = Some c ->
  Contract.threshold c = 60 ->
  Contract.batteriesShipped c = 55 ->
  Contract.isLocked c = false ->
  let w := handle env req l r in
  outcome (response w) = Some "BLOCKED"
  /\ (exists reason,
        blockReason_in (response w) = Some reason
        /\ includes reason "65/60" = true)
  /\ (exists c',
        Ledger.findOne (ledger w) (contractId req) = Some c'
        /\ Contract.isLocked c' = true
        /\ Contract.batteriesShipped c' = 55).
Proof.
  intros Hv Hq Hmail Hup Hfree Hnone Hc Hth Hbs Hl w.
  pose proof (post_cases env req l r) as H.
  assert (P : path env req l r = Blocked c).
  { unfold path. rewrite Hv, (acquire_when_free _ _ _ _ _ Hup Hfree), Hc, Hl.
    rewrite Hth, Hbs, Hq, Hmail. reflexivity. }
  rewrite P in H. cbv zeta in H. destruct H as (_ & _ & _ & _ & _ & _ & H).
  subst w. unfold handle. rewrite H. cbn [snd ledger response].
  rewrite Hnone, replay_nil, Hth, Hbs, Hq.
  split; [reflexivity|]. split.
  - eexists. split; [reflexivity|]. vm_compute. reflexivity.
  - eexists. split; [apply blocked_contract; exact Hc|].
    split; [reflexivity|exact Hbs].
Qed.

Lemma scenario_blocked_witness :
  let w := handle Sample.calm (Sample.ship "PBR-2024-002" 10) Sample.ledger Sample.idle in
  outcome (response w) = Some "BLOCKED"
  /\ (exists reason,
        blockReason_in (response w) = Some reason
        /\ includes reason "65/60" = true)
  /\ (exists c',
        Ledger.findOne (ledger w) "PBR-2024-002" = Some c'
        /\ Contract.isLocked c' = true
        /\ Contract.batteriesShipped c' = 55).
Proof.
  apply (scenario_blocked Sample.calm (Sample.ship "PBR-2024-002" 10)
           Sample.ledger Sample.idle Sample.pbr2); reflexivity.
Defined.

(** The scenario of the first sample contract: threshold 120, 85 shipped,
    a request for 10 is approved, 95 are shipped and the contract stays
    unlocked. *)
Example scenario_approved :
  let w := handle Sample.calm (Sample.ship "PBR-2024-001" 10) Sample.ledger Sample.idle in
  outcome (response w) = Some "APPROVED"
  /\ (Contract.batteriesShipped <$> Ledger.findOne (ledger w) "PBR-2024-001") = Some 95
  /\ (Contract.isLocked <$> Ledger.findOne (ledger w) "PBR-2024-001") = Some false
  /\ Redis.get 6000 (redis w) "shipment:PBR-2024-001" = None.
Proof. vm_compute. repeat split; reflexivity. Qed.

End Admission.

(** ** The conditional update without a match *)

Section Conflict.

Import World Shipments.

(** C5, as the code has it.  Whenever the conditional update of
    [shipBatteries] matches no document, the handler throws
    [ATOMIC_UPDATE_FAILED], the transaction is aborted, and the response is
    HTTP 500 with the generic code [CREATE_ERROR]; the handler has written
    nothing: the ledger holds what the other writers left, and no more. *)
Theorem unmatched_update_aborts (env : Env) (req : Request) (l : Ledger.t) (r : Redis.t) :
  (exists k n, In (ShipBatteries k n false) (trace (handle env req l r))) ->
  let w := handle env req l r in
  code_of (response w) = Some "CREATE_ERROR"
  /\ http_of (response w) = Some 500
  /\ In (ConsoleError "Create shipment error:" "ATOMIC_UPDATE_FAILED") (trace w)
  /\ transaction w = Aborted
  /\ In AbortTransaction (trace w)
  /\ ledger w = Ledger.replay l (concurrent env).
Proof.
  intros (k & n & Hin) w. subst w. revert Hin. unfold handle.
  pose proof (post_cases env req l r) as H.
  destruct (path env req l r) as [| | |c|c|c|c d|c];
    cbv zeta in H; decompose [and] H; clear H;
    match goal with Hp : post _ _ _ = _ |- _ => rewrite Hp end;
    cbn [snd trace response transaction ledger code_of http_of error_response code http];
    intros Hin.
  1-4,7-8: cbn in Hin; intuition discriminate.
  - repeat split; try reflexivity; cbn; tauto.
  - exfalso. unfold mail_events in Hin.
    destruct (emailFails env); cbn in Hin; intuition discriminate.
Qed.

Lemma unmatched_update_aborts_witness :
  let w := handle Sample.locked_meanwhile (Sample.ship "PBR-2024-002" 3)
             Sample.ledger Sample.idle in
  code_of (response w) = Some "CREATE_ERROR"
  /\ http_of (response w) = Some 500
  /\ In (ConsoleError "Create shipment error:" "ATOMIC_UPDATE_FAILED") (trace w)
  /\ transaction w = Aborted
  /\ In AbortTransaction (trace w)
  /\ ledger w = Ledger.replay Sample.ledger (concurrent Sample.locked_meanwhile).
Proof.
  apply (unmatched_update_aborts Sample.locked_meanwhile (Sample.ship "PBR-2024-002" 3)
           Sample.ledger Sample.idle).
  exists "PBR-2024-002", 3. vm_compute. tauto.
Defined.

(** C5, as the specification words it, fails: the update matches no document and
    the code of the response is not [ATOMIC_UPDATE_CONFLICT]. *)
Lemma unmatched_update_code_is_not_ATOMIC_UPDATE_CONFLICT :
  let w := handle Sample.locked_meanwhile (Sample.ship "PBR-2024-002" 3)
             Sample.ledger Sample.idle in
  In (ShipBatteries "PBR-2024-002" 3 false) (trace w)
  /\ code_of (response w) = Some "CREATE_ERROR"
  /\ code_of (response w) <> Some "ATOMIC_UPDATE_CONFLICT".
Proof.
  cbv zeta.
  assert (E : code_of (response (handle Sample.locked_meanwhile
                                   (Sample.ship "PBR-2024-002" 3)
                                   Sample.ledger Sample.idle))
              = Some "CREATE_ERROR") by (vm_compute; reflexivity).
  split; [vm_compute; tauto|]. split; [exact E|]. rewrite E. discriminate.
Qed.

End Conflict.

(** ** The order of the steps *)

Section Order.

Import World Shipments.

(** C6 fails on the code.  Every request that passes validation opens the
    ledger transaction first and asks for the lock second: in the trace,
    [StartTransaction] comes before [AcquireLock]. *)
Theorem transaction_opened_before_lock (env : Env) (req : Request) (l : Ledger.t)
    (r : Redis.t) :
  validation_passes req = true ->
  (exists got rest,
     trace (handle env req l r)
     = StartSession :: StartTransaction
         :: AcquireLock (lockKey (contractId req)) got :: rest)
  /\ precedes is_StartTransaction is_AcquireLock (trace (handle env req l r)) = true
  /\ precedes is_AcquireLock is_StartTransaction (trace (handle env req l r)) = false.
Proof.
  intros Hv. unfold handle.
  pose proof (post_cases env req l r) as H.
  destruct (path env req l r) as [| | |c|c|c|c d|c];
    cbv zeta in H; decompose [and] H; clear H;
    match goal with Hp : post _ _ _ = _ |- _ => rewrite Hp end;
    cbn [snd trace]; try congruence;
    (split; [eexists; eexists; reflexivity | split; reflexivity]).
Qed.

Lemma transaction_opened_before_lock_witness :
  let w := handle Sample.calm (Sample.ship "PBR-2024-001" 10) Sample.ledger Sample.idle in
  (exists got rest,
     trace w = StartSession :: StartTransaction
                 :: AcquireLock "shipment:PBR-2024-001" got :: rest)
  /\ precedes is_StartTransaction is_AcquireLock (trace w) = true
  /\ precedes is_AcquireLock is_StartTransaction (trace w) = false.
Proof.
  apply (transaction_opened_before_lock Sample.calm (Sample.ship "PBR-2024-001" 10)
           Sample.ledger Sample.idle).
  reflexivity.
Defined.

End Order.

(** ** The notification of a blocked shipment *)

Section Notification.

Import World Shipments.

Lemma findOne_replay_Some ws : forall l key c,
  Ledger.findOne l key = Some c ->
  exists d, Ledger.findOne (Ledger.replay l ws) key = Some d
            /\ Contract.threshold d = Contract.threshold c.
Proof.
  induction ws as [|w ws IH]; intros l key c Hc.
  - exists c. split; [exact Hc|reflexivity].
  - cbn [Ledger.replay fold_left].
    destruct (IH (Ledger.apply l w) key (Ledger.effect w key c)) as (d & Hd & Ht).
    { rewrite findOne_apply, Hc. reflexivity. }
    exists d. split; [exact Hd|]. rewrite Ht. apply effect_threshold.
Qed.

(** A response that carries a BLOCKED shipment comes from the blocked
    branch. *)
Lemma blocked_outcome_path (env : Env) (req : Request) (l : Ledger.t) (r : Redis.t) :
  outcome (response (handle env req l r)) = Some "BLOCKED" ->
  exists c, path env req l r = Blocked c.
Proof.
  unfold handle. pose proof (post_cases env req l r) as H.
  destruct (path env req l r) as [| | |c|c|c|c d|c];
    cbv zeta in H; decompose [and] H; clear H;
    match goal with Hp : post _ _ _ = _ |- _ => rewrite Hp end;
    cbn; try discriminate.
  intros _. exists c. reflexivity.
Qed.

(** C7, as the code has it.  On every BLOCKED outcome the write that sets
    [isLocked] is part of the transaction, and the notification record is
    appended to the contract after that transaction has been committed and
    the lock released, as a write of its own.  A failure of the mailer is
    logged and goes no further: the handler ends normally with its 201
    response, the transaction stays committed and the ledger is the same
    whether the mailer throws or not. *)
Theorem blocked_notification_follows_commit (env : Env) (req : Request)
    (l : Ledger.t) (r : Redis.t) :
  outcome (response (handle env req l r)) = Some "BLOCKED" ->
  let w := handle env req l r in
  let key := lockKey (contractId req) in
  let cid := contractId req in
  (exists writes,
     trace w =
       ([StartSession; StartTransaction; AcquireLock key true;
         FindContract cid; SaveContract cid; SaveShipment (newShipmentId env);
         CommitTransaction writes; ReleaseLock key; Populate; AddNotification cid]
        ++ mail_events env
        ++ [Emit "shipment:created"; Emit "contract:threshold_exceeded";
            Respond 201; ReleaseLock key; EndSession])%list
     /\ In (Ledger.SetLocked cid true (now env)) writes
     /\ existsb is_PushNotification writes = false)
  /\ precedes is_SaveContract is_CommitTransaction (trace w) = true
  /\ precedes is_CommitTransaction is_AddNotification (trace w) = true
  /\ (emailFails env = true ->
      In (ConsoleError "Email notification failed:" mailer_error) (trace w))
  /\ fst (post env req (World.mk l NoTransaction r [] None)) = Val tt
  /\ http_of (response w) = Some 201
  /\ transaction w = Committed
  /\ ledger w =
       ledger (handle (mkEnv (now env) (rand env) (newShipmentId env)
                         (negb (emailFails env)) (concurrent env)) req l r)
  /\ exists c', Ledger.findOne (ledger w) cid = Some c'
                /\ Contract.isLocked c' = true
                /\ last (Contract.notificationsSent c')
                   = Some (Contract.mkNotification (email (user req))
                             (notification_message cid)
                             "THRESHOLD_EXCEEDED" (now env)).
Proof.
  intros Hb w key cid.
  destruct (blocked_outcome_path env req l r Hb) as (c & P).
  set (env' := mkEnv (now env) (rand env) (newShipmentId env)
                 (negb (emailFails env)) (concurrent env)).
  assert (P' : path env' req l r = Blocked c) by exact P.
  pose proof (post_cases env req l r) as H. rewrite P in H.
  pose proof (post_cases env' req l r) as H'. rewrite P' in H'.
  cbv zeta in H, H'.
  destruct H as (_ & _ & Hc & _ & _ & _ & H).
  destruct H' as (_ & _ & _ & _ & _ & _ & H').
  subst w key cid. unfold handle. rewrite H, H'.
  cbn [fst snd trace response transaction ledger http_of created http].
  split; [eexists; split; [reflexivity|split; [cbn; tauto|reflexivity]]|].
  split; [reflexivity|].
  split; [reflexivity|].
  split; [unfold mail_events; intros ->; cbn; tauto|].
  repeat (split; [reflexivity|]).
  destruct (findOne_replay_Some (concurrent env) l (contractId req) c Hc) as (d & Hd & _).
  eexists. split.
  { apply (blocked_contract env req (Ledger.replay l (concurrent env)) d). exact Hd. }
  split; [reflexivity|].
  cbn [Contract.notificationsSent Ledger.push_notification Ledger.set_locked].
  apply last_snoc.
Qed.

Lemma blocked_notification_follows_commit_witness :
  let env := Sample.no_mail in
  let req := Sample.ship "PBR-2024-002" 10 in
  let w := handle env req Sample.ledger Sample.idle in
  precedes is_CommitTransaction is_AddNotification (trace w) = true
  /\ In (ConsoleError "Email notification failed:" mailer_error) (trace w)
  /\ http_of (response w) = Some 201
  /\ transaction w = Committed.
Proof.
  cbv zeta.
  pose proof (blocked_notification_follows_commit Sample.no_mail
                (Sample.ship "PBR-2024-002" 10) Sample.ledger Sample.idle eq_refl) as H.
  cbv zeta in H.
  destruct H as (_ & _ & Hc & Hm & _ & Hh & Ht & _).
  split; [exact Hc|]. split; [exact (Hm eq_refl)|]. split; [exact Hh|exact Ht].
Defined.

(** C7, as the specification words it, fails: on a BLOCKED outcome the transaction
    that sets [isLocked] is committed before the notification is appended,
    and the transaction's own writes do not contain it. *)
Lemma notification_is_not_in_the_transaction :
  let w := handle Sample.calm (Sample.ship "PBR-2024-002" 10) Sample.ledger Sample.idle in
  outcome (response w) = Some "BLOCKED"
  /\ (exists s,
        trace w =
          [StartSession; StartTransaction; AcquireLock "shipment:PBR-2024-002" true;
           FindContract "PBR-2024-002"; SaveContract "PBR-2024-002";
           SaveShipment "SHP-LX3K9-A1B2C";
           CommitTransaction
             [Ledger.SetLocked "PBR-2024-002" true 6000; Ledger.InsertShipment s];
           ReleaseLock "shipment:PBR-2024-002"; Populate;
           AddNotification "PBR-2024-002"; SendShipmentNotification true;
           Emit "shipment:created"; Emit "contract:threshold_exceeded";
           Respond 201; ReleaseLock "shipment:PBR-2024-002"; EndSession])
  /\ precedes is_AddNotification is_CommitTransaction (trace w) = false.
Proof.
  cbv zeta. split; [vm_compute; reflexivity|].
  split; [eexists; vm_compute; reflexivity|vm_compute; reflexivity].
Qed.

End Notification.

(** ** Sequences of requests against one contract *)

Section Sequences.

Import World Shipments.

(** One request, with no other writer, moves the counter of a contract by
    the quantity it ships there if it is approved, and not at all
    otherwise; the threshold stays, and the counter stays under it. *)
Lemma handle_step (env : Env) (req : Request) (l : Ledger.t) (r : Redis.t)
    (key : string) (c : Contract.t) :
  concurrent env = [] ->
  Ledger.findOne l key = Some c ->
  exists c',
    Ledger.findOne (ledger (handle env req l r)) key = Some c'
    /\ Contract.threshold c' = Contract.threshold c
    /\ Contract.batteriesShipped c'
       = Contract.batteriesShipped c
         + (if String.eqb (contractId req) key && approved (response (handle env req l r))
            then batteriesShipped req else 0)
    /\ (Contract.batteriesShipped c <= Contract.threshold c ->
        Contract.batteriesShipped c' <= Contract.threshold c).
Proof.
  intros Hnone Hc. unfold handle.
  pose proof (post_cases env req l r) as H.
  destruct (path env req l r) as [| | |c0|c0|c0|c0 d|c0];
    cbv zeta in H; decompose [and] H; clear H;
    match goal with Hp : post _ _ _ = _ |- _ => rewrite Hp end;
    cbn [snd ledger response]; rewrite ?Hnone, ?replay_nil in *.
  1-5: exists c; rewrite andb_false_r; repeat split; [assumption|lia|lia].
  - (* blocked *)
    cbn [Ledger.replay fold_left]. rewrite !findOne_apply, Hc. cbn [fmap option_fmap option_map].
    eexists. split; [reflexivity|].
    rewrite !effect_threshold, !effect_batteriesShipped, andb_false_r.
    repeat split; lia.
  - (* approved *)
    cbn [Ledger.replay fold_left]. rewrite !findOne_apply, Hc. cbn [fmap option_fmap option_map].
    eexists. split; [reflexivity|].
    rewrite !effect_threshold, !effect_batteriesShipped.
    change (approved (Some (created (new_shipment env req c0 "APPROVED" None) "APPROVED")))
      with true.
    rewrite andb_true_r.
    destruct (String.eqb_spec (contractId req) key) as [E|E].
    + assert (c0 = c) by congruence. subst c0. repeat split; lia.
    + repeat split; lia.
  - (* blocked, and the notification could not be saved *)
    cbn [Ledger.replay fold_left]. rewrite !findOne_apply, Hc. cbn [fmap option_fmap option_map].
    eexists. split; [reflexivity|].
    rewrite !effect_threshold, !effect_batteriesShipped, andb_false_r.
    repeat split; lia.
Qed.

(** C1.  Requests handled one after the other, nobody else writing, against
    a contract with threshold [T] whose [batteriesShipped] starts at
    [S <= T]: the threshold stays [T], the final [batteriesShipped] does not
    exceed [T], and it is [S] plus the quantities of exactly the requests for
    that contract whose outcome is APPROVED. *)
Theorem approved_shipments_respect_threshold (reqs : list (Env * Request))
    (l : Ledger.t) (r : Redis.t) (key : string) (c : Contract.t) :
  Forall (fun er => concurrent (fst er) = []) reqs ->
  Ledger.findOne l key = Some c ->
  Contract.batteriesShipped c <= Contract.threshold c ->
  match run reqs l r with
  | (l', _, out) =>
      exists c',
        Ledger.findOne l' key = Some c'
        /\ Contract.threshold c' = Contract.threshold c
        /\ Contract.batteriesShipped c' <= Contract.threshold c
        /\ Contract.batteriesShipped c'
           = Contract.batteriesShipped c + approved_total key out
  end.
Proof.
  intros Hall. revert l r c.
  induction Hall as [|[env req] reqs Hnone _ IH]; intros l r c Hc Hle.
  - cbn. exists c. repeat split; [assumption|assumption|lia].
  - cbn [run]. cbn [fst] in Hnone.
    destruct (handle_step env req l r key c Hnone Hc) as (c1 & Hc1 & Ht1 & Hb1 & Hle1).
    specialize (IH (ledger (handle env req l r)) (redis (handle env req l r)) c1 Hc1).
    rewrite Ht1 in IH. specialize (IH (Hle1 Hle)).
    destruct (run reqs _ _) as [[l' r'] out].
    destruct IH as (c' & Hc' & Ht' & Hle' & Hb').
    exists c'. cbn [approved_total]. repeat split; [assumption|assumption|assumption|lia].
Qed.

Lemma approved_shipments_respect_threshold_witness :
  match run Sample.day Sample.ledger Sample.idle with
  | (l', _, out) =>
      exists c',
        Ledger.findOne l' "PBR-2024-001" = Some c'
        /\ Contract.threshold c' = Contract.threshold Sample.pbr1
        /\ Contract.batteriesShipped c' <= Contract.threshold Sample.pbr1
        /\ Contract.batteriesShipped c'
           = Contract.batteriesShipped Sample.pbr1 + approved_total "PBR-2024-001" out
  end.
Proof.
  apply (approved_shipments_respect_threshold Sample.day Sample.ledger Sample.idle
           "PBR-2024-001" Sample.pbr1).
  - repeat constructor.
  - reflexivity.
  - cbn. lia.
Defined.

(** The day, run: 30 batteries approved on the first contract, which ends
    locked at 115 of 120. *)
Example day_outcomes :
  match run Sample.day Sample.ledger Sample.idle with
  | (l', _, out) =>
      map (fun o => (http_of (snd o), outcome (snd o), code_of (snd o))) out
      = [ (Some 201, Some "APPROVED", None);
          (Some 201, Some "APPROVED", None);
          (Some 201, Some "APPROVED", None);
          (Some 201, Some "BLOCKED", None);
          (Some 423, None, Some "CONTRACT_LOCKED");
          (Some 400, None, None) ]
      /\ approved_total "PBR-2024-001" out = 30
      /\ (Contract.batteriesShipped <$> Ledger.findOne l' "PBR-2024-001") = Some 115
      /\ (Contract.isLocked <$> Ledger.findOne l' "PBR-2024-001") = Some true
  end.
Proof. vm_compute. repeat split; reflexivity. Qed.

End Sequences.

(** ** More of the lock service: exclusion, expiry, extension *)

Section LockLife.

Import LockService.

Lemma acquired_store now rand r key timeout :
  fst (acquireLock now rand r key timeout) = true ->
  Redis.up r = true
  /\ Redis.get now r key = None
  /\ snd (acquireLock now rand r key timeout)
     = Redis.mk true (<[key := (lockValue now rand, now + timeout)]> (Redis.store r)).
Proof.
  unfold acquireLock, Redis.set_px_nx.
  destruct (Redis.up r) eqn:Hup; [|discriminate].
  destruct (timeout <=? 0); [discriminate|].
  destruct (Redis.get now r key); [discriminate|].
  intros _. repeat split.
Qed.

Lemma acquired_positive now rand r key timeout :
  fst (acquireLock now rand r key timeout) = true -> 0 < timeout.
Proof.
  unfold acquireLock, Redis.set_px_nx.
  destruct (Redis.up r); [|discriminate].
  destruct (Z.leb_spec timeout 0); [discriminate|]. intros _. assumption.
Qed.

Lemma get_after_insert t (store : gmap string (string * Z)) key v expiresAt k :
  Redis.get t (Redis.mk true (<[key := (v, expiresAt)]> store)) k
  = if String.eqb key k
    then (if t <=? expiresAt then Some v else None)
    else Redis.get t (Redis.mk true store) k.
Proof.
  unfold Redis.get. cbn [Redis.store].
  destruct (String.eqb_spec key k) as [->|Hne].
  - rewrite lookup_insert_eq. reflexivity.
  - rewrite lookup_insert_ne by exact Hne. reflexivity.
Qed.

(** X1.  Mutual exclusion.  Once a caller has the lock, and until its time to
    live has run out, the key holds that caller's token and every other
    [acquireLock] on the key is refused and leaves the store as it is. *)
Theorem lock_excludes_until_expiry (now timeout t timeout' : Z) (rand rand' : string)
    (r : Redis.t) (key : string) :
  fst (acquireLock now rand r key timeout) = true ->
  t < now + timeout ->
  let held := snd (acquireLock now rand r key timeout) in
  Redis.get t held key = Some (lockValue now rand)
  /\ acquireLock t rand' held key timeout' = (false, held).
Proof.
  intros Ha Ht held. subst held.
  destruct (acquired_store _ _ _ _ _ Ha) as (_ & _ & ->).
  assert (G : Redis.get t (Redis.mk true
                (<[key := (lockValue now rand, now + timeout)]> (Redis.store r))) key
              = Some (lockValue now rand)).
  { rewrite get_after_insert, String.eqb_refl.
    destruct (Z.leb_spec t (now + timeout)); [reflexivity|lia]. }
  split; [exact G|].
  unfold acquireLock, Redis.set_px_nx. cbn [Redis.up]. rewrite G.
  destruct (timeout' <=? 0); reflexivity.
Qed.

Lemma lock_excludes_until_expiry_witness :
  let held := snd (acquireLock 0 "0.11" Sample.idle Sample.contended_key 10000) in
  Redis.get 9999 held Sample.contended_key = Some (lockValue 0 "0.11")
  /\ acquireLock 9999 "0.22" held Sample.contended_key 10000 = (false, held).
Proof.
  apply (lock_excludes_until_expiry 0 10000 9999 10000 "0.11" "0.22"
           Sample.idle Sample.contended_key); [reflexivity|lia].
Defined.

(** X2.  Self-expiry.  A lock that is never released does not block the key for
    ever: at any instant after the one its time to live runs out at, the
    next [acquireLock] succeeds and the key holds the new caller's token. *)
Theorem expired_lock_can_be_taken (now timeout t timeout' : Z) (rand rand' : string)
    (r : Redis.t) (key : string) :
  fst (acquireLock now rand r key timeout) = true ->
  now + timeout < t ->
  0 < timeout' ->
  let held := snd (acquireLock now rand r key timeout) in
  fst (acquireLock t rand' held key timeout') = true
  /\ Redis.get t (snd (acquireLock t rand' held key timeout')) key
     = Some (lockValue t rand').
Proof.
  intros Ha Ht Hpos held. subst held.
  destruct (acquired_store _ _ _ _ _ Ha) as (_ & _ & ->).
  assert (G : Redis.get t (Redis.mk true
                (<[key := (lockValue now rand, now + timeout)]> (Redis.store r))) key
              = None).
  { rewrite get_after_insert, String.eqb_refl.
    destruct (Z.leb_spec t (now + timeout)); [lia|reflexivity]. }
  unfold acquireLock, Redis.set_px_nx. cbn [Redis.up]. rewrite G.
  destruct (Z.leb_spec timeout' 0); [lia|]. cbn [fst snd Redis.store].
  split; [reflexivity|].
  rewrite get_after_insert, String.eqb_refl.
  destruct (Z.leb_spec t (t + timeout')); [reflexivity|lia].
Qed.

Lemma expired_lock_can_be_taken_witness :
  let held := snd (acquireLock 0 "0.11" Sample.idle Sample.contended_key 10000) in
  fst (acquireLock 10001 "0.22" held Sample.contended_key 10000) = true
  /\ Redis.get 10001 (snd (acquireLock 10001 "0.22" held Sample.contended_key 10000))
       Sample.contended_key
     = Some (lockValue 10001 "0.22").
Proof.
  apply (expired_lock_can_be_taken 0 10000 10001 10000 "0.11" "0.22"
           Sample.idle Sample.contended_key); [reflexivity|lia|lia].
Defined.

(** X3.  Acquire, release, acquire.  After a release the key is free at once
    for the next caller that asks with a positive time to live, whatever
    time to live the released lock had left; taking and releasing a lock
    leaves every other key as it was. *)
Theorem released_lock_can_be_taken (now timeout t t' timeout' : Z) (rand rand' : string)
    (r : Redis.t) (key : string) :
  fst (acquireLock now rand r key timeout) = true ->
  0 < timeout' ->
  let held := snd (acquireLock now rand r key timeout) in
  let free := snd (releaseLock t held key) in
  fst (releaseLock t held key) = true
  /\ fst (acquireLock t' rand' free key timeout') = true
  /\ (forall u k, k <> key -> Redis.get u free k = Redis.get u r k).
Proof.
  intros Ha Hpos held free. subst held free.
  destruct (acquired_store _ _ _ _ _ Ha) as (Hup & _ & ->).
  rewrite releaseLock_up by reflexivity. cbn [fst snd].
  split; [reflexivity|]. split.
  - rewrite acquire_when_free; [apply Z.ltb_lt; exact Hpos|reflexivity|].
    rewrite get_after_delete, String.eqb_refl. reflexivity.
  - intros u k Hne. rewrite get_after_delete.
    destruct (String.eqb_spec key k); [congruence|].
    cbn [Redis.store]. rewrite get_after_insert.
    destruct (String.eqb_spec key k); [congruence|].
    unfold Redis.get. reflexivity.
Qed.

Lemma released_lock_can_be_taken_witness :
  let held := snd (acquireLock 0 "0.11" Sample.busy Sample.contended_key 10000) in
  let free := snd (releaseLock 40 held Sample.contended_key) in
  fst (releaseLock 40 held Sample.contended_key) = true
  /\ fst (acquireLock 41 "0.22" free Sample.contended_key 10000) = true
  /\ (forall u k, k <> Sample.contended_key ->
        Redis.get u free k = Redis.get u Sample.busy k).
Proof.
  apply (released_lock_can_be_taken 0 10000 40 41 10000 "0.11" "0.22"
           Sample.busy Sample.contended_key); [reflexivity|lia].
Defined.

(** X4.  Extension counts whole seconds.  [extendLock] on a key that holds a
    live token with a [timeout] of a second or more makes the key live
    through [now + 1000 * floor (timeout / 1000)]: the milliseconds beyond
    the last whole second are dropped.  A [timeout] under one second ends
    the lock on the spot.  The answer is [true] with a client that hands
    over the number that [EXPIRE] replies; with a client that hands over a
    boolean the answer is [false] although the lock was extended. *)
Theorem extendLock_whole_seconds (booleans : bool) (now timeout t : Z) (r : Redis.t)
    (key token : string) :
  Redis.up r = true ->
  Redis.get now r key = Some token ->
  fst (extendLock booleans now r key timeout) = negb booleans
  /\ Redis.get t (snd (extendLock booleans now r key timeout)) key
     = (if (1000 <=? timeout) && (t <=? now + 1000 * (timeout / 1000))
        then Some token else None)
  /\ (0 <= timeout < 1000 ->
      Redis.get now (snd (extendLock booleans now r key timeout)) key = None).
Proof.
  intros Hup Hlive. unfold extendLock, Redis.expire. rewrite Hup, Hlive.
  cbn [fst snd]. split; [destruct booleans; reflexivity|].
  assert (G : forall u,
            Redis.get u
              (if timeout / 1000 <=? 0 then Redis.mk true (delete key (Redis.store r))
               else Redis.mk true
                      (<[key := (token, now + timeout / 1000 * 1000)]> (Redis.store r)))
              key
            = (if (1000 <=? timeout) && (u <=? now + 1000 * (timeout / 1000))
               then Some token else None)).
  { intros u.
    pose proof (Z.div_mod timeout 1000 ltac:(lia)) as E.
    pose proof (Z.mod_pos_bound timeout 1000 ltac:(lia)) as B.
    destruct (Z.leb_spec (timeout / 1000) 0), (Z.leb_spec 1000 timeout); try lia.
    - rewrite get_after_delete, String.eqb_refl. reflexivity.
    - rewrite get_after_insert, String.eqb_refl. cbn [andb].
      replace (now + timeout / 1000 * 1000) with (now + 1000 * (timeout / 1000)) by lia.
      reflexivity. }
  split; [apply G|].
  intros Hsub. rewrite G.
  destruct (Z.leb_spec 1000 timeout); [lia|reflexivity].
Qed.

Lemma extendLock_whole_seconds_witness :
  fst (extendLock false 6000 Sample.busy "shipment:PBR-2024-002" 2999) = negb false
  /\ Redis.get 8000 (snd (extendLock false 6000 Sample.busy "shipment:PBR-2024-002" 2999))
       "shipment:PBR-2024-002"
     = (if (1000 <=? 2999) && (8000 <=? 6000 + 1000 * (2999 / 1000))
        then Some "5000-0.731" else None)
  /\ (0 <= 2999 < 1000 ->
      Redis.get 6000 (snd (extendLock false 6000 Sample.busy "shipment:PBR-2024-002" 2999))
        "shipment:PBR-2024-002" = None).
Proof.
  apply (extendLock_whole_seconds false 6000 2999 8000 Sample.busy
           "shipment:PBR-2024-002" "5000-0.731"); reflexivity.
Defined.

(** X5.  Nothing to extend.  On a key that holds no live token (never set,
    released or expired) [extendLock] answers [false] and leaves the store
    as it is, whatever the client: an expired lock is not brought back. *)
Theorem extendLock_needs_a_live_lock (booleans : bool) (now timeout : Z) (r : Redis.t)
    (key : string) :
  Redis.get now r key = None ->
  extendLock booleans now r key timeout = (false, r).
Proof.
  intros Hgone. unfold extendLock, Redis.expire. rewrite Hgone.
  destruct (Redis.up r), booleans; reflexivity.
Qed.

Lemma extendLock_needs_a_live_lock_witness :
  Redis.get 15001 Sample.busy "shipment:PBR-2024-002" = None
  /\ extendLock true 15001 Sample.busy "shipment:PBR-2024-002" 10000 = (false, Sample.busy).
Proof.
  split; [reflexivity|].
  apply (extendLock_needs_a_live_lock true 15001 10000 Sample.busy "shipment:PBR-2024-002").
  reflexivity.
Defined.

End LockLife.

(** ** More of the contract model: capacity *)

Section Capacity.

Import Contract.

(** X6.  [canShip] is the capacity test: for a quantity of at least 1, a contract
    can ship it exactly when it is not locked and the quantity does not
    exceed [remainingCapacity]. *)
Theorem canShip_is_capacity (c : Contract.t) (quantity : Z) :
  1 <= quantity ->
  canShip c quantity = negb (isLocked c) && (quantity <=? remainingCapacity c).
Proof.
  intros Hq. unfold canShip, remainingCapacity.
  destruct (isLocked c); [reflexivity|]. cbn [negb andb].
  destruct (Z.leb_spec (batteriesShipped c + quantity) (threshold c)),
           (Z.leb_spec quantity (Z.max 0 (threshold c - batteriesShipped c)));
    try reflexivity; lia.
Qed.

Lemma canShip_is_capacity_witness :
  canShip Sample.pbr2 5 = true /\ canShip Sample.pbr2 6 = false
  /\ remainingCapacity Sample.pbr2 = 5.
Proof.
  rewrite (canShip_is_capacity Sample.pbr2 5) by lia.
  rewrite (canShip_is_capacity Sample.pbr2 6) by lia.
  repeat split.
Defined.

(** X7.  Capacity and status tell the same story: a contract that passes the
    schema validators and is not locked has status EXCEEDED exactly when its
    [remainingCapacity] is 0. *)
Theorem exceeded_is_no_capacity (c : Contract.t) :
  Contract.valid c ->
  isLocked c = false ->
  (status c = "EXCEEDED" <-> remainingCapacity c = 0).
Proof.
  intros (_ & _ & Hth) Hl. rewrite status_integers by lia. rewrite Hl.
  unfold remainingCapacity.
  destruct (Z.leb_spec (threshold c) (batteriesShipped c)).
  - split; [lia|reflexivity].
  - split; [|lia].
    destruct (4 * threshold c <=? 5 * batteriesShipped c); discriminate.
Qed.

Lemma exceeded_is_no_capacity_witness :
  let full := Contract.mk 4 "PBR-2024-004" 10 12 12 false 0 [] in
  status full = "EXCEEDED" /\ remainingCapacity full = 0.
Proof.
  assert (V : Contract.valid (Contract.mk 4 "PBR-2024-004" 10 12 12 false 0 []))
    by (unfold Contract.valid; cbn; lia).
  pose proof (exceeded_is_no_capacity _ V eq_refl) as [_ H].
  split; [apply H; reflexivity|reflexivity].
Defined.

End Capacity.

(** ** More of the shipments handler *)

Section HandlerAlways.

Import World Shipments.

Lemma acquired_up now rand r key timeout :
  fst (LockService.acquireLock now rand r key timeout) = true ->
  Redis.up (snd (LockService.acquireLock now rand r key timeout)) = true.
Proof.
  intros Ha. destruct (acquired_store _ _ _ _ _ Ha) as (_ & _ & ->). reflexivity.
Qed.

Lemma released_free env req r t :
  Redis.up r = true ->
  Redis.up (released env req r) = true
  /\ Redis.get t (released env req r) (lockKey (contractId req)) = None.
Proof.
  intros Hup. unfold released. rewrite (releaseLock_up _ _ _ Hup). cbn [snd].
  split; [reflexivity|]. rewrite get_after_delete, String.eqb_refl. reflexivity.
Qed.

Lemma shipments_apply l w :
  Ledger.shipments (Ledger.apply l w)
  = (Ledger.shipments l ++ match w with Ledger.InsertShipment s => [s] | _ => [] end)%list.
Proof. destruct w; cbn; rewrite ?app_nil_r; reflexivity. Qed.



(** X9.  The lock is never left behind.  A request that was given the lock has
    released it by the time the handler ends, on every path out: the key
    is free at any later instant.  A request that was not given the lock
    leaves the lock store exactly as it found it. *)
Theorem lock_is_never_left_behind (env : Env) (req : Request) (l : Ledger.t)
    (r : Redis.t) :
  let key := lockKey (contractId req) in
  let w := handle env req l r in
  (In (AcquireLock key true) (trace w) -> forall t, Redis.get t (redis w) key = None)
  /\ (~ In (AcquireLock key true) (trace w) -> redis w = r).
Proof.
  intros key w. subst key w. unfold handle.
  pose proof (post_cases env req l r) as H.
  destruct (path env req l r) as [| | |c|c|c|c d|c];
    cbv zeta in H; decompose [and] H; clear H;
    match goal with Hp : post _ _ _ = _ |- _ => rewrite Hp end;
    cbn [snd redis trace].
  1-2: split; [cbn; intros Hin; exfalso; intuition discriminate|reflexivity].
  all: match goal with
       | Ha : fst (LockService.acquireLock _ _ _ _ _) = true |- _ =>
           pose proof (acquired_up _ _ _ _ _ Ha) as Hup
       end;
       fold (taken env req r) in Hup;
       (split; [intros _ t|intros Hn; exfalso; apply Hn; cbn; tauto]).
  1-3: apply released_free; exact Hup.
  all: apply released_free; apply (released_free env req _ 0 Hup).
Qed.

End HandlerAlways.

(** ** The shipments handler: its other answers *)

Section HandlerAnswers.

Import World Shipments.



(** X11.  A request that validation rejects goes no further.  An empty
    [contractId] or a quantity below 1 is answered 400; no transaction is
    opened, the lock is not asked for, and neither store is touched. *)
Theorem invalid_request_goes_no_further (env : Env) (req : Request) (l : Ledger.t)
    (r : Redis.t) :
  contractId req = "" \/ batteriesShipped req < 1 ->
  let w := handle env req l r in
  http_of (response w) = Some 400
  /\ trace w = [StartSession; Respond 400; EndSession]
  /\ transaction w = NoTransaction
  /\ ledger w = l
  /\ redis w = r.
Proof.
  intros Hbad w. subst w.
  assert (Hv : validation_passes req = false).
  { unfold validation_passes, isInt_min1. destruct Hbad as [->|Hq]; [reflexivity|].
    destruct (Z.leb_spec 1 (batteriesShipped req)); [lia|]. apply andb_false_r. }
  pose proof (post_cases env req l r) as H.
  assert (P : path env req l r = Rejected) by (unfold path; rewrite Hv; reflexivity).
  rewrite P in H. destruct H as (_ & H). unfold handle. rewrite H.
  repeat split.
Qed.

Lemma invalid_request_goes_no_further_witness :
  let w := handle Sample.calm (Sample.ship "PBR-2024-001" 0) Sample.ledger Sample.busy in
  http_of (response w) = Some 400
  /\ trace w = [StartSession; Respond 400; EndSession]
  /\ transaction w = NoTransaction
  /\ ledger w = Sample.ledger
  /\ redis w = Sample.busy.
Proof.
  apply (invalid_request_goes_no_further Sample.calm (Sample.ship "PBR-2024-001" 0)
           Sample.ledger Sample.busy).
  right. cbn. lia.
Defined.

(** X12.  An unknown contract.  A valid request that gets the lock and names a
    contract the ledger does not hold is answered 404 [CONTRACT_NOT_FOUND];
    the transaction is aborted, the ledger is as it was and the lock has
    been given back. *)
Theorem unknown_contract_is_not_found (env : Env) (req : Request) (l : Ledger.t)
    (r : Redis.t) :
  validation_passes req = true ->
  Redis.up r = true ->
  Redis.get (now env) r (lockKey (contractId req)) = None ->
  Ledger.findOne l (contractId req) = None ->
  let w := handle env req l r in
  code_of (response w) = Some "CONTRACT_NOT_FOUND"
  /\ http_of (response w) = Some 404
  /\ transaction w = Aborted
  /\ ledger w = l
  /\ Redis.get (now env) (redis w) (lockKey (contractId req)) = None.
Proof.
  intros Hv Hup Hfree Hc w. subst w.
  pose proof (acquire_when_free (now env) (rand env) r (lockKey (contractId req)) 10000
                Hup Hfree) as Ha.
  pose proof (post_cases env req l r) as H.
  assert (P : path env req l r = NotFound).
  { unfold path. rewrite Hv, Ha, Hc. reflexivity. }
  rewrite P in H. destruct H as (_ & _ & _ & H). unfold handle. rewrite H.
  cbn [snd response transaction ledger redis code_of http_of error_response code http].
  repeat split.
  apply released_free. apply acquired_up. exact Ha.
Qed.

Lemma unknown_contract_is_not_found_witness :
  let w := handle Sample.calm (Sample.ship "PBR-2024-999" 4) Sample.ledger Sample.idle in
  code_of (response w) = Some "CONTRACT_NOT_FOUND"
  /\ http_of (response w) = Some 404
  /\ transaction w = Aborted
  /\ ledger w = Sample.ledger
  /\ Redis.get 6000 (redis w) "shipment:PBR-2024-999" = None.
Proof.
  apply (unknown_contract_is_not_found Sample.calm (Sample.ship "PBR-2024-999" 4)
           Sample.ledger Sample.idle); reflexivity.
Defined.

(** X13.  An unreachable lock store looks like contention.  When the Redis client
    throws, [acquireLock] swallows the error and answers [false], so a valid
    request is told 423 [CONCURRENT_SHIPMENT] although nobody holds the
    lock; the ledger is not touched. *)
Theorem unreachable_lock_store_reads_as_contention (env : Env) (req : Request)
    (l : Ledger.t) (r : Redis.t) :
  validation_passes req = true ->
  Redis.up r = false ->
  let w := handle env req l r in
  code_of (response w) = Some "CONCURRENT_SHIPMENT"
  /\ http_of (response w) = Some 423
  /\ ledger w = l
  /\ redis w = r.
Proof.
  intros Hv Hdown w. subst w.
  assert (Ha : fst (LockService.acquireLock (now env) (rand env) r
                      (lockKey (contractId req)) 10000) = false).
  { unfold LockService.acquireLock, Redis.set_px_nx. rewrite Hdown. reflexivity. }
  pose proof (post_cases env req l r) as H.
  assert (P : path env req l r = Contended).
  { unfold path. rewrite Hv, Ha. reflexivity. }
  rewrite P in H. destruct H as (_ & _ & H). unfold handle. rewrite H.
  repeat split.
Qed.

Lemma unreachable_lock_store_reads_as_contention_witness :
  let down := Redis.mk false (Redis.store Sample.idle) in
  let w := handle Sample.calm (Sample.ship "PBR-2024-001" 10) Sample.ledger down in
  Redis.get 6000 down "shipment:PBR-2024-001" = None
  /\ code_of (response w) = Some "CONCURRENT_SHIPMENT"
  /\ http_of (response w) = Some 423
  /\ ledger w = Sample.ledger
  /\ redis w = down.
Proof.
  cbv zeta. split; [reflexivity|].
  apply (unreachable_lock_store_reads_as_contention Sample.calm
           (Sample.ship "PBR-2024-001" 10) Sample.ledger
           (Redis.mk false (Redis.store Sample.idle))); reflexivity.
Defined.

(** X14.  The threshold itself can be reached.  A shipment that brings
    [batteriesShipped] to exactly [threshold] is approved, not blocked;
    the contract is left unlocked, full, and its derived status is
    EXCEEDED. *)
Theorem filling_shipment_is_approved (env : Env) (req : Request) (l : Ledger.t)
    (r : Redis.t) (c : Contract.t) :
  validation_passes req = true ->
  Redis.up r = true ->
  Redis.get (now env) r (lockKey (contractId req)) = None ->
  concurrent env = [] ->
  Ledger.findOne l (contractId req) = Some c ->
  Contract.isLocked c = false ->
  0 <= Contract.batteriesShipped c ->
  Contract.batteriesShipped c + batteriesShipped req = Contract.threshold c ->
  let w := handle env req l r in
  outcome (response w) = Some "APPROVED"
  /\ exists c',
       Ledger.findOne (ledger w) (contractId req) = Some c'
       /\ Contract.batteriesShipped c' = Contract.threshold c'
       /\ Contract.isLocked c' = false
       /\ Contract.remainingCapacity c' = 0
       /\ Contract.status c' = "EXCEEDED".
Proof.
  intros Hv Hup Hfree Hnone Hc Hl Hbs Hfill w. subst w.
  pose proof (acquire_when_free (now env) (rand env) r (lockKey (contractId req)) 10000
                Hup Hfree) as Ha.
  assert (Hq : 1 <= batteriesShipped req).
  { unfold validation_passes in Hv. apply andb_prop in Hv. destruct Hv as [_ Hv].
    apply isInt_min1_bounds in Hv. lia. }
  pose proof (post_cases env req l r) as H.
  assert (P : path env req l r = Approved c c).
  { unfold path. rewrite Hv, Ha, Hc, Hl, Hnone, replay_nil, Hc. cbn [negb fst].
    destruct (Z.gtb_spec (Contract.batteriesShipped c + batteriesShipped req)
                (Contract.threshold c)); [lia|].
    unfold shipBatteries_filter. rewrite Z.eqb_refl, Hl. cbn [negb andb].
    destruct (Z.leb_spec (Contract.batteriesShipped c + batteriesShipped req)
                (Contract.threshold c)); [reflexivity|lia]. }
  rewrite P in H. cbv zeta in H. decompose [and] H; clear H.
  unfold handle.
  match goal with Hp : post _ _ _ = _ |- _ => rewrite Hp end.
  cbn [snd response ledger]. rewrite Hnone, replay_nil.
  split; [reflexivity|].
  cbn [Ledger.replay fold_left]. rewrite !findOne_apply, Hc.
  cbn [fmap option_fmap option_map Ledger.effect]. rewrite String.eqb_refl.
  eexists. split; [reflexivity|].
  cbn [id Ledger.inc_shipped Contract.batteriesShipped Contract.threshold Contract.isLocked].
  split; [exact Hfill|]. split; [exact Hl|].
  split.
  - unfold Contract.remainingCapacity, Ledger.inc_shipped.
    cbn [Contract.batteriesShipped Contract.threshold]. lia.
  - unfold Ledger.inc_shipped.
    rewrite status_integers by (cbn [Contract.threshold]; lia).
    cbn [Contract.batteriesShipped Contract.threshold Contract.isLocked]. rewrite Hl.
    destruct (Z.leb_spec (Contract.threshold c)
                (Contract.batteriesShipped c + batteriesShipped req)); [reflexivity|lia].
Qed.

Lemma filling_shipment_is_approved_witness :
  let w := handle Sample.calm (Sample.ship "PBR-2024-002" 5) Sample.ledger Sample.idle in
  outcome (response w) = Some "APPROVED"
  /\ exists c',
       Ledger.findOne (ledger w) "PBR-2024-002" = Some c'
       /\ Contract.batteriesShipped c' = Contract.threshold c'
       /\ Contract.isLocked c' = false
       /\ Contract.remainingCapacity c' = 0
       /\ Contract.status c' = "EXCEEDED".
Proof.
  apply (filling_shipment_is_approved Sample.calm (Sample.ship "PBR-2024-002" 5)
           Sample.ledger Sample.idle Sample.pbr2); try reflexivity.
  cbn. lia.
Defined.

(** X31.  A blocked request of a user without an email is never answered.
    A valid request that gets the lock and would exceed the threshold of an
    unlocked contract is committed as a BLOCKED shipment and locks the
    contract; when the [email] of the user is blank, the notification
    cannot be saved after that, the [catch] fails on [abortTransaction]
    (the transaction is committed), and the handler ends with that
    exception and without a response.  The lock has been released, the
    session ended, and the contract carries no new notification. *)
Theorem blocked_request_without_email_is_unanswered (env : Env) (req : Request)
    (l : Ledger.t) (r : Redis.t) (c : Contract.t) (t : Z) :
  validation_passes req = true ->
  blank (email (user req)) = true ->
  Redis.up r = true ->
  Redis.get (now env) r (lockKey (contractId req)) = None ->
  concurrent env = [] ->
  Ledger.findOne l (contractId req) = Some c ->
  Contract.isLocked c = false ->
  Contract.threshold c < Contract.batteriesShipped c + batteriesShipped req ->
  let w := handle env req l r in
  fst (post env req (World.mk l NoTransaction r [] None))
  = Thrown "Cannot call abortTransaction after calling commitTransaction"
  /\ response w = None
  /\ transaction w = Committed
  /\ last (trace w) = Some EndSession
  /\ Redis.get t (redis w) (lockKey (contractId req)) = None
  /\ (exists s, last (Ledger.shipments (ledger w)) = Some s
                /\ Shipment.status s = "BLOCKED"
                /\ Shipment.contractId s = contractId req)
  /\ Ledger.findOne (ledger w) (contractId req)
     = Some (Ledger.set_locked true (now env) c).
Proof.
  intros Hv Hmail Hup Hfree Hnone Hc Hl Hx w.
  pose proof (acquire_when_free (now env) (rand env) r (lockKey (contractId req)) 10000
                Hup Hfree) as Ha.
  pose proof (post_cases env req l r) as H.
  assert (P : path env req l r = Unanswered c).
  { unfold path. rewrite Hv, Ha, Hc, Hl, Hmail. cbn [negb fst].
    destruct (Z.gtb_spec (Contract.batteriesShipped c + batteriesShipped req)
                (Contract.threshold c)); [reflexivity|lia]. }
  rewrite P in H. cbv zeta in H. destruct H as (_ & Ha' & _ & _ & _ & _ & H).
  subst w. unfold handle. rewrite H. cbn [fst snd response transaction trace redis ledger].
  rewrite Hnone, replay_nil. cbn [Ledger.replay fold_left].
  split; [reflexivity|]. split; [reflexivity|]. split; [reflexivity|].
  split; [reflexivity|].
  pose proof (acquired_up _ _ _ _ _ Ha') as Hup'. fold (taken env req r) in Hup'.
  split.
  { apply released_free. apply (released_free env req _ 0 Hup'). }
  split.
  { rewrite !shipments_apply. eexists. split; [apply last_snoc|].
    split; reflexivity. }
  rewrite !findOne_apply, Hc. cbn [fmap option_fmap option_map Ledger.effect].
  rewrite String.eqb_refl. reflexivity.
Qed.

Lemma blocked_request_without_email_is_unanswered_witness :
  let req := mkRequest "PBR-2024-002" 10 None Scenario.carol in
  let w := handle Sample.calm req Sample.ledger Sample.idle in
  fst (post Sample.calm req (World.mk Sample.ledger NoTransaction Sample.idle [] None))
  = Thrown "Cannot call abortTransaction after calling commitTransaction"
  /\ response w = None
  /\ transaction w = Committed
  /\ last (trace w) = Some EndSession
  /\ Redis.get 6001 (redis w) (lockKey (contractId req)) = None
  /\ (exists s, last (Ledger.shipments (ledger w)) = Some s
                /\ Shipment.status s = "BLOCKED"
                /\ Shipment.contractId s = contractId req)
  /\ Ledger.findOne (ledger w) (contractId req)
     = Some (Ledger.set_locked true (now Sample.calm) Sample.pbr2).
Proof.
  apply (blocked_request_without_email_is_unanswered Sample.calm
           (mkRequest "PBR-2024-002" 10 None Scenario.carol)
           Sample.ledger Sample.idle Sample.pbr2 6001); reflexivity.
Defined.

End HandlerAnswers.

(** ** The shipments handler: what a lock means for later requests *)

Section Locked.

Import World Shipments.

Lemma effect_other_key w key c :
  match w with
  | Ledger.SetLocked k _ _ | Ledger.IncShipped k _ _ | Ledger.PushNotification k _ _ =>
      String.eqb k key = false
  | Ledger.InsertShipment _ => True
  end ->
  Ledger.effect w key c = c.
Proof. destruct w; cbn [Ledger.effect]; intros H; rewrite ?H; reflexivity. Qed.

(** One request against a ledger in which the contract under [key] is
    locked, nobody else writing: the contract is left exactly as it is and
    the request, if it names that contract, is not approved. *)
Lemma locked_step (env : Env) (req : Request) (l : Ledger.t) (r : Redis.t)
    (key : string) (c : Contract.t) :
  concurrent env = [] ->
  Ledger.findOne l key = Some c ->
  Contract.isLocked c = true ->
  Ledger.findOne (ledger (handle env req l r)) key = Some c
  /\ (String.eqb (contractId req) key && approved (response (handle env req l r))) = false.
Proof.
  intros Hnone Hc Hl. unfold handle.
  pose proof (post_cases env req l r) as H.
  destruct (path env req l r) as [| | |c0|c0|c0|c0 d|c0];
    cbv zeta in H; decompose [and] H; clear H;
    match goal with Hp : post _ _ _ = _ |- _ => rewrite Hp end;
    cbn [snd ledger response]; rewrite ?Hnone, ?replay_nil in *.
  1-5: split; [assumption|apply andb_false_r].
  - (* blocked *)
    split; [|apply andb_false_r].
    destruct (String.eqb_spec (contractId req) key) as [E|E]; [congruence|].
    apply String.eqb_neq in E.
    cbn [Ledger.replay fold_left]. rewrite !findOne_apply, Hc.
    cbn [fmap option_fmap option_map].
    rewrite !effect_other_key by (exact E || exact I). reflexivity.
  - (* approved *)
    destruct (String.eqb_spec (contractId req) key) as [E|E]; [congruence|].
    split; [|reflexivity].
    apply String.eqb_neq in E.
    cbn [Ledger.replay fold_left]. rewrite !findOne_apply, Hc.
    cbn [fmap option_fmap option_map].
    rewrite !effect_other_key by (exact E || exact I). reflexivity.
  - (* blocked, and the notification could not be saved *)
    split; [|apply andb_false_r].
    destruct (String.eqb_spec (contractId req) key) as [E|E]; [congruence|].
    apply String.eqb_neq in E.
    cbn [Ledger.replay fold_left]. rewrite !findOne_apply, Hc.
    cbn [fmap option_fmap option_map].
    rewrite !effect_other_key by (exact E || exact I). reflexivity.
Qed.

(** X16.  A locked contract stays as it is.  Whatever requests follow one another
    (for this contract or others, valid or not), with nobody else writing:
    the locked contract is found unchanged at the end, counters and lock
    included, and none of the requests for it was approved. *)
Theorem locked_contract_absorbs_requests (reqs : list (Env * Request))
    (l : Ledger.t) (r : Redis.t) (key : string) (c : Contract.t) :
  Forall (fun er => concurrent (fst er) = []) reqs ->
  Ledger.findOne l key = Some c ->
  Contract.isLocked c = true ->
  match run reqs l r with
  | (l', _, out) =>
      Ledger.findOne l' key = Some c /\ approved_total key out = 0
  end.
Proof.
  intros Hall. revert l r.
  induction Hall as [|[env req] reqs Hnone _ IH]; intros l r Hc Hl.
  - cbn. split; [assumption|reflexivity].
  - cbn [run]. cbn [fst] in Hnone.
    destruct (locked_step env req l r key c Hnone Hc Hl) as (Hc1 & Hno).
    specialize (IH (ledger (handle env req l r)) (redis (handle env req l r)) Hc1 Hl).
    destruct (run reqs _ _) as [[l' r'] out].
    destruct IH as (Hc' & Hsum).
    split; [exact Hc'|]. cbn [approved_total]. rewrite Hno, Hsum. reflexivity.
Qed.

Lemma locked_contract_absorbs_requests_witness :
  match run Scenario.knocking Sample.ledger Sample.idle with
  | (l', _, out) =>
      Ledger.findOne l' "PBR-2024-003" = Some Sample.pbr3
      /\ approved_total "PBR-2024-003" out = 0
  end.
Proof.
  apply (locked_contract_absorbs_requests Scenario.knocking Sample.ledger Sample.idle
           "PBR-2024-003" Sample.pbr3).
  - repeat constructor.
  - reflexivity.
  - reflexivity.
Defined.

(** X17.  After the block comes the lock.  Once a request has been answered
    BLOCKED, the next valid request for the same contract finds the lock key
    free again and the contract locked: it is answered [CONTRACT_LOCKED], and
    it changes nothing. *)
Theorem blocked_then_locked (env1 env2 : Env) (req1 req2 : Request)
    (l : Ledger.t) (r : Redis.t) :
  outcome (response (handle env1 req1 l r)) = Some "BLOCKED" ->
  contractId req2 = contractId req1 ->
  validation_passes req2 = true ->
  let w1 := handle env1 req1 l r in
  let w2 := handle env2 req2 (ledger w1) (redis w1) in
  code_of (response w2) = Some "CONTRACT_LOCKED"
  /\ http_of (response w2) = Some 423
  /\ ledger w2 = ledger w1.
Proof.
  intros Hb Hsame Hv w1 w2.
  destruct (blocked_outcome_path env1 req1 l r Hb) as (c & P).
  pose proof (post_cases env1 req1 l r) as H. rewrite P in H. cbv zeta in H.
  destruct H as (_ & Ha & Hc & _ & _ & _ & H).
  assert (E1 : w1 = snd (post env1 req1 (World.mk l NoTransaction r [] None)))
    by reflexivity.
  rewrite H in E1. cbn [snd] in E1.
  destruct (findOne_replay_Some (concurrent env1) l (contractId req1) c Hc) as (d & Hd & _).
  pose proof (acquired_up _ _ _ _ _ Ha) as Hup. fold (taken env1 req1 r) in Hup.
  destruct (released_free env1 req1 _ 0 Hup) as (Hup1 & _).
  assert (Hup2 : Redis.up (redis w1) = true).
  { rewrite E1. cbn [redis]. apply (released_free env1 req1 _ 0 Hup1). }
  assert (Hfree : Redis.get (now env2) (redis w1) (lockKey (contractId req2)) = None).
  { rewrite E1, Hsame. cbn [redis]. apply (released_free env1 req1 _ _ Hup1). }
  assert (Hc2 : exists c', Ledger.findOne (ledger w1) (contractId req2) = Some c'
                           /\ Contract.isLocked c' = true).
  { rewrite E1, Hsame. cbn [ledger]. eexists. split.
    - apply (blocked_contract env1 req1 (Ledger.replay l (concurrent env1)) d). exact Hd.
    - reflexivity. }
  destruct Hc2 as (c' & Hc' & Hl').
  pose proof (post_cases env2 req2 (ledger w1) (redis w1)) as H2.
  assert (P2 : path env2 req2 (ledger w1) (redis w1) = Locked c').
  { unfold path.
    rewrite Hv, (acquire_when_free _ _ _ _ _ Hup2 Hfree), Hc', Hl'. reflexivity. }
  rewrite P2 in H2. destruct H2 as (_ & _ & _ & _ & H2).
  subst w2. unfold handle at 1 2 3. rewrite H2. repeat split.
Qed.

Lemma blocked_then_locked_witness :
  let w1 := handle Sample.calm (Sample.ship "PBR-2024-002" 10) Sample.ledger Sample.idle in
  let w2 := handle Scenario.later (Sample.ship "PBR-2024-002" 1) (ledger w1) (redis w1) in
  code_of (response w2) = Some "CONTRACT_LOCKED"
  /\ http_of (response w2) = Some 423
  /\ ledger w2 = ledger w1.
Proof.
  apply (blocked_then_locked Sample.calm Scenario.later
           (Sample.ship "PBR-2024-002" 10) (Sample.ship "PBR-2024-002" 1)
           Sample.ledger Sample.idle); reflexivity.
Defined.

End Locked.

(** ** The contracts route: creating and locking *)

Section ContractsRoute.

Import Contracts.

Lemma isInt_min1_inv v : isInt_min1 v = true -> exists n, v = Some n /\ 1 <= n.
Proof.
  destruct v as [n|]; [|discriminate]. cbn [isInt_min1]. intros H. exists n.
  split; [reflexivity|]. apply isInt_min1_bounds in H. lia.
Qed.

Lemma create_valid_inv b :
  create_valid b = true ->
  exists dc th, deviceCount b = Some dc /\ threshold b = Some th /\ 1 <= dc /\ 1 <= th.
Proof.
  unfold create_valid. intros H.
  apply andb_prop in H. destruct H as [H Hth].
  apply andb_prop in H. destruct H as [H Hdc].
  destruct (isInt_min1_inv _ Hdc) as (dc & -> & ?).
  destruct (isInt_min1_inv _ Hth) as (th & -> & ?).
  exists dc, th. repeat split; assumption.
Qed.

Lemma findOne_insert l key c k :
  Contract.contractId c = key ->
  Ledger.findOne (Ledger.mk (<[key := c]> (Ledger.contracts l)) (Ledger.shipments l)) k
  = if String.eqb key k then Some c else Ledger.findOne l k.
Proof.
  intros Hid. unfold Ledger.findOne. cbn [Ledger.contracts].
  destruct (String.eqb_spec key k) as [<-|Hne].
  - rewrite lookup_insert_eq, Hid, String.eqb_refl. reflexivity.
  - rewrite lookup_insert_ne by exact Hne. reflexivity.
Qed.

(** X18.  A new contract starts empty and open.  A body that passes the
    validators of the route and whose [priority], if it has one, is a value
    of the schema's [enum], under an id that the collection does not hold,
    is answered 201; the contract can be found under its id, with
    [batteriesShipped] 0, the threshold of the body, not locked; it passes
    the schema validators and its status is ACTIVE. *)
Theorem created_contract_starts_active (now newId : Z) (b : CreateBody) (l : Ledger.t) :
  create_valid b = true ->
  schema_valid b = true ->
  Ledger.contracts l !! contractId b = None ->
  exists c,
    snd (create now newId b l)
    = mkReply 201 None (Some "Contract created successfully") (Some c) ["contract:created"]
    /\ Ledger.findOne (fst (create now newId b l)) (contractId b) = Some c
    /\ Contract.batteriesShipped c = 0
    /\ Some (Contract.threshold c) = threshold b
    /\ Some (Contract.deviceCount c) = deviceCount b
    /\ Contract.isLocked c = false
    /\ Contract.valid c
    /\ Contract.status c = "ACTIVE".
Proof.
  intros Hv Hs Hfree.
  destruct (create_valid_inv b Hv) as (dc & th & Hdc & Hth & Hdc1 & Hth1).
  assert (Hnone : Ledger.findOne l (contractId b) = None)
    by (unfold Ledger.findOne; rewrite Hfree; reflexivity).
  unfold create. rewrite Hv, Hnone, Hs, Hfree, Hdc, Hth. cbn [negb default fst snd].
  assert (Et : threshold_or_default th dc = th).
  { unfold threshold_or_default. destruct (Z.eqb_spec th 0); [lia|reflexivity]. }
  eexists. split; [reflexivity|].
  split; [rewrite findOne_insert by reflexivity; rewrite String.eqb_refl; reflexivity|].
  unfold new_contract, id. rewrite Et.
  cbn [Contract.batteriesShipped Contract.threshold Contract.deviceCount Contract.isLocked].
  repeat split; try reflexivity; try (cbn; lia).
  rewrite status_integers by (cbn; lia).
  cbn [Contract.batteriesShipped Contract.threshold Contract.isLocked].
  destruct (Z.leb_spec th 0); [lia|].
  destruct (Z.leb_spec (4 * th) (5 * 0)); [lia|reflexivity].
Qed.

Lemma created_contract_starts_active_witness :
  let b := mkCreateBody "PBR-2024-007" (Some 40) (Some 48) (Some "LOW") in
  exists c,
    snd (create 100 7 b Sample.ledger)
    = mkReply 201 None (Some "Contract created successfully") (Some c) ["contract:created"]
    /\ Ledger.findOne (fst (create 100 7 b Sample.ledger)) (contractId b) = Some c
    /\ Contract.batteriesShipped c = 0
    /\ Some (Contract.threshold c) = threshold b
    /\ Some (Contract.deviceCount c) = deviceCount b
    /\ Contract.isLocked c = false
    /\ Contract.valid c
    /\ Contract.status c = "ACTIVE".
Proof.
  apply (created_contract_starts_active 100 7
           (mkCreateBody "PBR-2024-007" (Some 40) (Some 48) (Some "LOW")) Sample.ledger); reflexivity.
Defined.

(** X19.  Creating never touches what is there.  Whatever the body, a contract
    that the ledger holds is found unchanged after [POST /], and the
    shipments are as they were; a body that names an existing contract is
    answered 409 [CONTRACT_EXISTS]. *)
Theorem create_never_overwrites (now newId : Z) (b : CreateBody) (l : Ledger.t)
    (key : string) (c : Contract.t) :
  Ledger.findOne l key = Some c ->
  Ledger.findOne (fst (create now newId b l)) key = Some c
  /\ Ledger.shipments (fst (create now newId b l)) = Ledger.shipments l
  /\ (create_valid b = true -> key = contractId b ->
      create now newId b l = (l, mkReply 409 (Some "CONTRACT_EXISTS") None None [])).
Proof.
  intros Hc. unfold create.
  destruct (create_valid b) eqn:Hv; cbn [negb].
  2:{ split; [exact Hc|split; [reflexivity|discriminate]]. }
  destruct (Ledger.findOne l (contractId b)) as [c0|] eqn:H0.
  { split; [exact Hc|split; [reflexivity|intros _ _; reflexivity]]. }
  destruct (schema_valid b); cbn [negb].
  2:{ split; [exact Hc|split; [reflexivity|intros _ E; congruence]]. }
  destruct (Ledger.contracts l !! contractId b) eqn:Hk.
  { split; [exact Hc|split; [reflexivity|intros _ E; congruence]]. }
  cbn [fst Ledger.shipments]. split; [|split; [reflexivity|intros _ E; congruence]].
  rewrite findOne_insert by reflexivity.
  destruct (String.eqb_spec (contractId b) key) as [E|E]; [congruence|exact Hc].
Qed.

Lemma create_never_overwrites_witness :
  let b := mkCreateBody "PBR-2024-002" (Some 500) (Some 600) None in
  Ledger.findOne (fst (create 100 7 b Sample.ledger)) "PBR-2024-002" = Some Sample.pbr2
  /\ Ledger.shipments (fst (create 100 7 b Sample.ledger)) = Ledger.shipments Sample.ledger
  /\ (create_valid b = true -> "PBR-2024-002" = contractId b ->
      create 100 7 b Sample.ledger
      = (Sample.ledger, mkReply 409 (Some "CONTRACT_EXISTS") None None [])).
Proof.
  apply (create_never_overwrites 100 7 (mkCreateBody "PBR-2024-002" (Some 500) (Some 600) None)
           Sample.ledger "PBR-2024-002" Sample.pbr2).
  reflexivity.
Defined.



(** An unknown contract cannot be locked: 404, and the ledger is as it
    was. *)
Lemma lock_route_unknown_contract now user contractId b l :
  Ledger.findOne l contractId = None ->
  toggleLock now user contractId b l
  = (l, mkReply 404 (Some "CONTRACT_NOT_FOUND") None None []).
Proof. intros H. unfold toggleLock. rewrite H. reflexivity. Qed.



End ContractsRoute.

(** ** The routes together: what every reachable ledger satisfies *)

Section Reachable.

Import World Shipments.

Lemma effect_deviceCount w key c :
  Contract.deviceCount (Ledger.effect w key c) = Contract.deviceCount c.
Proof.
  destruct w; cbn [Ledger.effect]; try reflexivity;
    destruct (String.eqb _ _); reflexivity.
Qed.

Lemma findOne_apply_inv l w key c' :
  Ledger.findOne (Ledger.apply l w) key = Some c' ->
  exists c, Ledger.findOne l key = Some c /\ c' = Ledger.effect w key c.
Proof.
  rewrite findOne_apply. destruct (Ledger.findOne l key) as [c|]; [|discriminate].
  cbn. intros [= <-]. exists c. split; reflexivity.
Qed.

(** A write that is not an increment keeps a contract valid and within its
    threshold. *)
Lemma effect_keeps_within w key c :
  match w with Ledger.IncShipped _ _ _ => False | _ => True end ->
  Contract.valid c /\ Contract.batteriesShipped c <= Contract.threshold c ->
  Contract.valid (Ledger.effect w key c)
  /\ Contract.batteriesShipped (Ledger.effect w key c)
     <= Contract.threshold (Ledger.effect w key c).
Proof.
  intros Hw (Hv & Hle). unfold Contract.valid.
  rewrite effect_deviceCount, effect_threshold, effect_batteriesShipped.
  destruct w; try contradiction; unfold Contract.valid in Hv; lia.
Qed.

Lemma approved_is_valid env req l r :
  approved (response (handle env req l r)) = true -> 1 <= batteriesShipped req.
Proof.
  unfold handle. pose proof (post_cases env req l r) as H.
  destruct (path env req l r) as [| | |c|c|c|c d|c];
    cbv zeta in H; decompose [and] H; clear H;
    match goal with Hp : post _ _ _ = _ |- _ => rewrite Hp end;
    cbn; try discriminate.
  intros _.
  match goal with Hv : validation_passes req = true |- _ =>
    unfold validation_passes in Hv; apply andb_prop in Hv; destruct Hv as [_ Hv];
    apply isInt_min1_bounds in Hv; lia
  end.
Qed.

Lemma handle_found_before env req l r key c' :
  concurrent env = [] ->
  Ledger.findOne (ledger (handle env req l r)) key = Some c' ->
  exists c, Ledger.findOne l key = Some c.
Proof.
  intros Hnone. unfold handle. pose proof (post_cases env req l r) as H.
  destruct (path env req l r) as [| | |c|c|c|c d|c];
    cbv zeta in H; decompose [and] H; clear H;
    match goal with Hp : post _ _ _ = _ |- _ => rewrite Hp end;
    cbn [snd ledger]; rewrite ?Hnone, ?replay_nil; intros Hc'; eauto.
  - cbn [Ledger.replay fold_left] in Hc'.
    apply findOne_apply_inv in Hc'. destruct Hc' as (c1 & Hc1 & _).
    apply findOne_apply_inv in Hc1. destruct Hc1 as (c2 & Hc2 & _).
    apply findOne_apply_inv in Hc2. destruct Hc2 as (c3 & Hc3 & _). eauto.
  - cbn [Ledger.replay fold_left] in Hc'.
    apply findOne_apply_inv in Hc'. destruct Hc' as (c1 & Hc1 & _).
    apply findOne_apply_inv in Hc1. destruct Hc1 as (c2 & Hc2 & _). eauto.
  - cbn [Ledger.replay fold_left] in Hc'.
    apply findOne_apply_inv in Hc'. destruct Hc' as (c1 & Hc1 & _).
    apply findOne_apply_inv in Hc1. destruct Hc1 as (c2 & Hc2 & _). eauto.
Qed.

Lemma handle_deviceCount env req l r key c c' :
  concurrent env = [] ->
  Ledger.findOne l key = Some c ->
  Ledger.findOne (ledger (handle env req l r)) key = Some c' ->
  Contract.deviceCount c' = Contract.deviceCount c.
Proof.
  intros Hnone Hc. unfold handle. pose proof (post_cases env req l r) as H.
  destruct (path env req l r) as [| | |c0|c0|c0|c0 d|c0];
    cbv zeta in H; decompose [and] H; clear H;
    match goal with Hp : post _ _ _ = _ |- _ => rewrite Hp end;
    cbn [snd ledger]; rewrite ?Hnone, ?replay_nil; intros Hc'; try congruence.
  - cbn [Ledger.replay fold_left] in Hc'. rewrite !findOne_apply, Hc in Hc'.
    cbn [fmap option_fmap option_map] in Hc'. injection Hc' as Hc'. subst c'.
    destruct (String.eqb (contractId req) key); reflexivity.
  - cbn [Ledger.replay fold_left] in Hc'. rewrite !findOne_apply, Hc in Hc'.
    cbn [fmap option_fmap option_map] in Hc'. injection Hc' as Hc'. subst c'.
    destruct (String.eqb (contractId req) key); reflexivity.
  - cbn [Ledger.replay fold_left] in Hc'. rewrite !findOne_apply, Hc in Hc'.
    cbn [fmap option_fmap option_map] in Hc'. injection Hc' as Hc'. subst c'.
    destruct (String.eqb (contractId req) key); reflexivity.
Qed.

Lemma handle_keeps_within env req l r :
  concurrent env = [] ->
  Contracts.within_threshold l ->
  Contracts.within_threshold (ledger (handle env req l r)).
Proof.
  intros Hnone Hin key c' Hc'.
  destruct (handle_found_before env req l r key c' Hnone Hc') as (c & Hc).
  destruct (Hin key c Hc) as ((Hdc & Hbs & Hth) & Hle).
  destruct (handle_step env req l r key c Hnone Hc) as (c1 & Hc1 & Ht & Hb & Hk).
  assert (c1 = c') by congruence. subst c1.
  pose proof (handle_deviceCount env req l r key c c' Hnone Hc Hc') as Hd.
  assert (Hq : 0 <= (if String.eqb (contractId req) key
                          && approved (response (handle env req l r))
                     then batteriesShipped req else 0)).
  { destruct (String.eqb (contractId req) key); cbn [andb]; [|lia].
    destruct (approved (response (handle env req l r))) eqn:Ha; [|lia].
    pose proof (approved_is_valid env req l r Ha). lia. }
  specialize (Hk Hle). unfold Contract.valid. rewrite Hd, Ht. lia.
Qed.

Lemma create_keeps_within now newId b l :
  Contracts.within_threshold l ->
  Contracts.within_threshold (fst (Contracts.create now newId b l)).
Proof.
  intros Hin key c'. unfold Contracts.create.
  destruct (Contracts.create_valid b) eqn:Hv; cbn [negb]; [|apply Hin].
  destruct (Ledger.findOne l (Contracts.contractId b)); [apply Hin|].
  destruct (Contracts.schema_valid b); cbn [negb]; [|apply Hin].
  destruct (Ledger.contracts l !! Contracts.contractId b); [apply Hin|].
  cbn [fst]. rewrite findOne_insert by reflexivity.
  destruct (String.eqb (Contracts.contractId b) key); [|apply Hin].
  intros [= <-].
  destruct (create_valid_inv b Hv) as (dc & th & -> & -> & Hdc & Hth).
  unfold Contracts.new_contract, Contracts.threshold_or_default, Contract.valid.
  cbn [default id Contract.deviceCount Contract.batteriesShipped Contract.threshold].
  destruct (Z.eqb_spec th 0); lia.
Qed.

Lemma toggleLock_keeps_within now user contractId b l :
  Contracts.within_threshold l ->
  Contracts.within_threshold (fst (Contracts.toggleLock now user contractId b l)).
Proof.
  intros Hin key c'. unfold Contracts.toggleLock.
  destruct (Ledger.findOne l contractId); [|apply Hin].
  cbn [fst]. intros Hc'.
  apply findOne_apply_inv in Hc'. destruct Hc' as (c1 & Hc1 & ->).
  apply findOne_apply_inv in Hc1. destruct Hc1 as (c2 & Hc2 & ->).
  apply effect_keeps_within; [exact I|].
  apply effect_keeps_within; [exact I|]. apply (Hin key c2 Hc2).
Qed.

(** X22.  No contract is ever over its threshold.  Starting from a ledger whose
    contracts are valid and within their thresholds (the empty ledger is
    one), whatever contracts are created, whatever shipments are requested
    one after the other and however the lock route is used, every contract
    of the ledger still passes the schema validators and has
    [batteriesShipped <= threshold]. *)
Theorem reachable_ledgers_are_within_threshold (ops : list Contracts.Op)
    (l : Ledger.t) (r : Redis.t) :
  Forall Contracts.serialised ops ->
  Contracts.within_threshold l ->
  Contracts.within_threshold (fst (Contracts.steps ops (l, r))).
Proof.
  intros Hall. revert l r. unfold Contracts.steps.
  induction Hall as [|op ops Hs _ IH]; intros l r Hin; [exact Hin|].
  cbn [fold_left].
  destruct op as [now newId b|env req|now user contractId b];
    cbn [Contracts.step fst snd].
  - apply IH. apply create_keeps_within. exact Hin.
  - apply IH. apply handle_keeps_within; [exact Hs|exact Hin].
  - apply IH. apply toggleLock_keeps_within. exact Hin.
Qed.

Lemma reachable_ledgers_are_within_threshold_witness :
  Contracts.within_threshold
    (fst (Contracts.steps Scenario.history (Scenario.empty_ledger, Sample.idle))).
Proof.
  apply (reachable_ledgers_are_within_threshold Scenario.history
           Scenario.empty_ledger Sample.idle).
  - repeat constructor.
  - intros key c H. discriminate H.
Defined.

(** The history, run: the first contract ends at 12 of 12 after the unlock,
    the second at 6 of 6, and the third, whose id is in lower case, was
    never created. *)
Example history_outcome :
  let l := fst (Contracts.steps Scenario.history (Scenario.empty_ledger, Sample.idle)) in
  (Contract.batteriesShipped <$> Ledger.findOne l "PBR-2025-A") = Some 12
  /\ (Contract.isLocked <$> Ledger.findOne l "PBR-2025-A") = Some false
  /\ (Contract.batteriesShipped <$> Ledger.findOne l "PBR-2025-B") = Some 6
  /\ Ledger.findOne l "pbr-2025-c" = None
  /\ map Shipment.status (Ledger.shipments l)
     = ["APPROVED"; "BLOCKED"; "APPROVED"; "APPROVED"].
Proof. vm_compute. repeat split; reflexivity. Qed.

End Reachable.

(** ** Block, unlock, ship again *)

Section Reopen.

Import World Shipments.



End Reopen.

(** ** The contracts route: pages *)

Section Pages.

Import Contracts.

Lemma ceil_div_floor total limit :
  1 <= limit -> ceil_div total limit = - ((- total) / limit).
Proof.
  intros Hl. unfold ceil_div, Qceiling, Qfloor.
  destruct limit as [|p|p]; try lia.
  cbn. rewrite Z.mul_1_r. reflexivity.
Qed.

(** [page < Math.ceil(total / limit)] says that documents lie beyond the
    page. *)
Lemma below_last_page total limit p :
  1 <= limit -> (p <? ceil_div total limit) = (p * limit <? total).
Proof.
  intros Hl. rewrite ceil_div_floor by exact Hl.
  pose proof (Z.div_mod (- total) limit ltac:(lia)) as E.
  pose proof (Z.mod_pos_bound (- total) limit ltac:(lia)) as B.
  set (q := (- total) / limit) in *. set (m := (- total) mod limit) in *.
  destruct (Z.ltb_spec p (- q)), (Z.ltb_spec (p * limit) total); try reflexivity; nia.
Qed.

Lemma window_nat {A} (docs : list A) (i : nat) (limit : Z) :
  1 <= limit ->
  window docs (Z.of_nat (S i)) limit
  = Some (take (Z.to_nat limit) (drop (i * Z.to_nat limit) docs)).
Proof.
  intros Hl. unfold window.
  replace (Z.of_nat (S i) - 1) with (Z.of_nat i) by lia.
  destruct (Z.ltb_spec (Z.of_nat i * limit) 0); [nia|].
  destruct (Z.leb_spec limit 0); [lia|]. cbn [orb].
  repeat f_equal. rewrite Z2Nat.inj_mul by lia. rewrite Nat2Z.id. reflexivity.
Qed.

Lemma windows_concat {A} (docs : list A) (n k : nat) :
  concat (map (fun i => take n (drop (i * n) docs)) (seq 0 k)) = take (k * n) docs.
Proof.
  induction k as [|k IH]; [reflexivity|].
  rewrite seq_S, map_app, concat_app, IH. cbn [map concat plus].
  rewrite app_nil_r, take_take_drop. f_equal. lia.
Qed.

Lemma page_docs_nat {A} (docs : list A) (ql : option Z) (i : nat) :
  1 <= or_default ql 10 ->
  page_docs docs ql (Z.of_nat (S i))
  = take (Z.to_nat (or_default ql 10)) (drop (i * Z.to_nat (or_default ql 10)) docs).
Proof.
  intros Hl. unfold page_docs, list_page.
  assert (E : or_default (Some (Z.of_nat (S i))) 1 = Z.of_nat (S i)).
  { unfold or_default. destruct (Z.eqb_spec (Z.of_nat (S i)) 0); [lia|reflexivity]. }
  rewrite E, window_nat by exact Hl. reflexivity.
Qed.

(** X24.  The pages tile the list.  With a limit of at least 1, the pages
    [1 .. pages] that the route announces, one after the other, are the
    documents themselves: each document is on exactly one page, in order,
    and no page holds more than [limit] documents. *)
Theorem pages_tile_the_documents {A} (docs : list A) (query_limit : option Z) :
  let limit := or_default query_limit 10 in
  let pages := ceil_div (Z.of_nat (length docs)) limit in
  1 <= limit ->
  concat (map (fun i => page_docs docs query_limit (Z.of_nat (S i)))
            (seq 0 (Z.to_nat pages)))
  = docs
  /\ forall p, Z.of_nat (length (page_docs docs query_limit p)) <= limit.
Proof.
  intros limit pages Hl. split.
  - rewrite (map_ext _ (fun i => take (Z.to_nat limit) (drop (i * Z.to_nat limit) docs)))
      by (intros i; apply page_docs_nat; exact Hl).
    rewrite windows_concat. apply take_ge.
    subst pages. rewrite ceil_div_floor by exact Hl.
    pose proof (Z.div_mod (- Z.of_nat (length docs)) limit ltac:(lia)) as E.
    pose proof (Z.mod_pos_bound (- Z.of_nat (length docs)) limit ltac:(lia)) as B.
    set (q := (- Z.of_nat (length docs)) / limit) in *.
    assert (0 <= - q) by nia.
    apply Nat2Z.inj_le. rewrite Nat2Z.inj_mul, !Z2Nat.id by lia. nia.
  - intros p. unfold page_docs, list_page.
    fold limit. destruct (window docs (or_default (Some p) 1) limit) as [cs|] eqn:W;
      [|cbn; lia].
    unfold window in W.
    destruct ((_ <? 0) || (limit <=? 0)); [discriminate|].
    injection W as <-. rewrite length_take. lia.
Qed.

Lemma pages_tile_the_documents_witness :
  let docs := [Sample.pbr1; Sample.pbr2; Sample.pbr3] in
  concat (map (fun i => page_docs docs (Some 2) (Z.of_nat (S i)))
            (seq 0 (Z.to_nat (ceil_div (Z.of_nat (length docs)) (or_default (Some 2) 10)))))
  = docs
  /\ forall p, Z.of_nat (length (page_docs docs (Some 2) p)) <= or_default (Some 2) 10.
Proof.
  apply (pages_tile_the_documents [Sample.pbr1; Sample.pbr2; Sample.pbr3] (Some 2)).
  cbn. lia.
Defined.

(** X25.  What [pagination] promises.  For a page of at least 1 and a limit of
    at least 1 the route answers, and [hasNext] is true exactly when the next
    page holds a document, [hasPrev] exactly when the page is not the first;
    a page beyond the last is answered with no document, not with an
    error. *)
Theorem pagination_flags_tell_the_truth {A} (docs : list A)
    (p : Z) (query_limit : option Z) :
  1 <= p ->
  1 <= or_default query_limit 10 ->
  exists contracts pg,
    list_page docs (Some p) query_limit = Some (contracts, pg)
    /\ page pg = p
    /\ total pg = Z.of_nat (length docs)
    /\ (hasNext pg = true <-> page_docs docs query_limit (p + 1) <> [])
    /\ (hasPrev pg = true <-> 1 < p)
    /\ (pages pg < p -> contracts = []).
Proof.
  intros Hp Hl. set (limit := or_default query_limit 10) in *.
  assert (Ep : or_default (Some p) 1 = p).
  { unfold or_default. destruct (Z.eqb_spec p 0); [lia|reflexivity]. }
  destruct (Z.to_nat p) as [|i] eqn:Ei; [lia|].
  assert (Hpi : p = Z.of_nat (S i)) by lia.
  unfold list_page. fold limit. rewrite Ep, Hpi, window_nat by exact Hl.
  eexists. eexists. split; [reflexivity|].
  cbn [page total hasNext hasPrev pages].
  split; [reflexivity|]. split; [reflexivity|].
  rewrite below_last_page by exact Hl.
  replace (Z.of_nat (S i) + 1) with (Z.of_nat (S (S i))) by lia.
  rewrite page_docs_nat by exact Hl. fold limit.
  assert (Hn : (0 < Z.to_nat limit)%nat) by lia.
  split; [|split].
  - rewrite Z.ltb_lt. split.
    + intros Hlt E.
      apply (f_equal (@length A)) in E. rewrite length_take, length_drop in E.
      cbn [length] in E.
      assert (Z.of_nat (S i * Z.to_nat limit) < Z.of_nat (length docs)).
      { rewrite Nat2Z.inj_mul, Z2Nat.id by lia. exact Hlt. }
      lia.
    + intros Hne.
      destruct (Z.lt_ge_cases (Z.of_nat (S i) * limit) (Z.of_nat (length docs)))
        as [Hlt|Hge]; [exact Hlt|].
      exfalso. apply Hne. rewrite drop_ge; [apply take_nil|].
      apply Nat2Z.inj_le. rewrite Nat2Z.inj_mul, Z2Nat.id by lia. lia.
  - destruct (Z.gtb_spec (Z.of_nat (S i)) 1); split; intros; try lia; try reflexivity;
      discriminate.
  - intros Hbeyond. rewrite ceil_div_floor in Hbeyond by exact Hl.
    pose proof (Z.div_mod (- Z.of_nat (length docs)) limit ltac:(lia)) as E.
    pose proof (Z.mod_pos_bound (- Z.of_nat (length docs)) limit ltac:(lia)) as B.
    set (q := (- Z.of_nat (length docs)) / limit) in *.
    rewrite drop_ge; [apply take_nil|].
    apply Nat2Z.inj_le. rewrite Nat2Z.inj_mul, Z2Nat.id by lia. nia.
Qed.

Lemma pagination_flags_tell_the_truth_witness :
  exists contracts pg,
    list_page [Sample.pbr1; Sample.pbr2; Sample.pbr3] (Some 2) (Some 2)
    = Some (contracts, pg)
    /\ page pg = 2
    /\ total pg = Z.of_nat (length [Sample.pbr1; Sample.pbr2; Sample.pbr3])
    /\ (hasNext pg = true
        <-> page_docs [Sample.pbr1; Sample.pbr2; Sample.pbr3] (Some 2) (2 + 1) <> [])
    /\ (hasPrev pg = true <-> 1 < 2)
    /\ (pages pg < 2 -> contracts = []).
Proof.
  apply (pagination_flags_tell_the_truth [Sample.pbr1; Sample.pbr2; Sample.pbr3]
           2 (Some 2)); cbn; lia.
Defined.

(** A negative page is not clamped: the [$skip] it yields is negative,
    MongoDB refuses the pipeline and the route answers 500. *)
Lemma negative_page_fails {A} (docs : list A) (p : Z) (query_limit : option Z) :
  p < 0 -> 1 <= or_default query_limit 10 ->
  list_page docs (Some p) query_limit = None.
Proof.
  intros Hp Hl. unfold list_page, window.
  assert (Ep : or_default (Some p) 1 = p).
  { unfold or_default. destruct (Z.eqb_spec p 0); [lia|reflexivity]. }
  rewrite Ep. destruct (Z.ltb_spec ((p - 1) * or_default query_limit 10) 0); [reflexivity|nia].
Qed.

End Pages.

(** ** The counters and the shipment log *)

Section Books.

Import World Shipments.

Lemma approved_batteries_app key log1 log2 :
  Contracts.approved_batteries key (log1 ++ log2)
  = Contracts.approved_batteries key log1 + Contracts.approved_batteries key log2.
Proof.
  induction log1 as [|s log1 IH]; [reflexivity|].
  cbn [app Contracts.approved_batteries]. rewrite IH. lia.
Qed.

(** What one request adds to the log counts, for each contract, for what
    the response says was approved there. *)
Lemma handle_log env req l r key :
  concurrent env = [] ->
  Contracts.approved_batteries key (Ledger.shipments (ledger (handle env req l r)))
  = Contracts.approved_batteries key (Ledger.shipments l)
    + (if String.eqb (contractId req) key && approved (response (handle env req l r))
       then batteriesShipped req else 0).
Proof.
  intros Hnone. unfold handle. pose proof (post_cases env req l r) as H.
  destruct (path env req l r) as [| | |c|c|c|c d|c];
    cbv zeta in H; decompose [and] H; clear H;
    match goal with Hp : post _ _ _ = _ |- _ => rewrite Hp end;
    cbn [snd ledger response]; rewrite ?Hnone, ?replay_nil.
  1-5: rewrite andb_false_r; lia.
  - cbn [Ledger.replay fold_left]. rewrite !shipments_apply, !app_nil_r.
    rewrite approved_batteries_app, andb_false_r.
    cbn [Contracts.approved_batteries new_shipment Shipment.status Shipment.contractId].
    rewrite andb_false_r. lia.
  - cbn [Ledger.replay fold_left]. rewrite !shipments_apply, !app_nil_r.
    rewrite approved_batteries_app.
    change (approved (Some (created (new_shipment env req c "APPROVED" None) "APPROVED")))
      with true.
    cbn [Contracts.approved_batteries new_shipment Shipment.status Shipment.contractId
         Shipment.batteriesShipped].
    change (String.eqb "APPROVED" "APPROVED") with true. lia.
  - cbn [Ledger.replay fold_left]. rewrite !shipments_apply, !app_nil_r.
    rewrite approved_batteries_app, andb_false_r.
    cbn [Contracts.approved_batteries new_shipment Shipment.status Shipment.contractId].
    rewrite andb_false_r. lia.
Qed.

Lemma approved_is_found env req l r :
  approved (response (handle env req l r)) = true ->
  exists c, Ledger.findOne l (contractId req) = Some c.
Proof.
  unfold handle. pose proof (post_cases env req l r) as H.
  destruct (path env req l r) as [| | |c|c|c|c d|c];
    cbv zeta in H; decompose [and] H; clear H;
    match goal with Hp : post _ _ _ = _ |- _ => rewrite Hp end;
    cbn; try discriminate.
  intros _. eauto.
Qed.

Lemma handle_keeps_balance env req l r :
  concurrent env = [] ->
  Contracts.balanced l ->
  Contracts.balanced (ledger (handle env req l r)).
Proof.
  intros Hnone Hbal key. rewrite (handle_log env req l r key Hnone), (Hbal key).
  destruct (Ledger.findOne l key) as [c|] eqn:Hc.
  - destruct (handle_step env req l r key c Hnone Hc) as (c' & -> & _ & Hb & _).
    symmetry. exact Hb.
  - destruct (Ledger.findOne (ledger (handle env req l r)) key) as [c'|] eqn:Hc'.
    + destruct (handle_found_before env req l r key c' Hnone Hc') as (c & Hc0).
      congruence.
    + destruct (String.eqb_spec (contractId req) key) as [E|]; cbn [andb]; [|lia].
      destruct (approved (response (handle env req l r))) eqn:Ha; [|lia].
      destruct (approved_is_found env req l r Ha) as (c & Hc0). congruence.
Qed.

Lemma create_keeps_balance now newId b l :
  Contracts.balanced l ->
  Contracts.balanced (fst (Contracts.create now newId b l)).
Proof.
  intros Hbal key. unfold Contracts.create.
  destruct (Contracts.create_valid b); cbn [negb]; [|apply Hbal].
  destruct (Ledger.findOne l (Contracts.contractId b)) eqn:Hf; [apply Hbal|].
  destruct (Contracts.schema_valid b); cbn [negb]; [|apply Hbal].
  destruct (Ledger.contracts l !! Contracts.contractId b); [apply Hbal|].
  cbn [fst]. rewrite findOne_insert by reflexivity. cbn [Ledger.shipments].
  destruct (String.eqb_spec (Contracts.contractId b) key) as [<-|]; [|apply Hbal].
  rewrite (Hbal (Contracts.contractId b)), Hf. reflexivity.
Qed.

Lemma toggleLock_keeps_balance now user contractId b l :
  Contracts.balanced l ->
  Contracts.balanced (fst (Contracts.toggleLock now user contractId b l)).
Proof.
  intros Hbal key. unfold Contracts.toggleLock.
  destruct (Ledger.findOne l contractId); [|apply Hbal].
  cbn [fst]. rewrite !shipments_apply, !app_nil_r, !findOne_apply, (Hbal key).
  destruct (Ledger.findOne l key) as [c|]; [|reflexivity].
  cbn [fmap option_fmap option_map]. rewrite !effect_batteriesShipped. lia.
Qed.

(** X26.  The books balance.  Starting from a ledger whose counters agree with
    its shipment log (the empty ledger is one), whatever contracts are
    created, whatever shipments are requested one after the other and
    however the lock route is used, the [batteriesShipped] of every contract
    is the sum of the quantities of the shipments logged as APPROVED for it:
    a blocked or refused request never moves a counter, and an approved one
    is never lost from the log. *)
Theorem counters_match_the_shipment_log (ops : list Contracts.Op)
    (l : Ledger.t) (r : Redis.t) :
  Forall Contracts.serialised ops ->
  Contracts.balanced l ->
  Contracts.balanced (fst (Contracts.steps ops (l, r))).
Proof.
  intros Hall. revert l r. unfold Contracts.steps.
  induction Hall as [|op ops Hs _ IH]; intros l r Hbal; [exact Hbal|].
  cbn [fold_left].
  destruct op as [now newId b|env req|now user contractId b];
    cbn [Contracts.step fst snd].
  - apply IH. apply create_keeps_balance. exact Hbal.
  - apply IH. apply handle_keeps_balance; [exact Hs|exact Hbal].
  - apply IH. apply toggleLock_keeps_balance. exact Hbal.
Qed.

Lemma counters_match_the_shipment_log_witness :
  Contracts.balanced
    (fst (Contracts.steps Scenario.history (Scenario.empty_ledger, Sample.idle))).
Proof.
  apply (counters_match_the_shipment_log Scenario.history
           Scenario.empty_ledger Sample.idle).
  - repeat constructor.
  - intros key. reflexivity.
Defined.

End Books.

(** ** The socket handlers: rooms and permissions *)

Section Rooms.

Import Socket.

Lemma on_identity s m :
  userId (fst (on s m)) = userId s /\ userRole (fst (on s m)) = userRole s.
Proof.
  destruct m as [c|c|c n| | | |]; cbn [on];
    repeat match goal with |- context [if ?b then _ else _] => destruct b end;
    split; reflexivity.
Qed.

Lemma connection_own_rooms userId userRole username :
  own_rooms (connection userId userRole username).
Proof.
  unfold own_rooms, connection.
  destruct (String.eqb_spec userRole "admin") as [E|E];
    cbn [join rooms Socket.userId Socket.userRole Socket.username];
    repeat split; intros H;
    repeat rewrite ?elem_of_union, ?elem_of_singleton, ?elem_of_empty in *.
  all: cbn in *; intuition (try discriminate; try congruence).
  all: match goal with
       | H : String.append _ _ = String.append _ _ |- _ =>
           cbv [String.append] in H; congruence
       end.
Qed.

Lemma join_own_rooms room s :
  room <> "admin" ->
  (forall x, room <> "role:" ++ x) ->
  (forall x, room <> "user:" ++ x) ->
  own_rooms s -> own_rooms (join room s).
Proof.
  intros Ha Hr Hu (Hadmin & Hrole & Huser). unfold own_rooms.
  cbn [join rooms Socket.userId Socket.userRole].
  repeat split; intros H;
    repeat rewrite ?elem_of_union, ?elem_of_singleton in *.
  - destruct H as [H|H]; [congruence|]. apply Hadmin, H.
  - right. apply Hadmin, H.
  - destruct H as [H|H]; [symmetry in H; apply Hr in H; contradiction|].
    apply Hrole, H.
  - right. apply Hrole, H.
  - destruct H as [H|H]; [symmetry in H; apply Hu in H; contradiction|].
    apply Huser, H.
  - right. apply Huser, H.
Qed.

Lemma leave_own_rooms room s :
  room <> "admin" ->
  (forall x, room <> "role:" ++ x) ->
  (forall x, room <> "user:" ++ x) ->
  own_rooms s -> own_rooms (leave room s).
Proof.
  intros Ha Hr Hu (Hadmin & Hrole & Huser). unfold own_rooms.
  cbn [leave rooms Socket.userId Socket.userRole].
  repeat split; intros H;
    repeat rewrite ?elem_of_difference, ?elem_of_singleton in *.
  - apply Hadmin, H.
  - split; [apply Hadmin, H|congruence].
  - apply Hrole, H.
  - split; [apply Hrole, H|]. intros E. symmetry in E. apply Hr in E. exact E.
  - apply Huser, H.
  - split; [apply Huser, H|]. intros E. symmetry in E. apply Hu in E. exact E.
Qed.

Lemma on_own_rooms s m : own_rooms s -> own_rooms (fst (on s m)).
Proof.
  intros Hs.
  destruct m as [c|c|c n| | | |]; cbn [on];
    repeat match goal with |- context [if ?b then _ else _] => destruct b end;
    cbn [fst]; try exact Hs;
    first [apply join_own_rooms|apply leave_own_rooms];
    try exact Hs; try (intros x); cbn; discriminate.
Qed.

Lemma run_cons s m ms :
  run s (m :: ms)
  = (fst (run (fst (on s m)) ms), (snd (on s m) ++ snd (run (fst (on s m)) ms))%list).
Proof.
  cbn [run]. destruct (on s m) as [s1 out1]. cbn [fst snd].
  destruct (run s1 ms) as [s2 out2]. reflexivity.
Qed.

(** X27.  A client cannot talk its way into a room that tells who it is.
    Whatever messages a socket sends after it has connected, it is in the
    admin room exactly if its role is admin, in the room of a role exactly
    if the role is its own, and in the personal room of a user exactly if
    the user is itself: joining and leaving contract rooms and subscribing
    to the monitors changes none of this. *)
Theorem client_cannot_change_its_own_rooms (userId userRole username : string)
    (ms : list Message) :
  let s := fst (run (connection userId userRole username) ms) in
  ("admin" ∈ rooms s <-> userRole = "admin")
  /\ (forall role, "role:" ++ role ∈ rooms s <-> role = userRole)
  /\ (forall user, "user:" ++ user ∈ rooms s <-> user = userId).
Proof.
  intros s.
  assert (H : own_rooms s /\ Socket.userRole s = userRole /\ Socket.userId s = userId).
  { subst s.
    assert (H0 : own_rooms (connection userId userRole username))
      by apply connection_own_rooms.
    assert (Hr : Socket.userRole (connection userId userRole username) = userRole)
      by (unfold connection; destruct (String.eqb userRole "admin"); reflexivity).
    assert (Hu : Socket.userId (connection userId userRole username) = userId)
      by (unfold connection; destruct (String.eqb userRole "admin"); reflexivity).
    revert H0 Hr Hu. generalize (connection userId userRole username) as s0.
    induction ms as [|m ms IH]; intros s0 H0 Hr Hu; [cbn; auto|].
    rewrite run_cons. cbn [fst].
    destruct (on_identity s0 m) as (Eu & Er).
    apply IH; [apply on_own_rooms; exact H0|congruence|congruence]. }
  destruct H as ((Ha & Hro & Hus) & Er & Eu). rewrite Er in *. rewrite Eu in *.
  repeat split; first [apply Ha|apply Hro|apply Hus].
Qed.

Lemma on_without_admin_role s m :
  userRole s <> "admin" ->
  Forall (fun e => target e <> Room "admin" /\ event e <> "admin:action_performed")
    (snd (on s m))
  /\ length (List.filter (fun e => String.eqb (event e) "error") (snd (on s m)))
     = length (List.filter (fun m => match m with AdminAction => true | _ => false end) [m]).
Proof.
  intros Hrole. apply String.eqb_neq in Hrole.
  destruct m as [c|c|c n| | | |]; cbn [on]; rewrite ?Hrole; cbn [negb];
    repeat match goal with |- context [if ?b then _ else _] => destruct b end;
    cbn [snd]; (split; [|reflexivity]);
    repeat constructor; cbn; try discriminate;
    intros E; injection E as E; revert E; cbv [String.append]; discriminate.
Qed.

(** X28.  Admin actions need the admin role.  Whatever messages a socket whose
    role is not admin sends, nothing is ever emitted to the admin room and
    no [admin:action_performed] goes out; each [admin:action] is answered to
    the sender with PERMISSION_DENIED, the only [error] events there are. *)
Theorem admin_actions_need_the_admin_role (s : t) (ms : list Message) :
  userRole s <> "admin" ->
  Forall (fun e => target e <> Room "admin" /\ event e <> "admin:action_performed")
    (snd (run s ms))
  /\ length (List.filter (fun e => String.eqb (event e) "error") (snd (run s ms)))
     = length (List.filter (fun m => match m with AdminAction => true | _ => false end) ms).
Proof.
  revert s. induction ms as [|m ms IH]; intros s Hrole.
  - split; [constructor|reflexivity].
  - rewrite run_cons. cbn [snd].
    destruct (on_identity s m) as (_ & Er).
    assert (Hrole' : userRole (fst (on s m)) <> "admin") by (rewrite Er; exact Hrole).
    destruct (IH _ Hrole') as (IH1 & IH2).
    destruct (on_without_admin_role s m Hrole) as (H1 & H2).
    rewrite Forall_app, List.filter_app, length_app, IH2, H2.
    split; [split; assumption|].
    destruct m; reflexivity.
Qed.

Lemma admin_actions_need_the_admin_role_witness :
  Forall (fun e => target e <> Room "admin" /\ event e <> "admin:action_performed")
    (snd (run (connection "12" "user" "alice")
            [JoinContract (Some "PBR-2024-001"); AdminAction; Ping; AdminAction]))
  /\ length (List.filter (fun e => String.eqb (event e) "error")
               (snd (run (connection "12" "user" "alice")
                       [JoinContract (Some "PBR-2024-001"); AdminAction; Ping; AdminAction])))
     = length (List.filter (fun m => match m with AdminAction => true | _ => false end)
                 [JoinContract (Some "PBR-2024-001"); AdminAction; Ping; AdminAction]).
Proof.
  apply (admin_actions_need_the_admin_role (connection "12" "user" "alice")
           [JoinContract (Some "PBR-2024-001"); AdminAction; Ping; AdminAction]).
  cbn. discriminate.
Defined.

(** X29.  The socket and the route check a shipment request alike, up to
    [10^21].  For a quantity that is an integer below [10^21], the data of
    a [shipment:request] passes the socket's check exactly if the same
    [contractId] and quantity pass the validators of [POST /].  From
    [10^21] on the two part: the socket lets the quantity through, and the
    route, whose validator reads the digits of the number, rejects it. *)
Theorem socket_check_and_route_validators (contractId : string) (quantity : Z)
    (notes : option string) (user : Shipments.User) :
  let req := Shipments.mkRequest contractId quantity notes user in
  (quantity < 10 ^ 21 ->
   invalid_shipment_data (Some contractId) (Some quantity)
   = negb (Shipments.validation_passes req))
  /\ (10 ^ 21 <= quantity -> contractId <> "" ->
      invalid_shipment_data (Some contractId) (Some quantity) = false
      /\ Shipments.validation_passes req = false).
Proof.
  unfold invalid_shipment_data, Shipments.validation_passes, Shipments.isInt_min1, truthy.
  cbn [Shipments.contractId Shipments.batteriesShipped].
  split.
  - intros Hq. rewrite negb_andb. f_equal.
    destruct (Z.eqb_spec quantity 0), (Z.leb_spec quantity 0), (Z.leb_spec 1 quantity),
             (Z.ltb_spec quantity (10 ^ 21));
      cbn; try reflexivity; lia.
  - intros Hq Hc. apply String.eqb_neq in Hc. rewrite Hc.
    destruct (Z.eqb_spec quantity 0), (Z.leb_spec quantity 0), (Z.leb_spec 1 quantity),
             (Z.ltb_spec quantity (10 ^ 21));
      cbn; try (split; reflexivity); lia.
Qed.

Lemma socket_check_and_route_validators_witness :
  invalid_shipment_data (Some "PBR-2024-001") (Some 10)
  = negb (Shipments.validation_passes (Sample.ship "PBR-2024-001" 10))
  /\ invalid_shipment_data (Some "PBR-2024-001") (Some (10 ^ 21)) = false
  /\ Shipments.validation_passes (Sample.ship "PBR-2024-001" (10 ^ 21)) = false.
Proof.
  split.
  - pose proof (socket_check_and_route_validators "PBR-2024-001" 10 None Sample.alice)
      as [H _].
    apply H. vm_compute. reflexivity.
  - pose proof (socket_check_and_route_validators "PBR-2024-001" (10 ^ 21) None
                  Sample.alice) as [_ H].
    apply H; [vm_compute|]; discriminate.
Defined.

End Rooms.

(** ** The dashboard: the colour of the progress bar *)

Section Progress.

Import Dashboard.




(** Without a threshold the bar still gets a colour: a contract whose
    threshold is 0 is drawn red as soon as something was shipped, and green
    when nothing was. *)
Example progress_without_threshold :
  getProgressColor (getProgressPercentage 5 0) = "bg-red-500"
  /\ getProgressColor (getProgressPercentage 0 0) = "bg-green-500".
Proof. split; reflexivity. Qed.

End Progress.
